(** * Vision Safe Guard: the PPE detection-aggregation pipeline

    A shallow embedding of the reconciler ([processDetections] and its inner
    [filterDuplicatePersons], EPIDetector.tsx), of the statistics readers
    ([getComplianceRates], AlertDashboard.tsx and ComplianceRatesCard.tsx) and
    of the live-session loop ([startRealtime], RealtimeDetector.tsx); then of
    the handlers around them: the upload area and the analysis loop of the page
    (VideoUpload.tsx, [analyzeVideo]), the statistics of the dashboard
    ([getAlertStats], AlertDashboard.tsx), the view of the player
    (VideoPlayer.tsx) and the camera controls of the live session.

    JavaScript numbers are IEEE 754 binary64 values; they are embedded as the
    primitive [float] type, whose operations are the same binary64 operations
    (round to nearest, ties to even, one NaN). *)

From Stdlib Require Import List String Ascii Bool Arith ZArith NArith Lia.
From Stdlib Require Import Floats DecimalString DecimalN DecimalPos.
Import ListNotations.

Set Warnings "-inexact-float".
#[local] Open Scope string_scope.
#[local] Open Scope list_scope.

(* ================================================================== *)
(** ** JavaScript values used by the pipeline *)
(* ================================================================== *)

Module JS.

#[local] Open Scope float_scope.

(** [ToBoolean] on a number: [0], [-0] and [NaN] are falsy. *)
Definition truthy (v : float) : bool := negb (is_zero v || is_nan v).

(** [v || d] where [v] is a possibly absent ([undefined]) number. *)
Definition or (v : option float) (d : float) : float :=
  match v with
  | Some n => if truthy n then n else d
  | None => d
  end.

(** [v ?? d] where [v] is a possibly absent number. *)
Definition nullish (v : option float) (d : float) : float :=
  match v with
  | Some n => n
  | None => d
  end.

(** [a < b], [a > b] and [a >= b] on numbers. *)
Definition lt (a b : float) : bool := a <? b.
Definition gt (a b : float) : bool := b <? a.
Definition ge (a b : float) : bool := b <=? a.

Definition is_neg_zero (v : float) : bool := is_zero v && get_sign v.
Definition is_pos_zero (v : float) : bool := is_zero v && negb (get_sign v).

(** [Math.max(a, b)]: NaN if either argument is NaN, [+0] above [-0]. *)
Definition Math_max (a b : float) : float :=
  if is_nan a || is_nan b then nan
  else if is_pos_zero b && is_neg_zero a then b
  else if a <? b then b
  else a.

(** [Math.min(a, b)]: NaN if either argument is NaN, [-0] below [+0]. *)
Definition Math_min (a b : float) : float :=
  if is_nan a || is_nan b then nan
  else if is_neg_zero b && is_pos_zero a then b
  else if b <? a then b
  else a.

(** The number of elements of an array, as a number.  An array holds fewer
    than 2^32 elements, so the conversion is exact. *)
Definition of_length (n : nat) : float :=
  of_uint63 (Uint63.of_Z (Z.of_nat n)).

(** [`${n}`] for a non-negative integer [n] below 1e21: its decimal digits. *)
Definition show (n : N) : string := NilZero.string_of_uint (N.to_uint n).

(** [String.prototype.toLowerCase].  A string is held as its UTF-8 bytes.
    The letters [A] to [Z] become [a] to [z], and the Kelvin sign U+212A (the
    bytes E2 84 AA) becomes [k]: these are the characters whose lower case is
    an ASCII string.  Every other character outside ASCII is left as it is;
    its lower case has a character outside ASCII too, so the result is the
    JavaScript one whenever that one is an ASCII string, and a string with a
    character outside ASCII whenever it is not.  The pipeline uses the result
    as a key of [epiMapping], whose keys (own and inherited) are ASCII, and
    stores it only when it is one. *)
Definition lower_ascii (c : ascii) : ascii :=
  let n := nat_of_ascii c in
  if (65 <=? n)%nat && (n <=? 90)%nat then ascii_of_nat (n + 32) else c.

Definition is_kelvin (c1 c2 c3 : ascii) : bool :=
  (nat_of_ascii c1 =? 226)%nat && (nat_of_ascii c2 =? 132)%nat
  && (nat_of_ascii c3 =? 170)%nat.

Fixpoint toLowerCase (s : string) : string :=
  match s with
  | EmptyString => EmptyString
  | String c1 (String c2 (String c3 r) as r1) =>
      if is_kelvin c1 c2 c3 then String "k" (toLowerCase r)
      else String (lower_ascii c1) (toLowerCase r1)
  | String c r => String (lower_ascii c) (toLowerCase r)
  end.

(** What a read [o[key]] of an object literal [o] of strings gives when it
    gives something: a string the literal holds, or a member the literal
    inherits from [Object.prototype] (a function; for [__proto__] the
    prototype itself).  [Member name] is the object read under [name]. *)
Inductive Value :=
| Str (s : string)
| Member (name : string).

Coercion Str : string >-> Value.

(** [a === b]: two strings when they are the same string, two objects when
    they are the same object, a string and an object never. *)
Definition strictEq (a b : Value) : bool :=
  match a, b with
  | Str s, Str t => String.eqb s t
  | Member m, Member n => String.eqb m n
  | _, _ => false
  end.

(** The properties of [Object.prototype], which every object literal
    inherits. *)
Definition inherited : list string :=
  [ "constructor"; "__defineGetter__"; "__defineSetter__"; "hasOwnProperty";
    "__lookupGetter__"; "__lookupSetter__"; "isPrototypeOf";
    "propertyIsEnumerable"; "toString"; "valueOf"; "__proto__";
    "toLocaleString" ].

(** The own properties of an object literal of strings, and the read
    [o[key]]: the own property of that name, else the inherited one, else
    [undefined]. *)
Fixpoint lookup (m : list (string * string)) (k : string) : option string :=
  match m with
  | [] => None
  | (k', v) :: r => if String.eqb k k' then Some v else lookup r k
  end.

Definition read (o : list (string * string)) (key : string) : option Value :=
  match lookup o key with
  | Some v => Some (Str v)
  | None => if existsb (String.eqb key) inherited then Some (Member key) else None
  end.

(** A [Set]: its elements in insertion order, each once. *)
Definition Set_ := list Value.
Definition Set_has (s : Set_) (k : Value) : bool := existsb (strictEq k) s.
Definition Set_add (s : Set_) (k : Value) : Set_ :=
  if Set_has s k then s else s ++ [k].

(** [Array.prototype.forEach((element, index) => ...)] over a callback that
    updates the state [St] it closes over. *)
Fixpoint forEach_from {A St : Type} (cb : A -> nat -> St -> St)
         (l : list A) (i : nat) (s : St) : St :=
  match l with
  | [] => s
  | a :: r => forEach_from cb r (S i) (cb a i s)
  end.

Definition forEach {A St : Type} (cb : A -> nat -> St -> St) (l : list A) (s : St) : St :=
  forEach_from cb l 0 s.

(** Exceptions: the only one the pipeline can raise is the [TypeError] of a
    property read on [null]. *)
Inductive exn := TypeError.

Inductive outcome (A : Type) :=
| Returns (a : A)
| Throws (e : exn).
Arguments Returns {A} a.
Arguments Throws {A} e.

Definition bind {A B : Type} (m : outcome A) (k : A -> outcome B) : outcome B :=
  match m with
  | Returns a => k a
  | Throws e => Throws e
  end.

End JS.

Notation "x <- m ;; k" := (JS.bind m (fun x => k))
  (at level 61, m at next level, right associativity).

(** The order of binary64 values, read off their specification: the key of a
    value that is not NaN is its multiple of 2^-1074, the infinities lying
    beyond every finite value. *)
Module Binary64.

#[local] Open Scope Z_scope.

Definition key (v : spec_float) : Z :=
  match v with
  | S754_zero _ => 0
  | S754_infinity s => cond_Zopp s (2 ^ 2098)
  | S754_nan => 0
  | S754_finite s m e => cond_Zopp s (Z.pos m * 2 ^ (e + 1074))
  end.

Definition nonnan (v : spec_float) : bool :=
  match v with
  | S754_nan => false
  | _ => true
  end.

Definition zero_or_nan (v : spec_float) : bool :=
  match v with
  | S754_zero _ | S754_nan => true
  | _ => false
  end.

Definition fkey (a : float) : Z := key (Prim2SF a).

End Binary64.

(* ================================================================== *)
(** ** Data model *)
(* ================================================================== *)

(** [interface Detection] (EPIDetector.tsx).  [type] is the value the code
    compares with [===]: ['person'], or what [epiMapping[className]] gave;
    [frame] and [timestamp] are the non-negative integers the callers pass (a
    loop index or [Date.now()]). *)
Module Detection.
Record t := mk {
  id : string;
  type : JS.Value;
  confidence : float;
  x : float;
  y : float;
  w : float;
  h : float;
  frame : N;
  timestamp : N;
  className : option string
}.
End Detection.

Inductive Severity := high | medium | low.

(** [interface Alert] (EPIDetector.tsx). *)
Module Alert.
Record t := mk {
  id : string;
  personId : string;
  missingEPIs : list string;
  severity : Severity;
  frame : N;
  timestamp : N
}.
End Alert.

(** The raw detector payloads (the two relay responses), with the fields the
    code reads.  Every field may be absent (a JSON [null] in its place reads the
    same under [?.], [||] and [??]); an entry is an object, a box the four numbers
    [x1, y1, x2, y2]. *)
Module Raw.
Record box4 := mkBox { x1 : float; y1 : float; x2 : float; y2 : float }.

(** An entry of [persons].  (Its [x] and [y] are never read.) *)
Module Person.
Record t := mk {
  score : option float;
  box : option box4;
  w : option float;
  h : option float
}.
End Person.

(** An entry of [ppe_detections]. *)
Module Ppe.
Record t := mk {
  class_name : option string;
  score : option float;
  box_model_input_coords : option box4;
  box : option box4
}.
End Ppe.

(** An element of [predictions] of the person detector and of the PPE
    detector. *)
Record personPrediction := mkPersonPrediction { persons : option (list Person.t) }.
Record ppePrediction := mkPpePrediction { ppe_detections : option (list Ppe.t) }.

(** A response body as [response.json()] returns it: JSON [null], or an object
    whose [predictions] array may be absent. *)
Inductive response (A : Type) :=
| Null
| Body (predictions : option (list A)).
Arguments Null {A}.
Arguments Body {A} predictions.

(** [r.predictions]: a property read, which throws on [null]. *)
Definition predictions {A : Type} (r : response A) : JS.outcome (option (list A)) :=
  match r with
  | Null => JS.Throws JS.TypeError
  | Body p => JS.Returns p
  end.

(** [p?.[0]] *)
Definition first {A : Type} (p : option (list A)) : option A :=
  match p with
  | Some (a :: _) => Some a
  | _ => None
  end.

(** [personData.predictions?.[0]?.persons] *)
Definition persons_of (r : response personPrediction)
  : JS.outcome (option (list Person.t)) :=
  p <- predictions r ;;
  JS.Returns (match first p with Some e => persons e | None => None end).

(** [ppeData.predictions?.[0]?.ppe_detections] *)
Definition ppe_detections_of (r : response ppePrediction)
  : JS.outcome (option (list Ppe.t)) :=
  p <- predictions r ;;
  JS.Returns (match first p with Some e => ppe_detections e | None => None end).
End Raw.

(** [Date.now()] is read once for every record pushed; the reading taken at the
    push of the entry of index [i] in one of the three loops is [clock site i]. *)
Inductive Site := AtPerson | AtEpi | AtAlert.
Definition Clock := Site -> nat -> N.

(* ================================================================== *)
(** ** The reconciler: [processDetections] (EPIDetector.tsx) *)
(* ================================================================== *)

Module EPIDetector.

Import JS.
#[local] Open Scope float_scope.

(** The component state the reconciler updates: [detections] and [alerts]. *)
Record Store := mkStore {
  detections : list Detection.t;
  alerts : list Alert.t
}.

(** [useState([])] twice; also the state after [handleVideoUpload]. *)
Definition emptyStore : Store := mkStore [] [].

Definition MIN_CONFIDENCE : float := 0.5.

Definition isPerson (d : Detection.t) : bool := strictEq (Detection.type d) "person".

(** The object literal pushed for a person entry. *)
Definition personDetection (frame : N) (clock : Clock)
           (person : Raw.Person.t) (index : nat) : Detection.t :=
  Detection.mk
    ("person_" ++ show frame ++ "_" ++ show (N.of_nat index))%string
    "person"
    (JS.or (Raw.Person.score person) 0)
    (match Raw.Person.box person with Some b => Raw.x1 b | None => 0 end)
    (match Raw.Person.box person with Some b => Raw.y1 b | None => 0 end)
    (match Raw.Person.box person with
     | Some b => Raw.x2 b - Raw.x1 b
     | None => JS.nullish (Raw.Person.w person) 0
     end)
    (match Raw.Person.box person with
     | Some b => Raw.y2 b - Raw.y1 b
     | None => JS.nullish (Raw.Person.h person) 0
     end)
    frame
    (clock AtPerson index)
    None.

(** The callback of [persons.forEach]: an entry below the threshold returns
    early, any other pushes one Detection on [newDetections]. *)
Definition personCallback (frame : N) (clock : Clock)
           (person : Raw.Person.t) (index : nat)
           (newDetections : list Detection.t) : list Detection.t :=
  if JS.lt (JS.or (Raw.Person.score person) 0) MIN_CONFIDENCE then newDetections
  else newDetections ++ [personDetection frame clock person index].

(** [epiMapping], an object literal read with a computed key. *)
Definition epiMapping : list (string * string) :=
  [ ("hat", "hat"); ("boots", "boots"); ("hearing", "hearing");
    ("goggles", "glasses"); ("mask", "mask"); ("gloves", "gloves") ].

(** [epiMapping[className]]: an absent [className] is the key ["undefined"].
    The six strings of the literal are truthy, and so is every inherited
    member: [!mappedType] holds exactly when the read gives nothing. *)
Definition epiMapping_get (className : option string) : option Value :=
  read epiMapping (match className with Some s => s | None => "undefined" end).

(** [epi.box_model_input_coords || epi.box || [0, 0, 0, 0]] *)
Definition epiBox (epi : Raw.Ppe.t) : Raw.box4 :=
  match Raw.Ppe.box_model_input_coords epi with
  | Some b => b
  | None =>
      match Raw.Ppe.box epi with
      | Some b => b
      | None => Raw.mkBox 0 0 0 0
      end
  end.

(** The object literal pushed for a PPE entry. *)
Definition epiDetection (frame : N) (clock : Clock) (epi : Raw.Ppe.t) (index : nat)
           (className : option string) (mappedType : Value) : Detection.t :=
  let box := epiBox epi in
  Detection.mk
    ("epi_" ++ show frame ++ "_" ++ show (N.of_nat index))%string
    mappedType
    (JS.or (Raw.Ppe.score epi) 0)
    (Raw.x1 box)
    (Raw.y1 box)
    (Raw.x2 box - Raw.x1 box)
    (Raw.y2 box - Raw.y1 box)
    frame
    (clock AtEpi index)
    className.

(** The callback of [ppe_detections.forEach]: it closes over [newDetections]
    and [detectedEPIClasses]. *)
Definition epiCallback (frame : N) (clock : Clock)
           (epi : Raw.Ppe.t) (index : nat)
           (acc : list Detection.t * Set_) : list Detection.t * Set_ :=
  let className := option_map toLowerCase (Raw.Ppe.class_name epi) in
  match epiMapping_get className with
  | None => acc
  | Some mappedType =>
      if JS.lt (JS.or (Raw.Ppe.score epi) 0) MIN_CONFIDENCE then acc
      else
        (fst acc ++ [epiDetection frame clock epi index className mappedType],
         Set_add (snd acc) mappedType)
  end.

Definition requiredEPIs : list string := ["mask"; "glasses"; "hearing"].

(** The label an alert shows for a missing class. *)
Definition epiLabel (epi : string) : string :=
  if String.eqb epi "mask" then "Máscara"
  else if String.eqb epi "glasses" then "Óculos de Proteção"
  else if String.eqb epi "hearing" then "Protetor Auricular"
  else epi.

(** The object literal pushed for a person of the frame. *)
Definition alertOf (frame : N) (clock : Clock) (missingEPIs : list string)
           (person : Detection.t) (personIndex : nat) : Alert.t :=
  Alert.mk
    ("alert_" ++ show frame ++ "_" ++ show (N.of_nat personIndex))%string
    (Detection.id person)
    (map epiLabel missingEPIs)
    (if (2 <=? List.length missingEPIs)%nat then high else medium)
    frame
    (clock AtAlert personIndex).

(** The callback of [personsInFrame.forEach]. *)
Definition alertCallback (frame : N) (clock : Clock) (missingEPIs : list string)
           (person : Detection.t) (personIndex : nat)
           (frameAlerts : list Alert.t) : list Alert.t :=
  if (List.length missingEPIs =? 0)%nat then frameAlerts
  else frameAlerts ++ [alertOf frame clock missingEPIs person personIndex].

(** [f.some(...)]'s predicate inside [filterDuplicatePersons]: the overlap of
    the kept rectangle [f] and the candidate [p], over the area of [p]. *)
Definition xOverlap (f p : Detection.t) : float :=
  Math_max 0 (Math_min (Detection.x f + Detection.w f) (Detection.x p + Detection.w p)
              - Math_max (Detection.x f) (Detection.x p)).

Definition yOverlap (f p : Detection.t) : float :=
  Math_max 0 (Math_min (Detection.y f + Detection.h f) (Detection.y p + Detection.h p)
              - Math_max (Detection.y f) (Detection.y p)).

Definition iou (f p : Detection.t) : float :=
  (xOverlap f p * yOverlap f p) / (Detection.w p * Detection.h p).

Definition duplicates (f p : Detection.t) : bool := JS.gt (iou f p) 0.7.

(** The callback of [persons.forEach] inside [filterDuplicatePersons]. *)
Definition keepCallback (p : Detection.t) (_ : nat)
           (filtered : list Detection.t) : list Detection.t :=
  let overlap := existsb (fun f => duplicates f p) filtered in
  if negb overlap then filtered ++ [p] else filtered.

Definition filterDuplicatePersons (detections : list Detection.t) : list Detection.t :=
  let persons := filter isPerson detections in
  let filtered := forEach keepCallback persons [] in
  let nonPersons := filter (fun d => negb (isPerson d)) detections in
  filtered ++ nonPersons.

(** The locals of one call of [processDetections] when it reaches its two
    state updates. *)
Record FrameOutput := mkFrame {
  newDetections : list Detection.t;
  detectedEPIClasses : Set_;
  missingEPIs : list string;
  frameAlerts : list Alert.t
}.

(** The body of [processDetections] up to the state updates. *)
Definition reconcile (personData : Raw.response Raw.personPrediction)
           (ppeData : Raw.response Raw.ppePrediction)
           (frame : N) (clock : Clock) : outcome FrameOutput :=
  persons <- Raw.persons_of personData ;;
  let newDetections :=
    match persons with
    | Some l => forEach (personCallback frame clock) l []
    | None => []
    end in
  ppe <- Raw.ppe_detections_of ppeData ;;
  let acc :=
    match ppe with
    | Some l => forEach (epiCallback frame clock) l (newDetections, [])
    | None => (newDetections, [])
    end in
  let newDetections := fst acc in
  let detectedEPIClasses := snd acc in
  let missingEPIs :=
    filter (fun epi : string => negb (Set_has detectedEPIClasses epi)) requiredEPIs in
  let personsInFrame := filter isPerson newDetections in
  let frameAlerts := forEach (alertCallback frame clock missingEPIs) personsInFrame [] in
  Returns (mkFrame newDetections detectedEPIClasses missingEPIs frameAlerts).

(** [setDetections(prev => filterDuplicatePersons([...prev, ...newDetections]))]
    and [setAlerts(prev => [...prev, ...frameAlerts])]. *)
Definition commit (out : FrameOutput) (prev : Store) : Store :=
  mkStore (filterDuplicatePersons (detections prev ++ newDetections out))
          (alerts prev ++ frameAlerts out).

Definition processDetections (personData : Raw.response Raw.personPrediction)
           (ppeData : Raw.response Raw.ppePrediction)
           (frame : N) (clock : Clock) (prev : Store) : outcome Store :=
  out <- reconcile personData ppeData frame clock ;;
  Returns (commit out prev).

(** The stores the component can hold: the initial one (also the one
    [handleVideoUpload] resets to), and any left by a call that returned. *)
Inductive reachable : Store -> Prop :=
| reachable_empty : reachable emptyStore
| reachable_step (prev : Store) personData ppeData frame clock (next : Store) :
    reachable prev ->
    processDetections personData ppeData frame clock prev = Returns next ->
    reachable next.

End EPIDetector.

(* ================================================================== *)
(** ** Compliance rates: [getComplianceRates] *)
(* ================================================================== *)

Module Stats.

Import JS.
#[local] Open Scope float_scope.

(** [Number.prototype.toFixed(1)]: the decimal with one fractional digit
    nearest to the exact value of [v], the larger one on a tie.  (From 1e21
    on JavaScript prints an exponent instead; [getComplianceRates] caps its
    argument at 100.) *)
Definition toFixed1 (v : float) : string :=
  match Prim2SF v with
  | S754_nan => "NaN"
  | S754_infinity s => if s then "-Infinity" else "Infinity"
  | S754_zero _ => "0.0"
  | S754_finite s m e =>
      let n :=
        if (0 <=? e)%Z then (Z.pos m * 2 ^ e * 10)%Z
        else ((20 * Z.pos m + 2 ^ (- e)) / 2 ^ (1 - e))%Z in
      ((if s then "-" else "") ++ show (Z.to_N (n / 10)) ++ "."
         ++ show (Z.to_N (n mod 10)))%string
  end.

(** [detections.filter(d => d.type === t).length] *)
Definition countByType (t : string) (detections : list Detection.t) : nat :=
  List.length (filter (fun d => strictEq (Detection.type d) t) detections).

(** [Math.min(100, (count / personDetections) * 100).toFixed(1)] *)
Definition rate (count personDetections : nat) : string :=
  toFixed1 (Math_min 100 (of_length count / of_length personDetections * 100)).

(** An object literal as [Object.entries] reads it back: its own properties in
    order; [get] is the own property of a name. *)
Definition Rates := list (string * string).

Fixpoint get (r : Rates) (k : string) : option string :=
  match r with
  | [] => None
  | (k', v) :: t => if String.eqb k k' then Some v else get t k
  end.

End Stats.

(** ComplianceRatesCard.tsx as EPIDetector.tsx imports it: the six classes of
    [epiMapping]. *)
Module ComplianceRatesCard.

Import Stats.

Definition getComplianceRates (detections : list Detection.t) : Rates :=
  let personDetections := countByType "person" detections in
  if (personDetections =? 0)%nat then []
  else
    [ ("hat", rate (countByType "hat" detections) personDetections);
      ("mask", rate (countByType "mask" detections) personDetections);
      ("gloves", rate (countByType "gloves" detections) personDetections);
      ("glasses", rate (countByType "glasses" detections) personDetections);
      ("boots", rate (countByType "boots" detections) personDetections);
      ("hearing", rate (countByType "hearing" detections) personDetections) ].

End ComplianceRatesCard.

(** AlertDashboard.tsx (and the other copy of ComplianceRatesCard.tsx): the
    five classes of the second vocabulary. *)
Module AlertDashboard.

Import Stats.

Definition getComplianceRates (detections : list Detection.t) : Rates :=
  let personDetections := countByType "person" detections in
  if (personDetections =? 0)%nat then []
  else
    [ ("mask", rate (countByType "mask" detections) personDetections);
      ("gloves", rate (countByType "gloves" detections) personDetections);
      ("goggles", rate (countByType "goggles" detections) personDetections);
      ("coverall", rate (countByType "coverall" detections) personDetections);
      ("face_Shield", rate (countByType "face_Shield" detections) personDetections) ].

End AlertDashboard.

(* ================================================================== *)
(** ** The live session: [startRealtime] (RealtimeDetector.tsx) *)
(* ================================================================== *)

Module RealtimeDetector.

Import JS.
#[local] Open Scope float_scope.

(** The component state and refs, with the store of the parent component the
    [processDetections] prop updates.  [timer] tells whether the interval held
    by [intervalRef] is still scheduled; [video] whether [videoRef.current] is
    set. *)
Record Session := mkSession {
  isRealtime : bool;
  isCameraOn : bool;
  video : bool;
  timer : bool;
  missedFrames : nat;
  store : EPIDetector.Store
}.

Definition MAX_MISSED_FRAMES : nat := 5.

(** The three states of the session. *)
Inductive Phase := Idle | CameraReady | Analyzing.

Definition phase (s : Session) : Phase :=
  if isRealtime s && timer s then Analyzing
  else if isCameraOn s then CameraReady
  else Idle.

Definition startRealtime (s : Session) : Session :=
  if negb (video s) || isRealtime s then s
  else mkSession true (isCameraOn s) (video s) true 0 (store s).

Definition stopRealtime (s : Session) : Session :=
  mkSession false (isCameraOn s) (video s) false (missedFrames s) (store s).

(** [(p.score || 0) >= 0.6] *)
Definition qualifies (p : Raw.Person.t) : bool :=
  JS.ge (JS.or (Raw.Person.score p) 0) 0.6.

(** [personDetections.predictions?.[0]?.persons?.filter(...) || []] *)
Definition filteredPersons (personDetections : Raw.response Raw.personPrediction)
  : outcome (list Raw.Person.t) :=
  persons <- Raw.persons_of personDetections ;;
  Returns (match persons with Some l => filter qualifies l | None => [] end).

(** One cycle of the interval callback, run to its end once both detector
    calls have answered; [now] is the [Date.now()] passed as frame.  A throw
    rejects the callback's promise where it happens: what was assigned before
    stays assigned, what follows is skipped. *)
Definition cycle (personDetections : Raw.response Raw.personPrediction)
           (ppeDetections : Raw.response Raw.ppePrediction)
           (now : N) (clock : Clock) (s : Session) : Session :=
  if negb (video s) then s
  else
    match filteredPersons personDetections with
    | Throws _ => s
    | Returns filtered =>
        let missed :=
          if (List.length filtered =? 0)%nat then S (missedFrames s) else 0%nat in
        let s1 := mkSession (isRealtime s) (isCameraOn s) (video s) (timer s)
                            missed (store s) in
        match EPIDetector.processDetections personDetections ppeDetections
                                            now clock (store s1) with
        | Throws _ => s1
        | Returns st =>
            let s2 := mkSession (isRealtime s1) (isCameraOn s1) (video s1) (timer s1)
                                missed st in
            if (MAX_MISSED_FRAMES <=? missed)%nat then stopRealtime s2 else s2
        end
    end.

(** What one firing of the interval brings: the two response bodies, the
    [Date.now()] passed as frame and the clock readings of the pushes. *)
Record Sample := mkSample {
  personBody : option (list Raw.personPrediction);
  ppeBody : option (list Raw.ppePrediction);
  stamp : N;
  readings : Clock
}.

(** The interval fires only while it is scheduled. *)
Definition tick (s : Session) (x : Sample) : Session :=
  if timer s then
    cycle (Raw.Body (personBody x)) (Raw.Body (ppeBody x)) (stamp x) (readings x) s
  else s.

Definition run (samples : list Sample) (s : Session) : Session :=
  fold_left tick samples s.

(** What one firing of the interval is answered with when a detector may
    answer JSON [null] as well: the two values [response.json()] gives, the
    [Date.now()] passed as frame and the clock readings of the pushes. *)
Record Replies := mkReplies {
  personReply : Raw.response Raw.personPrediction;
  ppeReply : Raw.response Raw.ppePrediction;
  replyStamp : N;
  replyReadings : Clock
}.

Definition tickOn (s : Session) (r : Replies) : Session :=
  if timer s then
    cycle (personReply r) (ppeReply r) (replyStamp r) (replyReadings r) s
  else s.

Definition runOn (replies : list Replies) (s : Session) : Session :=
  fold_left tickOn replies s.

End RealtimeDetector.

(* ================================================================== *)
(** ** Notions the properties are stated with *)
(* ================================================================== *)

Module Notions.

Import JS EPIDetector RealtimeDetector.

(** What a loop leaves when its callback pushes [g a i] for the element [a] of
    index [i]. *)
Fixpoint collect_from {A B : Type} (g : A -> nat -> list B) (l : list A) (i : nat) : list B :=
  match l with
  | [] => []
  | a :: r => g a i ++ collect_from g r (S i)
  end.

(** What each of the three callbacks of [processDetections] pushes. *)
Definition personPush (frame : N) (clock : Clock) (person : Raw.Person.t) (index : nat)
  : list Detection.t :=
  if JS.lt (JS.or (Raw.Person.score person) 0) MIN_CONFIDENCE then []
  else [personDetection frame clock person index].

Definition epiPush (frame : N) (clock : Clock) (epi : Raw.Ppe.t) (index : nat)
  : list Detection.t :=
  let className := option_map toLowerCase (Raw.Ppe.class_name epi) in
  match epiMapping_get className with
  | None => []
  | Some mappedType =>
      if JS.lt (JS.or (Raw.Ppe.score epi) 0) MIN_CONFIDENCE then []
      else [epiDetection frame clock epi index className mappedType]
  end.

Definition alertPush (frame : N) (clock : Clock) (missingEPIs : list string)
           (person : Detection.t) (personIndex : nat) : list Alert.t :=
  if (List.length missingEPIs =? 0)%nat then []
  else [alertOf frame clock missingEPIs person personIndex].

(** The entries the two loops run over: none when a field on the path is
    absent. *)
Definition personEntries (body : option (list Raw.personPrediction)) : list Raw.Person.t :=
  match Raw.first body with
  | Some e => match Raw.persons e with Some l => l | None => [] end
  | None => []
  end.

Definition ppeEntries (body : option (list Raw.ppePrediction)) : list Raw.Ppe.t :=
  match Raw.first body with
  | Some e => match Raw.ppe_detections e with Some l => l | None => [] end
  | None => []
  end.

Definition nonPerson (d : Detection.t) : bool := negb (isPerson d).

(** One turn of the loop of [filterDuplicatePersons], and the loop from a given
    [filtered]. *)
Definition keepStep (filtered : list Detection.t) (p : Detection.t) : list Detection.t :=
  keepCallback p 0 filtered.

Definition keepInto (filtered : list Detection.t) (persons : list Detection.t)
  : list Detection.t :=
  fold_left keepStep persons filtered.

(** A list the loop leaves as it is: no element duplicates an earlier one. *)
Definition settled (l : list Detection.t) : Prop := keepInto [] l = l.

(** [subseq l1 l2]: [l1] is [l2] with some elements left out, the others in
    their order. *)
Inductive subseq {A : Type} : list A -> list A -> Prop :=
| subseq_nil : subseq [] []
| subseq_skip (a : A) (l1 l2 : list A) : subseq l1 l2 -> subseq l1 (a :: l2)
| subseq_keep (a : A) (l1 l2 : list A) : subseq l1 l2 -> subseq (a :: l1) (a :: l2).

(** The session is analysing: the loop is on, its interval scheduled, the video
    element mounted and the camera on. *)
Definition analysing (s : Session) : Prop :=
  isRealtime s = true /\ timer s = true /\ video s = true /\ isCameraOn s = true.

(** The loop has been stopped, the camera still on. *)
Definition stopped (s : Session) : Prop :=
  isRealtime s = false /\ timer s = false /\ isCameraOn s = true.

(** A sample in which no person reaches 0.6, and one in which some person
    does. *)
Definition miss (x : Sample) : Prop :=
  filteredPersons (Raw.Body (personBody x)) = Returns [].

Definition hit (x : Sample) : Prop :=
  exists p l, filteredPersons (Raw.Body (personBody x)) = Returns (p :: l).

(** The same of the replies of a cycle: the filter finds no person of score at
    least 0.6, or finds one.  [answered]: the PPE detector answered with an
    object, not with [null]. *)
Definition missed (r : Replies) : Prop :=
  filteredPersons (personReply r) = Returns [].

Definition found (r : Replies) : Prop :=
  exists p l, filteredPersons (personReply r) = Returns (p :: l).

Definition answered (r : Replies) : Prop :=
  exists body, ppeReply r = Raw.Body body.

End Notions.

(** Sample payloads and the records they give. *)
Module Samples.

Import JS EPIDetector RealtimeDetector.
#[local] Open Scope float_scope.

Definition clock0 : Clock := fun _ _ => 0%N.

(** One person of score 0.9 at box [10, 10, 50, 90]. *)
Definition onePerson : option (list Raw.personPrediction) :=
  Some [Raw.mkPersonPrediction
          (Some [Raw.Person.mk (Some 0.9) (Some (Raw.mkBox 10 10 50 90)) None None])].

(** Three persons side by side, none overlapping another. *)
Definition threePersons : option (list Raw.personPrediction) :=
  Some [Raw.mkPersonPrediction
          (Some [Raw.Person.mk (Some 0.9) (Some (Raw.mkBox 0 0 10 10)) None None;
                 Raw.Person.mk (Some 0.9) (Some (Raw.mkBox 20 0 30 10)) None None;
                 Raw.Person.mk (Some 0.9) (Some (Raw.mkBox 40 0 50 10)) None None])].

(** One person of score 0.9 with neither a box nor [w] and [h]. *)
Definition bareEntry : Raw.Person.t := Raw.Person.mk (Some 0.9) None None None.

Definition barePerson : option (list Raw.personPrediction) :=
  Some [Raw.mkPersonPrediction (Some [bareEntry])].

(** One person of score 0.3. *)
Definition faintEntry : Raw.Person.t :=
  Raw.Person.mk (Some 0.3) (Some (Raw.mkBox 10 10 50 90)) None None.

Definition faintPerson : option (list Raw.personPrediction) :=
  Some [Raw.mkPersonPrediction (Some [faintEntry])].

(** A person of score 0.3 followed by one of score exactly 0.5, and a [mask] of
    score exactly 0.5 followed by one of score 0.3. *)
Definition edgeEntry : Raw.Person.t :=
  Raw.Person.mk (Some 0.5) (Some (Raw.mkBox 10 10 50 90)) None None.

Definition edgePersons : option (list Raw.personPrediction) :=
  Some [Raw.mkPersonPrediction (Some [faintEntry; edgeEntry])].

Definition edgeMask : Raw.Ppe.t := Raw.Ppe.mk (Some "mask") (Some 0.5) None None.

Definition faintMask : Raw.Ppe.t := Raw.Ppe.mk (Some "mask") (Some 0.3) None None.

Definition edgePpe : option (list Raw.ppePrediction) :=
  Some [Raw.mkPpePrediction (Some [edgeMask; faintMask])].

(** One [mask] of score 0.8, without a box. *)
Definition oneMask : option (list Raw.ppePrediction) :=
  Some [Raw.mkPpePrediction (Some [Raw.Ppe.mk (Some "mask") (Some 0.8) None None])].

(** Bodies without entries: no [predictions], and an empty array. *)
Definition noPersons : option (list Raw.personPrediction) := None.
Definition noPpe : option (list Raw.ppePrediction) := None.
Definition emptyPpe : option (list Raw.ppePrediction) :=
  Some [Raw.mkPpePrediction (Some [])].

(** The Detections of [onePerson], [barePerson] and [oneMask] at a frame. *)
Definition personAt (frame : N) : Detection.t :=
  Detection.mk ("person_" ++ show frame ++ "_0")%string "person" 0.9 10 10 40 80 frame 0 None.

Definition bareAt (frame : N) : Detection.t :=
  Detection.mk ("person_" ++ show frame ++ "_0")%string "person" 0.9 0 0 0 0 frame 0 None.

Definition maskAt (frame : N) : Detection.t :=
  Detection.mk ("epi_" ++ show frame ++ "_0")%string "mask" 0.8 0 0 0 0 frame 0 (Some "mask").

(** The store after [onePerson] alone at frame 0, and after [oneMask] alone. *)
Definition personStore : Store :=
  mkStore [personAt 0] [alertOf 0 clock0 requiredEPIs (personAt 0) 0].

Definition maskStore : Store := mkStore [maskAt 0] [].

(** A session with the camera on, the same after [startRealtime], a sample
    without persons and one with [onePerson]. *)
Definition ready : Session := mkSession false true true false 0 emptyStore.

Definition started : Session := startRealtime ready.

Definition emptySample : Sample := mkSample noPersons noPpe 0 clock0.

(** The replies of a cycle without persons: with a PPE response that has no
    [predictions], and with [null] for the PPE response. *)
Definition emptyReplies : Replies := mkReplies (Raw.Body noPersons) (Raw.Body noPpe) 0 clock0.

Definition nullPpeReplies : Replies := mkReplies (Raw.Body noPersons) Raw.Null 0 clock0.

Definition personReplies : Replies := mkReplies (Raw.Body onePerson) (Raw.Body noPpe) 0 clock0.

Definition personSample : Sample := mkSample onePerson noPpe 0 clock0.

End Samples.

(** The sign of a binary64 value, read off its specification. *)
Module Rounding.

(** A zero, an infinity or a finite value of sign [s]. *)
Definition signed (s : bool) (v : spec_float) : bool :=
  match v with
  | S754_zero s' | S754_infinity s' | S754_finite s' _ _ => Bool.eqb s' s
  | S754_nan => false
  end.

(** A value that is not NaN and not above zero. *)
Definition notAbove (v : spec_float) : bool :=
  match v with
  | S754_zero _ => true
  | S754_infinity s | S754_finite s _ _ => s
  | S754_nan => false
  end.

End Rounding.

(* ================================================================== *)
(** ** Sequences of calls *)
(* ================================================================== *)

(** The calls of [processDetections] a session or an analysis makes, one after
    the other on the same component state. *)
Module History.

Import JS EPIDetector.

Record Call := mkCall {
  personData : Raw.response Raw.personPrediction;
  ppeData : Raw.response Raw.ppePrediction;
  frame : N;
  clock : Clock
}.

Definition call (c : Call) (st : Store) : outcome Store :=
  processDetections (personData c) (ppeData c) (frame c) (clock c) st.

(** The calls in order; the first one that throws ends the sequence. *)
Fixpoint replay (calls : list Call) (st : Store) : outcome Store :=
  match calls with
  | [] => Returns st
  | c :: r => st' <- call c st ;; replay r st'
  end.

(** A record id as the three loops build it: a tag, the frame and the index. *)
Definition recordId (tag : string) (frame : N) (index : nat) : string :=
  (tag ++ show frame ++ "_" ++ show (N.of_nat index))%string.

(** The values of [Detection['type']], and the two inherited members a
    lower-case label can name. *)
Definition detectionTypes : list Value :=
  [Str "person"; Str "hat"; Str "mask"; Str "gloves"; Str "glasses"; Str "boots";
   Str "hearing"].

Definition inheritedTypes : list Value := [Member "constructor"; Member "__proto__"].

(** [upper s]: the string [s] has one of the letters [A] to [Z]. *)
Fixpoint upper (s : string) : bool :=
  match s with
  | EmptyString => false
  | String c r =>
      ((65 <=? nat_of_ascii c)%nat && (nat_of_ascii c <=? 90)%nat) || upper r
  end.

(** [noOverlap l]: no element of [l] duplicates one that comes before it. *)
Definition noOverlap (l : list Detection.t) : Prop :=
  ForallOrdPairs (fun f p => duplicates f p = false) l.

(** [has c s]: the character [c] occurs in [s]. *)
Fixpoint has (c : ascii) (s : string) : bool :=
  match s with
  | EmptyString => false
  | String c' r => Ascii.eqb c c' || has c r
  end.

(** A Detection made at one of the frames [used], whose id says so; likewise
    an Alert. *)
Definition tagged (used : list N) (d : Detection.t) : Prop :=
  In (Detection.frame d) used
  /\ exists k, Detection.id d
               = recordId (if isPerson d then "person_" else "epi_") (Detection.frame d) k.

Definition taggedAlert (used : list N) (a : Alert.t) : Prop :=
  In (Alert.frame a) used /\ exists k, Alert.id a = recordId "alert_" (Alert.frame a) k.

(** A store whose records are made at the frames [used] and have ids of their
    own. *)
Definition wellTagged (used : list N) (st : Store) : Prop :=
  NoDup (map Detection.id (detections st))
  /\ Forall (tagged used) (detections st)
  /\ NoDup (map Alert.id (alerts st))
  /\ Forall (taggedAlert used) (alerts st).

End History.

(** More sample payloads. *)
Module MoreSamples.

Import JS EPIDetector RealtimeDetector History Samples.
#[local] Open Scope float_scope.

(** A mask, goggles and a hearing protector, each of score 0.8, the goggles in
    capitals. *)
Definition fullPpe : option (list Raw.ppePrediction) :=
  Some [Raw.mkPpePrediction
          (Some [Raw.Ppe.mk (Some "mask") (Some 0.8) None None;
                 Raw.Ppe.mk (Some "GOGGLES") (Some 0.8) None None;
                 Raw.Ppe.mk (Some "hearing") (Some 0.8) None None])].

(** One person of score 0.55: above the threshold of the reconciler, below the
    one of the live loop. *)
Definition dimEntry : Raw.Person.t :=
  Raw.Person.mk (Some 0.55) (Some (Raw.mkBox 10 10 50 90)) None None.

Definition dimPerson : option (list Raw.personPrediction) :=
  Some [Raw.mkPersonPrediction (Some [dimEntry])].

Definition dimSample : Sample := mkSample dimPerson noPpe 0 clock0.

(** Two entries of score 0.9 whose labels, once in lower case, name members
    every object inherits, and the Detection such an entry gives. *)
Definition inheritedPpe : option (list Raw.ppePrediction) :=
  Some [Raw.mkPpePrediction
          (Some [Raw.Ppe.mk (Some "Constructor") (Some 0.9) None None;
                 Raw.Ppe.mk (Some "__PROTO__") (Some 0.9) None None])].

Definition memberAt (index : nat) (name : string) : Detection.t :=
  Detection.mk (recordId "epi_" 0 index) (Member name) 0.9 0 0 0 0 0 0 (Some name).

(** One [MASK] of score 0.8 whose last letter is the Kelvin sign U+212A. *)
Definition kelvinMask : option (list Raw.ppePrediction) :=
  Some [Raw.mkPpePrediction
          (Some [Raw.Ppe.mk
                   (Some ("MAS" ++ String (ascii_of_nat 226)
                                     (String (ascii_of_nat 132)
                                        (String (ascii_of_nat 170) EmptyString)))%string)
                   (Some 0.8) None None])].

(** [onePerson] with [oneMask] at frame 0, then at frame 10. *)
Definition twoFrames : list Call :=
  [ mkCall (Raw.Body onePerson) (Raw.Body oneMask) 0 clock0;
    mkCall (Raw.Body onePerson) (Raw.Body oneMask) 10 clock0 ].

End MoreSamples.

(* ================================================================== *)
(** ** The page: upload and analysis (EPIDetector.tsx, VideoUpload.tsx) *)
(* ================================================================== *)

(** A [File] as the handlers read it. *)
Module File.
Record t := mk {
  name : string;
  type : string;
  size : N
}.
End File.

Inductive Variant := default | destructive.

(** The argument of a [toast(...)] call; [variant] may be left out. *)
Module Toast.
Record t := mk {
  title : string;
  description : string;
  variant : option Variant
}.
End Toast.

(** The state and the handlers of the [EPIDetector] component.  [toasts] are
    the calls of [toast] so far, in order. *)
Module Page.

Import JS EPIDetector.
#[local] Open Scope float_scope.

Record State := mkState {
  videoFile : option File.t;
  isAnalyzing : bool;
  store : Store;
  currentFrame : N;
  analysisProgress : float;
  toasts : list Toast.t
}.

(** The state of the first render. *)
Definition initial : State := mkState None false emptyStore 0 0 [].

Definition toast (t : Toast.t) (s : State) : State :=
  mkState (videoFile s) (isAnalyzing s) (store s) (currentFrame s) (analysisProgress s)
          (toasts s ++ [t]).

Definition setIsAnalyzing (b : bool) (s : State) : State :=
  mkState (videoFile s) b (store s) (currentFrame s) (analysisProgress s) (toasts s).

Definition setAnalysisProgress (v : float) (s : State) : State :=
  mkState (videoFile s) (isAnalyzing s) (store s) (currentFrame s) v (toasts s).

Definition setStore (st : Store) (s : State) : State :=
  mkState (videoFile s) (isAnalyzing s) st (currentFrame s) (analysisProgress s) (toasts s).

Definition handleVideoUpload (file : File.t) (s : State) : State :=
  toast (Toast.mk "Vídeo carregado"
                  (File.name file ++ " está pronto para análise")%string
                  None)
        (mkState (Some file) (isAnalyzing s) emptyStore 0 0 (toasts s)).

(** A frame number as a number; frame numbers are far below 2^53. *)
Definition number (n : N) : float := of_uint63 (Uint63.of_Z (Z.of_N n)).

Definition totalFrames : N := 100.

(** What the awaits of one turn of the loop bring: both detector calls
    answered, with the clock readings of the pushes that follow; one of the
    promises rejected (a failed [fetch], a body that is not JSON); or a promise
    that is never settled. *)
Inductive Fetched :=
| Answered (personDetections : Raw.response Raw.personPrediction)
           (ppeDetections : Raw.response Raw.ppePrediction) (clock : Clock)
| Rejected
| Pending.

(** Where the loop of [analyzeVideo] ends: past its last frame, in the [catch]
    clause, or suspended at an [await]. *)
Inductive Progress :=
| Done (s : State)
| Failed (s : State)
| Waiting (s : State).

(** [for (let frame = 0; frame < totalFrames; frame += 10)] from [frame] on.
    The loop makes at most [totalFrames] turns, which is the fuel
    [analyzeVideo] gives it. *)
Fixpoint analyzeFrames (fuel : nat) (frame : N) (answers : N -> Fetched) (s : State)
  : Progress :=
  match fuel with
  | O => Done s
  | S fuel' =>
      if (frame <? totalFrames)%N then
        match answers frame with
        | Pending => Waiting s
        | Rejected => Failed s
        | Answered personDetections ppeDetections clock =>
            match processDetections personDetections ppeDetections frame clock (store s) with
            | Throws _ => Failed s
            | Returns st =>
                analyzeFrames fuel' (frame + 10) answers
                  (setAnalysisProgress (number frame / number totalFrames * 100)
                                       (setStore st s))
            end
        end
      else Done s
  end.

(** [analyzeVideo], with no other handler running before it ends.  [alerts] in
    its body is the array of the render the callback was made in, which has the
    length of the array at the time of the click. *)
Definition analyzeVideo (answers : N -> Fetched) (s : State) : State :=
  match videoFile s with
  | None =>
      toast (Toast.mk "Configuração incompleta" "Selecione um vídeo para análise"
                      (Some destructive)) s
  | Some _ =>
      let alerts_length := List.length (alerts (store s)) in
      let s := setAnalysisProgress 0 (setIsAnalyzing true s) in
      match analyzeFrames (S (N.to_nat totalFrames)) 0 answers s with
      | Done s' =>
          setIsAnalyzing false
            (toast (Toast.mk "Análise concluída"
                             ("Foram encontrados " ++ show (N.of_nat alerts_length)
                              ++ " alertas de segurança")%string
                             (Some (if (0 <? alerts_length)%nat then destructive else default)))
                   s')
      | Failed s' =>
          setIsAnalyzing false
            (toast (Toast.mk "Erro na análise"
                             "Verifique a configuração da API e tente novamente"
                             (Some destructive))
                   s')
      | Waiting s' => s'
      end
  end.

(** A click on the analysis button, which is rendered once a video is loaded
    and disabled while [isAnalyzing] is set.  (It is also disabled without an
    [apiToken]; the token is never empty.) *)
Definition clickAnalyze (answers : N -> Fetched) (s : State) : State :=
  match videoFile s with
  | None => s
  | Some _ => if isAnalyzing s then s else analyzeVideo answers s
  end.

(** [getStatusSummary] *)
Record StatusSummary := mkSummary {
  highAlerts : nat;
  mediumAlerts : nat;
  lowAlerts : nat;
  personDetections : nat
}.

Definition hasSeverity (v : Severity) (a : Alert.t) : bool :=
  match Alert.severity a, v with
  | high, high | medium, medium | low, low => true
  | _, _ => false
  end.

Definition getStatusSummary (s : State) : StatusSummary :=
  mkSummary (List.length (filter (hasSeverity high) (alerts (store s))))
            (List.length (filter (hasSeverity medium) (alerts (store s))))
            (List.length (filter (hasSeverity low) (alerts (store s))))
            (List.length (filter isPerson (detections (store s)))).

End Page.

(** VideoUpload.tsx.  The component is given [onVideoUpload] by its parent and
    takes [toast] from the toaster; [W] is the state the two act on. *)
Module VideoUpload.

Record State := mkState {
  dragActive : bool;
  uploadedFile : option File.t
}.

Definition initial : State := mkState false None.

Definition MAX_SIZE : N := 100 * 1024 * 1024.

(** [file.type.startsWith('video/')] *)
Definition isVideo (file : File.t) : bool := String.prefix "video/" (File.type file).

Section Props.

Context {W : Type} (onVideoUpload : File.t -> W -> W) (toast : Toast.t -> W -> W).

Definition handleFiles (files : list File.t) (s : State) (w : W) : State * W :=
  match find isVideo files with
  | None =>
      (s, toast (Toast.mk "Arquivo inválido"
                          "Por favor, selecione um arquivo de vídeo válido"
                          (Some destructive)) w)
  | Some videoFile =>
      if (MAX_SIZE <? File.size videoFile)%N then
        (s, toast (Toast.mk "Arquivo muito grande" "O vídeo deve ter no máximo 100MB"
                            (Some destructive)) w)
      else
        (mkState (dragActive s) (Some videoFile),
         toast (Toast.mk "Upload realizado"
                         (File.name videoFile ++ " foi carregado com sucesso")%string
                         None)
               (onVideoUpload videoFile w))
  end.

(** [handleDrop]: the files of [e.dataTransfer.files]. *)
Definition handleDrop (files : list File.t) (s : State) (w : W) : State * W :=
  handleFiles files (mkState false (uploadedFile s)) w.

(** [handleFileInput]: [e.target.files || []]. *)
Definition handleFileInput (files : option (list File.t)) (s : State) (w : W) : State * W :=
  handleFiles (match files with Some l => l | None => [] end) s w.

End Props.

(** [handleDrag], on the type of the event. *)
Definition handleDrag (type : string) (s : State) : State :=
  if String.eqb type "dragenter" || String.eqb type "dragover" then
    mkState true (uploadedFile s)
  else if String.eqb type "dragleave" then mkState false (uploadedFile s)
  else s.

Definition removeFile (s : State) : State := mkState (dragActive s) None.

(** The component inside the page: its props are [handleVideoUpload] and the
    toaster of the page. *)
Definition upload (files : list File.t) (s : State) (page : Page.State)
  : State * Page.State :=
  handleFiles Page.handleVideoUpload Page.toast files s page.

End VideoUpload.

(* ================================================================== *)
(** ** The dashboard: [getAlertStats] and the summary cards (AlertDashboard.tsx) *)
(* ================================================================== *)

Module Dashboard.

Import JS EPIDetector Stats.
#[local] Open Scope float_scope.

(** [getDetectionStats] *)
Record DetectionStats := mkDetectionStats {
  personDetections : nat;
  maskDetections : nat;
  glovesDetections : nat;
  gogglesDetections : nat;
  faceShieldDetections : nat;
  coverallDetections : nat
}.

Definition getDetectionStats (detections : list Detection.t) : DetectionStats :=
  mkDetectionStats (countByType "person" detections)
                   (countByType "mask" detections)
                   (countByType "gloves" detections)
                   (countByType "goggles" detections)
                   (countByType "face_Shield" detections)
                   (countByType "coverall" detections).

(** A [Record<string, number>] built by assignment: its keys in the order
    they were first assigned.  (The keys every object inherits are no labels of
    an alert and are left out.) *)
Definition Counts := list (string * nat).

Fixpoint count (m : Counts) (k : string) : option nat :=
  match m with
  | [] => None
  | (k', v) :: r => if String.eqb k k' then Some v else count r k
  end.

Fixpoint assign (m : Counts) (k : string) (v : nat) : Counts :=
  match m with
  | [] => [(k, v)]
  | (k', v') :: r => if String.eqb k k' then (k, v) :: r else (k', v') :: assign r k v
  end.

(** [acc[epi] = (acc[epi] || 0) + 1] *)
Definition bump (acc : Counts) (epi : string) : Counts :=
  assign acc epi (match count acc epi with Some n => n | None => 0 end + 1).

Record AlertStats := mkAlertStats {
  highAlerts : nat;
  mediumAlerts : nat;
  lowAlerts : nat;
  totalAlerts : nat;
  missingEPIsCount : Counts
}.

Definition getAlertStats (alerts : list Alert.t) : AlertStats :=
  mkAlertStats
    (List.length (filter (Page.hasSeverity high) alerts))
    (List.length (filter (Page.hasSeverity medium) alerts))
    (List.length (filter (Page.hasSeverity low) alerts))
    (List.length alerts)
    (fold_left (fun acc alert => fold_left bump (Alert.missingEPIs alert) acc) alerts []).

(** The text of the card "Taxa de Conformidade": the formatted share of the
    persons without an alert, or the number 0, and a percent sign. *)
Definition complianceText (alerts : list Alert.t) (detections : list Detection.t) : string :=
  let stats := getDetectionStats detections in
  let alertStats := getAlertStats alerts in
  ((if (0 <? personDetections stats)%nat then
      toFixed1 (Math_max 0 (Math_min 100
                  ((of_length (personDetections stats) - of_length (totalAlerts alertStats))
                   / of_length (personDetections stats) * 100)))
    else show 0)
   ++ "%")%string.

(** The value of a bar of the card "Distribuição de Alertas". *)
Definition share (n totalAlerts : nat) : float :=
  if (0 <? totalAlerts)%nat then of_length n / of_length totalAlerts * 100 else 0.

End Dashboard.

(* ================================================================== *)
(** ** The player (VideoPlayer.tsx) *)
(* ================================================================== *)

Module VideoPlayer.

Import JS EPIDetector.
#[local] Open Scope float_scope.

(** [Math.abs(d.frame - currentFrame) <= 2], on frame numbers, which are
    integers far below 2^53: the difference is exact. *)
Definition near (currentFrame : N) (d : Detection.t) : bool :=
  (Z.abs (Z.of_N (Detection.frame d) - Z.of_N currentFrame) <=? 2)%Z.

Definition getCurrentDetections (detections : list Detection.t) (currentFrame : N)
  : list Detection.t :=
  filter (near currentFrame) detections.

(** [colors], and [colors[type] || '#6b7280'].  A [type] that is an object is
    converted to a property key first: the source text of a function, or
    [[object Object]] for the prototype, neither of which names a property of
    [colors]. *)
Definition colors : list (string * string) :=
  [ ("person", "#3b82f6"); ("hat", "#22c55e"); ("mask", "#f59e0b");
    ("gloves", "#8b5cf6"); ("glasses", "#06b6d4"); ("boots", "#ef4444");
    ("hearing", "#f97316") ].

Definition colorOf (type : Value) : Value :=
  match type with
  | Str s =>
      match read colors s with
      | Some c => c
      | None => Str "#6b7280"
      end
  | Member _ => Str "#6b7280"
  end.

(** The video element and the [duration] state.  [skipForward] and
    [skipBackward] assign [currentTime] when the element is mounted. *)
Record Player := mkPlayer {
  mounted : bool;
  currentTime : float;
  duration : float
}.

Definition skipForward (p : Player) : Player :=
  if mounted p then
    mkPlayer true (Math_min (currentTime p + 10) (duration p)) (duration p)
  else p.

Definition skipBackward (p : Player) : Player :=
  if mounted p then
    mkPlayer true (Math_max (currentTime p - 10) 0) (duration p)
  else p.

End VideoPlayer.

(* ================================================================== *)
(** ** The camera and the button (RealtimeDetector.tsx) *)
(* ================================================================== *)

Module Camera.

Import JS RealtimeDetector.

(** A [MediaStream], named by a number. *)
Definition Stream := nat.

(** The session, the stream attached to the video element and the streams
    whose tracks have been stopped. *)
Record State := mkState {
  session : Session;
  srcObject : option Stream;
  released : list Stream
}.

(** What [getUserMedia] answers. *)
Inductive Media := Granted (stream : Stream) | Denied.

Definition setIsCameraOn (b : bool) (s : Session) : Session :=
  mkSession (isRealtime s) b (video s) (timer s) (missedFrames s) (store s).

(** [videoRef.current?.srcObject], as a condition. *)
Definition attached (c : State) : bool :=
  video (session c) && match srcObject c with Some _ => true | None => false end.

(** [startCamera], run to its end once [getUserMedia] has answered. *)
Definition startCamera (m : Media) (c : State) : State :=
  if attached c then c
  else
    match m with
    | Denied => c
    | Granted stream =>
        mkState (setIsCameraOn true (session c))
                (if video (session c) then Some stream else srcObject c)
                (released c)
    end.

Definition stopCamera (c : State) : State :=
  let s := stopRealtime (session c) in
  match srcObject c with
  | Some stream =>
      if video s then mkState (setIsCameraOn false s) None (stream :: released c)
      else mkState (setIsCameraOn false s) (srcObject c) (released c)
  | None => mkState (setIsCameraOn false s) (srcObject c) (released c)
  end.

(** The button: [disabled={!isCameraOn}],
    [onClick={isRealtime ? stopRealtime : startRealtime}]. *)
Definition click (s : Session) : Session :=
  if isCameraOn s then
    if isRealtime s then stopRealtime s else startRealtime s
  else s.

(** What happens to a mounted component: the camera answers the request made
    at mount, the button is clicked, the interval fires. *)
Inductive Event :=
| Answer (m : Media)
| Click
| Fire (x : Sample).

Definition step (c : State) (e : Event) : State :=
  match e with
  | Answer m => startCamera m c
  | Click => mkState (click (session c)) (srcObject c) (released c)
  | Fire x => mkState (tick (session c) x) (srcObject c) (released c)
  end.

Definition steps (events : list Event) (c : State) : State := fold_left step events c.

(** The component when its mount effect runs: the video element is there,
    nothing else is on. *)
Definition mountedWith (st : EPIDetector.Store) : State :=
  mkState (mkSession false false true false 0 st) None [].

(** What holds of a mounted component at all times: the video element is
    there, the interval is scheduled exactly while [isRealtime] is set and only
    with the camera on, and the camera is on only with a stream attached. *)
Definition consistent (c : State) : Prop :=
  video (session c) = true
  /\ isRealtime (session c) = timer (session c)
  /\ (timer (session c) = true -> isCameraOn (session c) = true)
  /\ (isCameraOn (session c) = true -> exists stream, srcObject c = Some stream).

End Camera.

(** Notions the properties of the page are stated with. *)
Module PageNotions.

Import JS EPIDetector History Page.

(** The frames the loop of [analyzeVideo] visits. *)
Definition analysedFrames : list N := [0; 10; 20; 30; 40; 50; 60; 70; 80; 90]%N.

(** The frames the loop visits from [frame] on, with the fuel it has. *)
Fixpoint framesFrom (fuel : nat) (frame : N) : list N :=
  match fuel with
  | O => []
  | S fuel' =>
      if (frame <? totalFrames)%N then frame :: framesFrom fuel' (frame + 10) else []
  end.

(** The body of the loop over given frames. *)
Fixpoint analyzeList (frames : list N) (answers : N -> Fetched) (s : State) : Progress :=
  match frames with
  | [] => Done s
  | frame :: rest =>
      match answers frame with
      | Pending => Waiting s
      | Rejected => Failed s
      | Answered personDetections ppeDetections clock =>
          match processDetections personDetections ppeDetections frame clock (store s) with
          | Throws _ => Failed s
          | Returns st =>
              analyzeList rest answers
                (setAnalysisProgress (number frame / number totalFrames * 100)%float
                                     (setStore st s))
          end
      end
  end.

(** The calls of [processDetections] made at the frames that were answered. *)
Definition callsAt (answers : N -> Fetched) (frames : list N) : list Call :=
  flat_map (fun frame =>
              match answers frame with
              | Answered personDetections ppeDetections clock =>
                  [mkCall personDetections ppeDetections frame clock]
              | _ => []
              end) frames.

(** Both detectors answered with an object at [frame]. *)
Definition answeredAt (answers : N -> Fetched) (frame : N) : Prop :=
  exists personBody ppeBody clock,
    answers frame = Answered (Raw.Body personBody) (Raw.Body ppeBody) clock.

(** The analysis fails at [frame]: a promise is rejected, or a response is
    [null]. *)
Definition failsAt (answers : N -> Fetched) (frame : N) : Prop :=
  answers frame = Rejected
  \/ exists personDetections ppeDetections clock,
       answers frame = Answered personDetections ppeDetections clock
       /\ (personDetections = Raw.Null \/ ppeDetections = Raw.Null).

(** The state the loop is in after the frames [done], all answered with
    objects: the calls have been replayed on the store, and the progress is the
    one of the last frame. *)
Definition after (answers : N -> Fetched) (done : list N) (s : State) (s' : State) : Prop :=
  replay (callsAt answers done) (store s) = Returns (store s')
  /\ videoFile s' = videoFile s /\ isAnalyzing s' = isAnalyzing s
  /\ currentFrame s' = currentFrame s /\ toasts s' = toasts s
  /\ analysisProgress s'
     = match rev done with
       | [] => analysisProgress s
       | frame :: _ => (number frame / number totalFrames * 100)%float
       end.

(** The toast that ends a completed analysis started with [n] alerts in the
    state. *)
Definition completionToast (n : nat) : Toast.t :=
  Toast.mk "Análise concluída"
           ("Foram encontrados " ++ show (N.of_nat n) ++ " alertas de segurança")%string
           (Some (if (0 <? n)%nat then destructive else default)).

(** The toasts of the upload area and of [handleVideoUpload]. *)
Definition invalidToast : Toast.t :=
  Toast.mk "Arquivo inválido" "Por favor, selecione um arquivo de vídeo válido"
           (Some destructive).

Definition tooLargeToast : Toast.t :=
  Toast.mk "Arquivo muito grande" "O vídeo deve ter no máximo 100MB" (Some destructive).

Definition loadedToast (file : File.t) : Toast.t :=
  Toast.mk "Vídeo carregado" (File.name file ++ " está pronto para análise")%string None.

Definition uploadedToast (file : File.t) : Toast.t :=
  Toast.mk "Upload realizado" (File.name file ++ " foi carregado com sucesso")%string None.

(** A page whose store the component can hold, whose alerts are all [high] or
    [medium], and whose video, if any, has passed the checks of the upload. *)
Definition sound (p : VideoUpload.State * State) : Prop :=
  reachable (store (snd p))
  /\ (forall file, VideoUpload.uploadedFile (fst p) = Some file ->
                   videoFile (snd p) = Some file)
  /\ (forall file, videoFile (snd p) = Some file ->
                   VideoUpload.isVideo file = true
                   /\ (File.size file <= VideoUpload.MAX_SIZE)%N).

Definition errorToast : Toast.t :=
  Toast.mk "Erro na análise" "Verifique a configuração da API e tente novamente"
           (Some destructive).

(** What happens on the page: files are dropped on the upload area, the
    uploaded file is removed from it, the analysis button is clicked. *)
Inductive Event :=
| Drop (files : list File.t)
| Remove
| Analyze (answers : N -> Fetched).

Definition step (p : VideoUpload.State * State) (e : Event) : VideoUpload.State * State :=
  match e with
  | Drop files => VideoUpload.upload files (fst p) (snd p)
  | Remove => (VideoUpload.removeFile (fst p), snd p)
  | Analyze answers => (fst p, clickAnalyze answers (snd p))
  end.

Definition steps (events : list Event) (p : VideoUpload.State * State)
  : VideoUpload.State * State :=
  fold_left step events p.

End PageNotions.

(** Sample files and answers. *)
Module PageSamples.

Import JS EPIDetector Page Samples.

Definition clip : File.t := File.mk "clip.mp4" "video/mp4" 2048.
Definition notes : File.t := File.mk "notes.txt" "text/plain" 10.
Definition film : File.t := File.mk "film.mov" "video/quicktime" 104857601.
Definition exact : File.t := File.mk "exact.webm" "video/webm" 104857600.

(** Every frame shows [onePerson] with [oneMask]. *)
Definition steady : N -> Fetched :=
  fun _ => Answered (Raw.Body onePerson) (Raw.Body oneMask) clock0.

(** The same, but the request of frame 30 is rejected; and but the one of
    frame 30 is never answered. *)
Definition brokenAt30 : N -> Fetched :=
  fun frame => if (frame =? 30)%N then Rejected else steady frame.

Definition stuckAt30 : N -> Fetched :=
  fun frame => if (frame =? 30)%N then Pending else steady frame.

(** The page once [clip] has been loaded. *)
Definition loaded : State := handleVideoUpload clip initial.

End PageSamples.

(** Notions the properties of the dashboard are stated with. *)
Module DashboardNotions.

Import EPIDetector.


(** The alerts that list the label [k]. *)
Definition missing (k : string) (alerts : list Alert.t) : list Alert.t :=
  filter (fun a => existsb (String.eqb k) (Alert.missingEPIs a)) alerts.

(** The labels an alert can carry. *)
Definition labels : list string := map epiLabel requiredEPIs.

(** The classes AlertDashboard.tsx counts that [epiMapping] never produces. *)
Definition unmapped : list string := ["goggles"; "coverall"; "face_Shield"].


(** Lengths are array lengths. *)
Definition arrayLength (n : nat) : Prop := (Z.of_nat n < 2 ^ 32)%Z.

End DashboardNotions.

(* ================================================================== *)
(** * Supporting facts *)
(* ================================================================== *)

(** ** Binary64 arithmetic: order and signs *)

Module Binary64Facts.

Import Binary64.
#[local] Open Scope Z_scope.

Lemma digits2_pos_bounds (m : positive) :
  2 ^ (Z.pos (digits2_pos m) - 1) <= Z.pos m < 2 ^ Z.pos (digits2_pos m).
Proof.
  induction m as [m IH | m IH |]; cbn [digits2_pos].
  - rewrite Pos2Z.inj_succ.
    replace (Z.succ (Z.pos (digits2_pos m)) - 1) with (Z.succ (Z.pos (digits2_pos m) - 1)) by lia.
    rewrite !Z.pow_succ_r by lia. lia.
  - rewrite Pos2Z.inj_succ.
    replace (Z.succ (Z.pos (digits2_pos m)) - 1) with (Z.succ (Z.pos (digits2_pos m) - 1)) by lia.
    rewrite !Z.pow_succ_r by lia. lia.
  - cbn. lia.
Qed.

(** What validity says of a finite binary64 value [m * 2^e]. *)
Lemma valid_finite (s : bool) (m : positive) (e : Z) :
  valid_binary (S754_finite s m e) = true ->
  -1074 <= e <= 971 /\ Z.pos m < 2 ^ 53 /\ (-1074 < e -> 2 ^ 52 <= Z.pos m).
Proof.
  unfold SpecFloat.valid_binary, bounded, canonical_mantissa, fexp, SpecFloat.emin, prec, emax.
  intros H. apply andb_true_iff in H. destruct H as [H1 H2].
  apply Z.eqb_eq in H1. apply Z.leb_le in H2.
  pose proof (digits2_pos_bounds m) as [Hlo Hhi].
  assert (Hd : Z.pos (digits2_pos m) <= 53) by lia.
  split; [lia|]. split.
  - eapply Z.lt_le_trans; [exact Hhi|]. apply Z.pow_le_mono_r; lia.
  - intros He. assert (Hd' : Z.pos (digits2_pos m) = 53) by lia.
    rewrite Hd' in Hlo. exact Hlo.
Qed.

Lemma finite_key_bounds (s : bool) (m : positive) (e : Z) :
  valid_binary (S754_finite s m e) = true ->
  0 < Z.pos m * 2 ^ (e + 1074) < 2 ^ 2098.
Proof.
  intros H. apply valid_finite in H. destruct H as (He & Hm & _).
  assert (Hp : 0 < 2 ^ (e + 1074)) by (apply Z.pow_pos_nonneg; lia).
  split; [lia|].
  assert (Hq : 2 ^ (e + 1074) <= 2 ^ 2045) by (apply Z.pow_le_mono_r; lia).
  replace (2 ^ 2098) with (2 ^ 53 * 2 ^ 2045) by (rewrite <- Z.pow_add_r by lia; reflexivity).
  apply Z.lt_le_trans with (2 ^ 53 * 2 ^ (e + 1074)).
  - apply Z.mul_lt_mono_pos_r; assumption.
  - apply Z.mul_le_mono_nonneg_l; [lia | assumption].
Qed.

Lemma mul_compare_pos_r (a b p : Z) :
  0 < p -> (a * p ?= b * p) = (a ?= b).
Proof.
  intros Hp. destruct (Z.compare_spec a b) as [H | H | H].
  - subst. apply Z.compare_refl.
  - apply Z.compare_lt_iff. nia.
  - apply Z.compare_gt_iff. nia.
Qed.

Lemma scaled_lt (a b p q : Z) :
  0 < a < 2 ^ 53 -> 2 ^ 52 <= b -> 0 < p -> 2 <= q -> a * p < b * (p * q).
Proof.
  intros [Ha0 Ha] Hb Hp Hq.
  change (2 ^ 53) with (2 ^ 52 * 2) in Ha.
  generalize dependent (2 ^ 52). intros c Ha Hb.
  assert (Hc : 0 < c) by lia.
  apply Z.lt_le_trans with (c * 2 * p).
  - apply Z.mul_lt_mono_pos_r; assumption.
  - apply Z.le_trans with (c * (p * q)).
    + rewrite <- Z.mul_assoc. apply Z.mul_le_mono_nonneg_l; [lia |].
      rewrite (Z.mul_comm 2 p). apply Z.mul_le_mono_nonneg_l; lia.
    + apply Z.mul_le_mono_nonneg_r; [| assumption].
      apply Z.mul_nonneg_nonneg; lia.
Qed.

Lemma compare_magnitude (m1 m2 : positive) (e1 e2 : Z) (s1 s2 : bool) :
  valid_binary (S754_finite s1 m1 e1) = true ->
  valid_binary (S754_finite s2 m2 e2) = true ->
  match e1 ?= e2 with
  | Lt => Lt
  | Gt => Gt
  | Eq => Pos.compare_cont Eq m1 m2
  end = (Z.pos m1 * 2 ^ (e1 + 1074) ?= Z.pos m2 * 2 ^ (e2 + 1074)).
Proof.
  intros V1 V2.
  apply valid_finite in V1. destruct V1 as (He1 & Hm1 & Hn1).
  apply valid_finite in V2. destruct V2 as (He2 & Hm2 & Hn2).
  destruct (Z.compare_spec e1 e2) as [Heq | Hlt | Hgt].
  - subst e2. change (Pos.compare_cont Eq m1 m2) with (Z.pos m1 ?= Z.pos m2).
    assert (Hp : 0 < 2 ^ (e1 + 1074)) by (apply Z.pow_pos_nonneg; lia).
    symmetry. apply mul_compare_pos_r. exact Hp.
  - symmetry. apply Z.compare_lt_iff.
    replace (e2 + 1074) with ((e1 + 1074) + (e2 - e1)) by lia.
    rewrite (Z.pow_add_r 2 (e1 + 1074) (e2 - e1)) by lia.
    assert (Hp : 0 < 2 ^ (e1 + 1074)) by (apply Z.pow_pos_nonneg; lia).
    assert (Hq : 2 ^ 1 <= 2 ^ (e2 - e1)) by (apply Z.pow_le_mono_r; lia).
    change (2 ^ 1) with 2 in Hq.
    specialize (Hn2 ltac:(lia)).
    apply (scaled_lt (Z.pos m1) (Z.pos m2)); [split; [lia | exact Hm1] | exact Hn2 | exact Hp | exact Hq].
  - symmetry. apply Z.compare_gt_iff.
    replace (e1 + 1074) with ((e2 + 1074) + (e1 - e2)) by lia.
    rewrite (Z.pow_add_r 2 (e2 + 1074) (e1 - e2)) by lia.
    assert (Hp : 0 < 2 ^ (e2 + 1074)) by (apply Z.pow_pos_nonneg; lia).
    assert (Hq : 2 ^ 1 <= 2 ^ (e1 - e2)) by (apply Z.pow_le_mono_r; lia).
    change (2 ^ 1) with 2 in Hq.
    specialize (Hn1 ltac:(lia)).
    apply (scaled_lt (Z.pos m2) (Z.pos m1)); [split; [lia | exact Hm2] | exact Hn1 | exact Hp | exact Hq].
Qed.

(** The goal compares two keys whose signs are in the context: take the signs
    apart and let [lia] order the keys. *)
Ltac order_keys :=
  repeat match goal with s : bool |- _ => destruct s end;
  cbn [cond_Zopp]; f_equal; symmetry;
  first [ reflexivity
        | apply Z.compare_lt_iff; lia
        | apply Z.compare_gt_iff; lia ].

(** The hypothesis [Hk] orders two keys whose signs are in the context: the
    goal holds by computation, or the order is impossible. *)
Ltac by_signs Hk :=
  repeat match goal with s : bool |- _ => destruct s end;
  cbn [cond_Zopp] in Hk; try reflexivity; lia.

(** On valid values that are not NaN, [SFcompare] is the order of the keys. *)
Lemma SFcompare_key (a b : spec_float) :
  valid_binary a = true -> valid_binary b = true ->
  nonnan a = true -> nonnan b = true ->
  SFcompare a b = Some (key a ?= key b).
Proof.
  intros Va Vb Na Nb.
  assert (Hbig : 0 < 2 ^ 2098) by (apply Z.pow_pos_nonneg; lia).
  destruct a as [sa | sa | | sa ma ea]; try discriminate Na;
  destruct b as [sb | sb | | sb mb eb]; try discriminate Nb;
  cbn [SFcompare key];
  try (pose proof (finite_key_bounds _ _ _ Va) as Ha);
  try (pose proof (finite_key_bounds _ _ _ Vb) as Hb).
  1-8: order_keys.
  pose proof (compare_magnitude ma mb ea eb sa sb Va Vb) as Hc.
  destruct sa, sb; cbn [cond_Zopp]; f_equal.
  - rewrite Z.compare_opp.
    rewrite (Z.compare_antisym (Z.pos ma * 2 ^ (ea + 1074)) (Z.pos mb * 2 ^ (eb + 1074))), <- Hc.
    destruct (ea ?= eb); reflexivity.
  - symmetry. apply Z.compare_lt_iff. lia.
  - symmetry. apply Z.compare_gt_iff. lia.
  - exact Hc.
Qed.

Lemma shl_align_fst (m : positive) (e ez : Z) :
  ez <= e -> Z.pos (fst (shl_align m e ez)) = Z.pos m * 2 ^ (e - ez).
Proof.
  intros H. unfold shl_align.
  destruct (ez - e) as [| d | d] eqn:Hd; try lia; cbn [fst].
  - replace (e - ez) with 0 by lia. lia.
  - change (Pos.iter xO m d) with (shift_pos d m).
    rewrite shift_pos_correct, Z.pow_pos_fold.
    replace (e - ez) with (Z.pos d) by lia. lia.
Qed.

(** A rounded negative value is never above zero. *)
Lemma round_negative_not_positive (m : Z) (e : Z) (l : location) :
  SFltb (S754_zero false) (binary_round_aux prec emax true m e l) = false.
Proof.
  unfold binary_round_aux.
  destruct (shr_fexp prec emax m e l) as [mrs e'].
  destruct (shr_fexp prec emax _ e' loc_Exact) as [mrs' e''].
  destruct (shr_m mrs') as [| p | p]; try reflexivity.
  destruct (e'' <=? emax - prec); reflexivity.
Qed.

(** Subtraction is exact in sign: a difference of ordered values is never
    above zero. *)
Lemma SFsub_not_positive (a b : spec_float) :
  valid_binary a = true -> valid_binary b = true ->
  nonnan a = true -> nonnan b = true ->
  key a <= key b ->
  SFltb (S754_zero false) (SF64sub a b) = false.
Proof.
  intros Va Vb Na Nb Hk.
  assert (Hbig : 0 < 2 ^ 2098) by (apply Z.pow_pos_nonneg; lia).
  destruct a as [sa | sa | | sa ma ea]; try discriminate Na;
  destruct b as [sb | sb | | sb mb eb]; try discriminate Nb;
  cbn [key] in Hk; unfold SF64sub; cbn [SFsub];
  try (pose proof (finite_key_bounds _ _ _ Va) as Ha);
  try (pose proof (finite_key_bounds _ _ _ Vb) as Hb).
  1-8: by_signs Hk.
  - pose proof (valid_finite _ _ _ Va) as (Hea & _).
    pose proof (valid_finite _ _ _ Vb) as (Heb & _).
    set (ez := Z.min ea eb).
    assert (Hza : ez <= ea) by (unfold ez; lia).
    assert (Hzb : ez <= eb) by (unfold ez; lia).
    rewrite (shl_align_fst ma ea ez Hza), (shl_align_fst mb eb ez Hzb).
    assert (Hp : 0 < 2 ^ (ez + 1074)) by (apply Z.pow_pos_nonneg; unfold ez; lia).
    assert (Hsa : Z.pos ma * 2 ^ (ea + 1074) = Z.pos ma * 2 ^ (ea - ez) * 2 ^ (ez + 1074)).
    { rewrite <- Z.mul_assoc, <- Z.pow_add_r by (unfold ez; lia).
      do 2 f_equal. lia. }
    assert (Hsb : Z.pos mb * 2 ^ (eb + 1074) = Z.pos mb * 2 ^ (eb - ez) * 2 ^ (ez + 1074)).
    { rewrite <- Z.mul_assoc, <- Z.pow_add_r by (unfold ez; lia).
      do 2 f_equal. lia. }
    rewrite Hsa, Hsb in Hk. clear Hsa Hsb.
    set (A := Z.pos ma * 2 ^ (ea - ez)) in *.
    set (B := Z.pos mb * 2 ^ (eb - ez)) in *.
    set (P := 2 ^ (ez + 1074)) in *.
    assert (Hd : cond_Zopp sa A - cond_Zopp sb B <= 0).
    { destruct sa, sb; cbn [cond_Zopp] in *; nia. }
    destruct (cond_Zopp sa A - cond_Zopp sb B) as [| d | d]; cbn [binary_normalize].
    + reflexivity.
    + lia.
    + unfold binary_round.
      destruct (shl_align d ez _) as [mz ez'].
      apply round_negative_not_positive.
Qed.

#[local] Open Scope float_scope.

Create HintDb binary64.

Lemma is_nan_spec (a : float) : is_nan a = negb (nonnan (Prim2SF a)).
Proof.
  unfold is_nan. rewrite eqb_spec. unfold SFeqb.
  pose proof (Prim2SF_valid a) as V.
  destruct (nonnan (Prim2SF a)) eqn:N.
  - rewrite (SFcompare_key _ _ V V N N), Z.compare_refl. reflexivity.
  - destruct (Prim2SF a); try discriminate N. reflexivity.
Qed.

Lemma not_nan (a : float) : is_nan a = false -> nonnan (Prim2SF a) = true.
Proof. rewrite is_nan_spec. destruct (nonnan (Prim2SF a)); [reflexivity | discriminate]. Qed.

#[local] Hint Resolve Prim2SF_valid not_nan : binary64.

Lemma compare_key (a b : float) :
  is_nan a = false -> is_nan b = false ->
  SFcompare (Prim2SF a) (Prim2SF b) = Some (fkey a ?= fkey b)%Z.
Proof.
  intros Ha Hb. apply SFcompare_key; auto with binary64.
Qed.

Lemma ltb_key (a b : float) :
  is_nan a = false -> is_nan b = false -> (a <? b) = (fkey a <? fkey b)%Z.
Proof.
  intros Ha Hb. rewrite ltb_spec. unfold SFltb, Z.ltb.
  rewrite (compare_key a b Ha Hb). reflexivity.
Qed.

Lemma leb_key (a b : float) :
  is_nan a = false -> is_nan b = false -> (a <=? b) = (fkey a <=? fkey b)%Z.
Proof.
  intros Ha Hb. rewrite leb_spec. unfold SFleb, Z.leb.
  rewrite (compare_key a b Ha Hb). destruct (fkey a ?= fkey b)%Z; reflexivity.
Qed.

Lemma ltb_nan_r (a b : float) : is_nan b = true -> (a <? b) = false.
Proof.
  rewrite is_nan_spec, ltb_spec. unfold SFltb.
  destruct (Prim2SF b); try discriminate. intros _.
  destruct (Prim2SF a); reflexivity.
Qed.

Lemma sub_nan (a b : float) :
  is_nan (a - b) = false -> is_nan a = false /\ is_nan b = false.
Proof.
  rewrite !is_nan_spec, sub_spec. unfold SF64sub.
  destruct (Prim2SF a), (Prim2SF b); cbn; auto; discriminate.
Qed.

Lemma sub_not_positive (a b : float) :
  is_nan a = false -> is_nan b = false -> (fkey a <= fkey b)%Z ->
  (0 <? a - b) = false.
Proof.
  intros Ha Hb Hk. rewrite ltb_spec, sub_spec.
  change (Prim2SF 0) with (S754_zero false).
  apply SFsub_not_positive; auto with binary64.
Qed.

Lemma is_zero_spec (a : float) :
  is_zero a = true -> exists s, Prim2SF a = S754_zero s.
Proof.
  unfold is_zero. rewrite eqb_spec. change (Prim2SF zero) with (S754_zero false).
  unfold SFeqb. destruct (Prim2SF a) as [s | s | | s m e]; cbn.
  - eauto.
  - destruct s; discriminate.
  - discriminate.
  - destruct s; discriminate.
Qed.

Lemma add_zero_key (a z : float) :
  is_zero z = true -> is_nan (a + z) = false ->
  is_nan a = false /\ fkey (a + z) = fkey a.
Proof.
  intros Hz. destruct (is_zero_spec z Hz) as [s Hs].
  unfold fkey. rewrite !is_nan_spec, add_spec, Hs. unfold SF64add.
  destruct (Prim2SF a) as [sa | sa | | sa m e]; cbn.
  - destruct sa, s; auto.
  - auto.
  - discriminate.
  - auto.
Qed.

Lemma mul_zero_or_nan_l (a b : float) :
  zero_or_nan (Prim2SF a) = true -> zero_or_nan (Prim2SF (a * b)) = true.
Proof.
  rewrite mul_spec. unfold SF64mul.
  destruct (Prim2SF a), (Prim2SF b); cbn; intros; try discriminate; reflexivity.
Qed.

Lemma mul_zero_or_nan_r (a b : float) :
  zero_or_nan (Prim2SF b) = true -> zero_or_nan (Prim2SF (a * b)) = true.
Proof.
  rewrite mul_spec. unfold SF64mul.
  destruct (Prim2SF a), (Prim2SF b); cbn; intros; try discriminate; reflexivity.
Qed.

Lemma div_zero_or_nan (a b : float) :
  zero_or_nan (Prim2SF a) = true -> zero_or_nan (Prim2SF b) = true ->
  is_nan (a / b) = true.
Proof.
  rewrite is_nan_spec, div_spec. unfold SF64div.
  destruct (Prim2SF a), (Prim2SF b); cbn; intros; try discriminate; reflexivity.
Qed.

End Binary64Facts.

(** ** Values and lower case *)

Module ValueFacts.

Import JS History.

Lemma strictEq_eq (a b : Value) : strictEq a b = true <-> a = b.
Proof.
  destruct a as [s | m], b as [t | n]; cbn [strictEq]; rewrite ?String.eqb_eq;
    split; intros H; try discriminate H; try (inversion H; reflexivity);
    now rewrite H.
Qed.

Lemma strictEq_neq (a b : Value) : strictEq a b = false <-> a <> b.
Proof.
  rewrite <- strictEq_eq. destruct (strictEq a b); split; intros H;
    try discriminate; try reflexivity; now elim H.
Qed.

Lemma strictEq_refl (a : Value) : strictEq a a = true.
Proof. now apply strictEq_eq. Qed.

Lemma strictEq_spec (a b : Value) : reflect (a = b) (strictEq a b).
Proof.
  destruct (strictEq a b) eqn:E; constructor.
  - now apply strictEq_eq.
  - now apply strictEq_neq.
Qed.

Lemma strictEq_sym (a b : Value) : strictEq a b = strictEq b a.
Proof.
  destruct a, b; cbn [strictEq]; try reflexivity; apply String.eqb_sym.
Qed.

(** The equation of [toLowerCase]. *)
Lemma toLowerCase_cons (c : ascii) (s : string) :
  toLowerCase (String c s)
  = match s with
    | String c2 (String c3 r) =>
        if is_kelvin c c2 c3 then String "k" (toLowerCase r)
        else String (lower_ascii c) (toLowerCase s)
    | _ => String (lower_ascii c) (toLowerCase s)
    end.
Proof. destruct s as [| c2 [| c3 r]]; reflexivity. Qed.

Lemma lower_ascii_not_upper (c : ascii) :
  ((65 <=? nat_of_ascii (lower_ascii c))%nat
   && (nat_of_ascii (lower_ascii c) <=? 90)%nat) = false.
Proof. destruct c as [[] [] [] [] [] [] [] []]; reflexivity. Qed.

(** A lower-cased string has none of the letters [A] to [Z]. *)
Lemma toLowerCase_upper : forall s, upper (toLowerCase s) = false.
Proof.
  assert (H : forall n s, (String.length s <= n)%nat -> upper (toLowerCase s) = false).
  { induction n as [| n IH]; intros s Hn.
    - destruct s; [reflexivity | cbn in Hn; lia].
    - destruct s as [| c s]; [reflexivity |].
      cbn [String.length] in Hn. rewrite toLowerCase_cons.
      assert (Hs : upper (String (lower_ascii c) (toLowerCase s)) = false).
      { cbn [upper]. rewrite lower_ascii_not_upper. apply IH. lia. }
      destruct s as [| c2 [| c3 r]]; try exact Hs.
      destruct (is_kelvin c c2 c3); [| exact Hs].
      cbn [upper]. apply IH. cbn [String.length] in Hn. lia. }
  intros s. now apply (H (String.length s)).
Qed.

(** What [o[key]] gives. *)
Lemma read_inv (o : list (string * string)) (key : string) (v : Value) :
  read o key = Some v ->
  (exists t, lookup o key = Some t /\ v = Str t)
  \/ (lookup o key = None /\ In key inherited /\ v = Member key).
Proof.
  unfold read. destruct (lookup o key) as [t |].
  - intros H. inversion H. left. eauto.
  - destruct (existsb (String.eqb key) inherited) eqn:E; [| discriminate].
    intros H. inversion H. right. split; [reflexivity |]. split; [| reflexivity].
    apply existsb_exists in E. destruct E as (k & Hk & E).
    apply String.eqb_eq in E. now subst k.
Qed.

(** The inherited members a lower-cased key can name. *)
Lemma inherited_lower (s : string) :
  In (toLowerCase s) inherited ->
  toLowerCase s = "constructor" \/ toLowerCase s = "__proto__".
Proof.
  intros H. pose proof (toLowerCase_upper s) as Hu.
  unfold inherited in H. cbn [In] in H.
  repeat (destruct H as [H | H];
          [first [ now left | now right
                 | rewrite <- H in Hu; vm_compute in Hu; discriminate Hu ] |]).
  contradiction.
Qed.

End ValueFacts.

(** ** Loops *)

Module LoopFacts.

Import JS Notions.

Lemma forEach_from_collect {A B : Type} (cb : A -> nat -> list B -> list B)
      (g : A -> nat -> list B) :
  (forall a i s, cb a i s = s ++ g a i) ->
  forall l i s, forEach_from cb l i s = s ++ collect_from g l i.
Proof.
  intros Hcb l. induction l as [| a r IH]; intros i s; cbn [forEach_from collect_from].
  - now rewrite app_nil_r.
  - rewrite IH, Hcb, app_assoc. reflexivity.
Qed.

Lemma collect_from_nil {A B : Type} (g : A -> nat -> list B) :
  (forall a i, g a i = []) -> forall l i, collect_from g l i = [].
Proof.
  intros Hg l. induction l as [| a r IH]; intros i; cbn [collect_from]; auto.
  now rewrite Hg, IH.
Qed.

Lemma collect_from_In {A B : Type} (g : A -> nat -> list B) :
  forall l i b, In b (collect_from g l i) ->
  exists k a, nth_error l k = Some a /\ In b (g a (i + k)).
Proof.
  induction l as [| a r IH]; intros i b H; cbn [collect_from] in H.
  - contradiction.
  - apply in_app_or in H. destruct H as [H | H].
    + exists 0, a. rewrite Nat.add_0_r. auto.
    + apply IH in H. destruct H as (k & a' & Hk & Hb).
      exists (S k), a'. rewrite Nat.add_succ_r. auto.
Qed.

End LoopFacts.

(** ** The locals of [processDetections] *)

Module ReconcileFacts.

Import JS EPIDetector Notions LoopFacts.

Lemma epiMapping_not_person (k : option string) (t : Value) :
  epiMapping_get k = Some t -> strictEq t "person" = false.
Proof.
  unfold epiMapping_get, read, epiMapping. cbn [lookup].
  repeat match goal with
         | |- context [if ?c then _ else _] => destruct c
         end; intros H; inversion H; reflexivity.
Qed.

Section OneCall.

Variables (frame : N) (clock : Clock).

Lemma personCallback_push person index s :
  personCallback frame clock person index s = s ++ personPush frame clock person index.
Proof.
  unfold personCallback, personPush.
  destruct (JS.lt _ _); [now rewrite app_nil_r | reflexivity].
Qed.

Lemma alertCallback_push missing person index s :
  alertCallback frame clock missing person index s
  = s ++ alertPush frame clock missing person index.
Proof.
  unfold alertCallback, alertPush.
  destruct (_ =? _)%nat; [now rewrite app_nil_r | reflexivity].
Qed.

Lemma epiCallback_fst :
  forall l i acc,
  fst (forEach_from (epiCallback frame clock) l i acc)
  = fst acc ++ collect_from (epiPush frame clock) l i.
Proof.
  induction l as [| e r IH]; intros i acc; cbn [forEach_from collect_from].
  - now rewrite app_nil_r.
  - rewrite IH. unfold epiCallback, epiPush.
    destruct (epiMapping_get _) as [t |]; [| reflexivity].
    destruct (JS.lt _ _); [reflexivity |].
    cbn [fst]. now rewrite <- app_assoc.
Qed.

Lemma persons_loop (persons : option (list Raw.Person.t)) :
  match persons with
  | Some l => forEach (personCallback frame clock) l []
  | None => []
  end
  = collect_from (personPush frame clock)
                 (match persons with Some l => l | None => [] end) 0.
Proof.
  destruct persons as [l |]; [| reflexivity]. unfold forEach.
  now rewrite (forEach_from_collect _ _ personCallback_push).
Qed.

Lemma ppe_loop (ppe : option (list Raw.Ppe.t)) (pushed : list Detection.t) :
  fst match ppe with
      | Some l => forEach (epiCallback frame clock) l (pushed, [])
      | None => (pushed, [])
      end
  = pushed ++ collect_from (epiPush frame clock)
                           (match ppe with Some l => l | None => [] end) 0.
Proof.
  destruct ppe as [l |]; [| now rewrite app_nil_r]. unfold forEach.
  now rewrite epiCallback_fst.
Qed.

(** A call on two response objects returns, and its locals are these. *)
Lemma reconcile_Body personBody ppeBody :
  exists out,
    reconcile (Raw.Body personBody) (Raw.Body ppeBody) frame clock = Returns out
    /\ newDetections out
       = collect_from (personPush frame clock) (personEntries personBody) 0
         ++ collect_from (epiPush frame clock) (ppeEntries ppeBody) 0
    /\ missingEPIs out
       = filter (fun epi : string => negb (Set_has (detectedEPIClasses out) epi)) requiredEPIs
    /\ frameAlerts out
       = collect_from (alertPush frame clock (missingEPIs out))
                      (filter isPerson (newDetections out)) 0.
Proof.
  unfold reconcile, Raw.persons_of, Raw.ppe_detections_of, Raw.predictions, bind.
  eexists. split; [reflexivity |].
  cbn [newDetections missingEPIs frameAlerts detectedEPIClasses].
  rewrite persons_loop, ppe_loop. split; [| split; [reflexivity |]].
  - unfold personEntries, ppeEntries.
    destruct (Raw.first personBody), (Raw.first ppeBody); reflexivity.
  - unfold forEach.
    now rewrite (forEach_from_collect _ _ (alertCallback_push _)).
Qed.

(** A call returns on two response objects only, with these locals. *)
Lemma reconcile_inv personData ppeData out :
  reconcile personData ppeData frame clock = Returns out ->
  exists personBody ppeBody,
    personData = Raw.Body personBody /\ ppeData = Raw.Body ppeBody
    /\ newDetections out
       = collect_from (personPush frame clock) (personEntries personBody) 0
         ++ collect_from (epiPush frame clock) (ppeEntries ppeBody) 0
    /\ frameAlerts out
       = collect_from (alertPush frame clock (missingEPIs out))
                      (filter isPerson (newDetections out)) 0.
Proof.
  intros H.
  destruct personData as [| pb]; [discriminate |].
  destruct ppeData as [| eb]; [discriminate |].
  destruct (reconcile_Body pb eb) as (out' & H' & Hnew & _ & Hal).
  rewrite H in H'. inversion H'. subst out'. eauto 6.
Qed.

Lemma processDetections_inv personData ppeData prev next :
  processDetections personData ppeData frame clock prev = Returns next ->
  exists out,
    reconcile personData ppeData frame clock = Returns out /\ next = commit out prev.
Proof.
  unfold processDetections, bind.
  destruct (reconcile personData ppeData frame clock) as [out |]; [| discriminate].
  intros H. inversion H. eauto.
Qed.

Lemma processDetections_Body personBody ppeBody prev :
  exists next,
    processDetections (Raw.Body personBody) (Raw.Body ppeBody) frame clock prev
    = Returns next.
Proof.
  destruct (reconcile_Body personBody ppeBody) as (out & Hout & _).
  exists (commit out prev). unfold processDetections, bind. now rewrite Hout.
Qed.

Lemma personPush_isPerson l :
  forall i, filter isPerson (collect_from (personPush frame clock) l i)
            = collect_from (personPush frame clock) l i.
Proof.
  induction l as [| p r IH]; intros i; cbn [collect_from]; [reflexivity |].
  rewrite filter_app, IH. f_equal.
  unfold personPush. destruct (JS.lt _ _); reflexivity.
Qed.

Lemma epiPush_not_person l :
  forall i, filter isPerson (collect_from (epiPush frame clock) l i) = [].
Proof.
  induction l as [| e r IH]; intros i; cbn [collect_from]; [reflexivity |].
  rewrite filter_app, IH, app_nil_r.
  unfold epiPush.
  destruct (epiMapping_get _) as [t |] eqn:Ht; [| reflexivity].
  destruct (JS.lt _ _); [reflexivity |].
  cbn [filter]. unfold isPerson, epiDetection. cbn [Detection.type].
  now rewrite (epiMapping_not_person _ _ Ht).
Qed.

(** The persons of the frame are the Detections the first loop pushed. *)
Lemma personsInFrame_eq personBody ppeBody out :
  reconcile (Raw.Body personBody) (Raw.Body ppeBody) frame clock = Returns out ->
  filter isPerson (newDetections out)
  = collect_from (personPush frame clock) (personEntries personBody) 0.
Proof.
  intros H. destruct (reconcile_inv _ _ _ H) as (pb & eb & E1 & E2 & Hnew & _).
  inversion E1. inversion E2. subst pb eb.
  rewrite Hnew, filter_app, personPush_isPerson, epiPush_not_person. apply app_nil_r.
Qed.

End OneCall.

End ReconcileFacts.

(** ** [filterDuplicatePersons] *)

Module DedupFacts.

Import JS EPIDetector Notions LoopFacts.

Lemma forEach_keepCallback (l : list Detection.t) :
  forall i s, forEach_from keepCallback l i s = keepInto s l.
Proof.
  induction l as [| p r IH]; intros i s; cbn [forEach_from]; [reflexivity |].
  rewrite IH. reflexivity.
Qed.

Lemma filterDuplicatePersons_eq (l : list Detection.t) :
  filterDuplicatePersons l = keepInto [] (filter isPerson l) ++ filter nonPerson l.
Proof.
  unfold filterDuplicatePersons, forEach. now rewrite forEach_keepCallback.
Qed.

Lemma keepStep_cases (filtered : list Detection.t) (p : Detection.t) :
  (existsb (fun f => duplicates f p) filtered = true /\ keepStep filtered p = filtered)
  \/ (existsb (fun f => duplicates f p) filtered = false
      /\ keepStep filtered p = filtered ++ [p]).
Proof.
  unfold keepStep, keepCallback.
  destruct (existsb _ filtered); cbn [negb]; auto.
Qed.

Lemma keepInto_app (acc l1 l2 : list Detection.t) :
  keepInto acc (l1 ++ l2) = keepInto (keepInto acc l1) l2.
Proof. apply fold_left_app. Qed.

(** The loop only appends, and only elements it was given. *)
Lemma keepInto_extends (l : list Detection.t) :
  forall acc, exists added,
    keepInto acc l = acc ++ added /\ incl added l.
Proof.
  induction l as [| p r IH]; intros acc; cbn [keepInto fold_left].
  - exists []. split; [now rewrite app_nil_r | apply incl_refl].
  - destruct (IH (keepStep acc p)) as (added & Hk & Hin).
    fold (keepInto (keepStep acc p) r). rewrite Hk.
    destruct (keepStep_cases acc p) as [[_ E] | [_ E]]; rewrite E.
    + exists added. split; [reflexivity | now apply incl_tl].
    + exists (p :: added). split; [now rewrite <- app_assoc |].
      apply incl_cons; [now left | now apply incl_tl].
Qed.

Lemma keepInto_keeps (acc l : list Detection.t) (a : Detection.t) :
  In a acc -> In a (keepInto acc l).
Proof.
  intros H. destruct (keepInto_extends l acc) as (added & E & _).
  rewrite E. apply in_or_app. now left.
Qed.

Lemma settled_nil : settled [].
Proof. reflexivity. Qed.

Lemma settled_keepInto (l : list Detection.t) :
  forall acc, settled acc -> settled (keepInto acc l).
Proof.
  induction l as [| p r IH]; intros acc Hs; cbn [keepInto fold_left]; [exact Hs |].
  apply IH. unfold settled in *.
  destruct (keepStep_cases acc p) as [[_ E] | [_ E]]; rewrite E; [exact Hs |].
  rewrite keepInto_app, Hs. exact E.
Qed.

Lemma keepInto_settled_app (acc l : list Detection.t) :
  settled acc -> keepInto [] (acc ++ l) = keepInto acc l.
Proof. intros Hs. now rewrite keepInto_app, Hs. Qed.

(** A candidate that duplicates a kept detection changes nothing. *)
Lemma keepInto_drop (acc l1 l2 : list Detection.t) (a b : Detection.t) :
  In a acc -> duplicates a b = true ->
  keepInto acc (l1 ++ b :: l2) = keepInto acc (l1 ++ l2).
Proof.
  intros Ha Hd. rewrite !keepInto_app. cbn [keepInto fold_left].
  destruct (keepStep_cases (keepInto acc l1) b) as [[_ E] | [E _]].
  - fold (keepInto acc l1). now rewrite E.
  - exfalso. assert (Hex : existsb (fun f => duplicates f b) (keepInto acc l1) = true).
    { apply existsb_exists. exists a. split; [now apply keepInto_keeps | exact Hd]. }
    congruence.
Qed.

(** A candidate that duplicates no kept detection is appended. *)
Lemma keepInto_push (acc l1 l2 : list Detection.t) (b : Detection.t) :
  (forall f, duplicates f b = false) ->
  keepInto acc (l1 ++ b :: l2) = keepInto (keepInto acc l1 ++ [b]) l2.
Proof.
  intros Hd. rewrite keepInto_app. cbn [keepInto fold_left].
  destruct (keepStep_cases (keepInto acc l1) b) as [[E _] | [_ E]].
  - apply existsb_exists in E. destruct E as (f & _ & Hf). rewrite Hd in Hf. discriminate.
  - fold (keepInto acc l1). now rewrite E.
Qed.

Lemma keepInto_persons (l : list Detection.t) :
  forall acc, Forall (fun d => isPerson d = true) acc ->
  Forall (fun d => isPerson d = true) l ->
  Forall (fun d => isPerson d = true) (keepInto acc l).
Proof.
  intros acc Ha Hl. destruct (keepInto_extends l acc) as (added & E & Hin).
  rewrite E. apply Forall_app. split; [exact Ha |].
  rewrite Forall_forall in *. auto.
Qed.

Lemma filter_all {A : Type} (f : A -> bool) (l : list A) :
  Forall (fun a => f a = true) l -> filter f l = l.
Proof.
  induction 1 as [| a r Ha _ IH]; cbn [filter]; [reflexivity |].
  now rewrite Ha, IH.
Qed.

Lemma filter_none {A : Type} (f : A -> bool) (l : list A) :
  Forall (fun a => f a = false) l -> filter f l = [].
Proof.
  induction 1 as [| a r Ha _ IH]; cbn [filter]; [reflexivity |].
  now rewrite Ha, IH.
Qed.

Lemma filter_isPerson_all (l : list Detection.t) :
  Forall (fun d => isPerson d = true) (filter isPerson l).
Proof. apply Forall_forall. intros d H. now apply filter_In in H. Qed.

Lemma filter_nonPerson_none (l : list Detection.t) :
  Forall (fun d => isPerson d = false) (filter nonPerson l).
Proof.
  apply Forall_forall. intros d H. apply filter_In in H.
  unfold nonPerson in H. destruct H as [_ H]. now destruct (isPerson d).
Qed.

Lemma kept_persons (l : list Detection.t) :
  Forall (fun d => isPerson d = true) (keepInto [] (filter isPerson l)).
Proof. apply keepInto_persons; [constructor | apply filter_isPerson_all]. Qed.

(** The persons and the other detections of the filtered list. *)
Lemma filterDuplicatePersons_persons (l : list Detection.t) :
  filter isPerson (filterDuplicatePersons l) = keepInto [] (filter isPerson l).
Proof.
  rewrite filterDuplicatePersons_eq, filter_app.
  rewrite (filter_all isPerson _ (kept_persons l)).
  rewrite (filter_none isPerson _ (filter_nonPerson_none l)).
  apply app_nil_r.
Qed.

Lemma filterDuplicatePersons_nonPersons (l : list Detection.t) :
  filter nonPerson (filterDuplicatePersons l) = filter nonPerson l.
Proof.
  rewrite filterDuplicatePersons_eq, filter_app.
  assert (H1 : filter nonPerson (keepInto [] (filter isPerson l)) = []).
  { apply filter_none. eapply Forall_impl; [| apply kept_persons].
    intros d Hd. unfold nonPerson. now rewrite Hd. }
  rewrite H1. cbn [app].
  apply filter_all. eapply Forall_impl; [| apply filter_nonPerson_none].
  intros d Hd. unfold nonPerson. now rewrite Hd.
Qed.

Lemma filterDuplicatePersons_idempotent (l : list Detection.t) :
  filterDuplicatePersons (filterDuplicatePersons l) = filterDuplicatePersons l.
Proof.
  rewrite (filterDuplicatePersons_eq (filterDuplicatePersons l)).
  rewrite filterDuplicatePersons_persons, filterDuplicatePersons_nonPersons.
  rewrite (settled_keepInto _ [] settled_nil).
  symmetry. apply filterDuplicatePersons_eq.
Qed.

(** The filter only ever leaves detections out. *)
Lemma filterDuplicatePersons_incl (l : list Detection.t) (d : Detection.t) :
  In d (filterDuplicatePersons l) -> In d l.
Proof.
  rewrite filterDuplicatePersons_eq. intros H. apply in_app_or in H.
  destruct H as [H | H].
  - destruct (keepInto_extends (filter isPerson l) []) as (added & E & Hin).
    rewrite E in H. cbn [app] in H. apply Hin in H. now apply filter_In in H.
  - now apply filter_In in H.
Qed.

(** Every store the component can hold is a fixed point of the filter. *)
Lemma reachable_fixed (st : Store) :
  reachable st -> filterDuplicatePersons (detections st) = detections st.
Proof.
  intros H. destruct H as [| prev pd ed frame clock next _ Hp].
  - reflexivity.
  - unfold processDetections, bind in Hp.
    destruct (reconcile pd ed frame clock) as [out |]; [| discriminate].
    inversion Hp. cbn [detections commit]. apply filterDuplicatePersons_idempotent.
Qed.

Lemma fixed_persons_settled (l : list Detection.t) :
  filterDuplicatePersons l = l -> settled (filter isPerson l).
Proof.
  intros H. unfold settled.
  rewrite <- filterDuplicatePersons_persons, H. reflexivity.
Qed.

Lemma fixed_split (l : list Detection.t) :
  filterDuplicatePersons l = l -> l = filter isPerson l ++ filter nonPerson l.
Proof.
  intros H. rewrite <- H at 1. rewrite filterDuplicatePersons_eq.
  now rewrite (fixed_persons_settled l H).
Qed.

(** Merging a frame into a fixed point: the stored persons, then the new
    persons that survive, then the stored and the new other detections. *)
Lemma merge_fixed (prev new : list Detection.t) :
  filterDuplicatePersons prev = prev ->
  filterDuplicatePersons (prev ++ new)
  = keepInto (filter isPerson prev) (filter isPerson new)
    ++ filter nonPerson prev ++ filter nonPerson new.
Proof.
  intros H. rewrite filterDuplicatePersons_eq, !filter_app.
  now rewrite (keepInto_settled_app _ _ (fixed_persons_settled prev H)).
Qed.

(** The new persons the loop appends are some of the candidates, in their
    order. *)
Lemma keepInto_subseq (l : list Detection.t) :
  forall acc, exists added, keepInto acc l = acc ++ added /\ subseq added l.
Proof.
  induction l as [| p r IH]; intros acc; cbn [keepInto fold_left].
  - exists []. split; [now rewrite app_nil_r | constructor].
  - destruct (IH (keepStep acc p)) as (added & Hk & Hs).
    fold (keepInto (keepStep acc p) r). rewrite Hk.
    destruct (keepStep_cases acc p) as [[_ E] | [_ E]]; rewrite E.
    + exists added. split; [reflexivity | now constructor].
    + exists (p :: added). split; [now rewrite <- app_assoc | now constructor].
Qed.

End DedupFacts.

(** ** The confidence threshold *)

Module ThresholdFacts.

Import JS EPIDetector Notions Binary64 Binary64Facts LoopFacts ReconcileFacts DedupFacts.
#[local] Open Scope float_scope.

Lemma truthy_not_nan (v : float) : truthy v = true -> is_nan v = false.
Proof.
  unfold truthy. destruct (is_nan v); [| reflexivity].
  rewrite orb_true_r. discriminate.
Qed.

(** What [v || 0] is when it is not below a positive threshold: [v] itself. *)
Lemma or_zero_not_below (v : option float) (t : float) :
  (0 <? t) = true -> JS.lt (JS.or v 0) t = false ->
  exists n, v = Some n /\ JS.or v 0 = n /\ is_nan n = false.
Proof.
  intros Ht H. unfold JS.or in *. destruct v as [n |].
  - destruct (truthy n) eqn:Tn.
    + exists n. auto using truthy_not_nan.
    + unfold JS.lt in H. congruence.
  - unfold JS.lt in H. congruence.
Qed.

Lemma not_lt_le (a b : float) :
  is_nan a = false -> is_nan b = false -> (a <? b) = false -> (b <=? a) = true.
Proof.
  intros Ha Hb H. rewrite ltb_key in H by assumption.
  rewrite leb_key by assumption.
  apply Z.leb_le. apply Z.ltb_ge in H. exact H.
Qed.

(** An entry is kept exactly when its score is a number not below 0.5. *)
Lemma kept_score (v : option float) :
  JS.lt (JS.or v 0) MIN_CONFIDENCE = false ->
  exists n, v = Some n /\ JS.or v 0 = n /\ (MIN_CONFIDENCE <=? n) = true.
Proof.
  intros H. destruct (or_zero_not_below v MIN_CONFIDENCE eq_refl H) as (n & Hv & Hn & Hnan).
  exists n. repeat split; auto.
  rewrite Hn in H. unfold JS.lt in H. now apply not_lt_le.
Qed.

Lemma below_score (n : float) :
  (n <? MIN_CONFIDENCE) = true -> JS.lt (JS.or (Some n) 0) MIN_CONFIDENCE = true.
Proof.
  intros H. unfold JS.or, JS.lt. destruct (truthy n); [exact H | reflexivity].
Qed.

(** Every new Detection of a call has passed the threshold. *)
Lemma new_detections_confident personData ppeData frame clock out :
  reconcile personData ppeData frame clock = Returns out ->
  forall d, In d (newDetections out) ->
            (MIN_CONFIDENCE <=? Detection.confidence d) = true.
Proof.
  intros Hout d Hd.
  destruct (reconcile_inv _ _ _ _ _ Hout) as (pb & eb & _ & _ & Hnew & _).
  rewrite Hnew in Hd. apply in_app_or in Hd. destruct Hd as [Hd | Hd];
    apply collect_from_In in Hd; destruct Hd as (k & a & _ & Hd).
  - unfold personPush in Hd. destruct (JS.lt _ _) eqn:E; [contradiction |].
    destruct Hd as [<- | []]. cbn [personDetection Detection.confidence].
    destruct (kept_score _ E) as (n & _ & -> & Hn). exact Hn.
  - unfold epiPush in Hd. destruct (epiMapping_get _); [| contradiction].
    destruct (JS.lt _ _) eqn:E; [contradiction |].
    destruct Hd as [<- | []]. cbn [epiDetection Detection.confidence].
    destruct (kept_score _ E) as (n & _ & -> & Hn). exact Hn.
Qed.

(** So has every Detection of a store the component can hold. *)
Lemma reachable_confident (st : Store) :
  reachable st ->
  forall d, In d (detections st) -> (MIN_CONFIDENCE <=? Detection.confidence d) = true.
Proof.
  induction 1 as [| prev pd ed frame clock next _ IH Hp]; intros d Hd.
  - contradiction.
  - destruct (processDetections_inv _ _ _ _ _ _ Hp) as (out & Hout & ->).
    cbn [commit detections] in Hd. apply filterDuplicatePersons_incl in Hd.
    apply in_app_or in Hd. destruct Hd as [Hd | Hd]; [now apply IH |].
    now apply (new_detections_confident _ _ _ _ _ Hout).
Qed.

End ThresholdFacts.

(** ** Alerts *)

Module AlertFacts.

Import JS EPIDetector Notions LoopFacts ReconcileFacts.

Lemma show_inj (n m : N) : show n = show m -> n = m.
Proof.
  unfold show. intros H.
  assert (Hn : forall k, N.to_uint k <> Decimal.Nil).
  { intros [| p]; [discriminate | apply DecimalPos.Unsigned.to_uint_nonnil]. }
  pose proof (NilZero.usu _ (Hn n)) as E1.
  pose proof (NilZero.usu _ (Hn m)) as E2.
  rewrite H, E2 in E1. inversion E1 as [E].
  symmetry. now apply DecimalN.Unsigned.to_uint_inj.
Qed.

Lemma append_inj_l (s a b : string) : (s ++ a = s ++ b)%string -> a = b.
Proof.
  induction s as [| c s IH]; cbn [String.append]; intros H; [exact H |].
  inversion H. auto.
Qed.

Lemma person_id_inj frame clock clock' (p q : Raw.Person.t) (i j : nat) :
  Detection.id (personDetection frame clock p i)
  = Detection.id (personDetection frame clock' q j) -> i = j.
Proof.
  cbn [personDetection Detection.id]. intros H.
  apply (append_inj_l "person_") in H.
  apply append_inj_l in H. apply (append_inj_l "_") in H.
  apply show_inj in H. now apply Nat2N.inj.
Qed.

Lemma personPush_from frame clock (l : list Raw.Person.t) :
  forall i d, In d (collect_from (personPush frame clock) l i) ->
  exists k p, i <= k /\ d = personDetection frame clock p k.
Proof.
  intros i d H. apply collect_from_In in H. destruct H as (k & p & _ & H).
  unfold personPush in H. destruct (JS.lt _ _); [contradiction |].
  destruct H as [<- | []]. exists (i + k), p. split; [lia | reflexivity].
Qed.

(** The persons of one frame have distinct ids. *)
Lemma person_ids_NoDup frame clock (l : list Raw.Person.t) :
  forall i, NoDup (map Detection.id (collect_from (personPush frame clock) l i)).
Proof.
  induction l as [| p r IH]; intros i; cbn [collect_from]; [constructor |].
  unfold personPush at 1. destruct (JS.lt _ _); cbn [app map]; [apply IH |].
  constructor; [| apply IH].
  intros H. apply in_map_iff in H. destruct H as (d & Hid & Hd).
  apply personPush_from in Hd. destruct Hd as (k & q & Hk & ->).
  apply person_id_inj in Hid. lia.
Qed.

Lemma alertPush_ids frame clock (missing : list string) (persons : list Detection.t) :
  missing <> [] ->
  forall i, map Alert.personId (collect_from (alertPush frame clock missing) persons i)
            = map Detection.id persons.
Proof.
  intros Hm. induction persons as [| p r IH]; intros i; cbn [collect_from map]; [reflexivity |].
  unfold alertPush at 1. destruct missing as [| m ms]; [congruence |].
  cbn [List.length Nat.eqb app map alertOf Alert.personId]. now rewrite IH.
Qed.

Lemma alertPush_In frame clock (missing : list string) (persons : list Detection.t) :
  forall i a, In a (collect_from (alertPush frame clock missing) persons i) ->
  missing <> [] /\ exists p k, a = alertOf frame clock missing p k.
Proof.
  intros i a H. apply collect_from_In in H. destruct H as (k & p & _ & H).
  unfold alertPush in H. destruct missing as [| m ms]; [contradiction |].
  cbn [List.length Nat.eqb] in H. destruct H as [<- | []].
  split; [discriminate | eauto].
Qed.

(** The alerts of a call name the persons of its frame, one each and in their
    order. *)
Lemma frame_alert_ids personData ppeData frame clock out :
  reconcile personData ppeData frame clock = Returns out ->
  missingEPIs out <> [] ->
  map Alert.personId (frameAlerts out)
  = map Detection.id (filter isPerson (newDetections out)).
Proof.
  intros Hout Hm.
  destruct (reconcile_inv _ _ _ _ _ Hout) as (pb & eb & _ & _ & _ & Hal).
  rewrite Hal. now apply alertPush_ids.
Qed.

End AlertFacts.

(** ** The live session *)

Module SessionFacts.

Import JS EPIDetector RealtimeDetector Notions ReconcileFacts.

Lemma startRealtime_analysing (s : Session) :
  isRealtime s = false -> isCameraOn s = true -> video s = true ->
  analysing (startRealtime s) /\ missedFrames (startRealtime s) = 0.
Proof.
  unfold startRealtime, analysing. intros Hr Hc Hv. rewrite Hv, Hr. cbn. auto.
Qed.

Lemma tick_miss (s : Session) (x : Sample) :
  analysing s -> miss x ->
  (S (missedFrames s) < MAX_MISSED_FRAMES ->
   analysing (tick s x) /\ missedFrames (tick s x) = S (missedFrames s))
  /\ (MAX_MISSED_FRAMES <= S (missedFrames s) -> stopped (tick s x)).
Proof.
  intros (Hr & Ht & Hv & Hc) Hm. unfold tick, cycle. rewrite Ht, Hv. cbn [negb].
  unfold miss in Hm. rewrite Hm. cbn [List.length Nat.eqb].
  cbn [store].
  destruct (processDetections_Body (stamp x) (readings x) (personBody x) (ppeBody x) (store s))
    as (next & ->).
  cbn [isRealtime isCameraOn video timer].
  split; intros H.
  - apply Nat.leb_gt in H. rewrite H. unfold analysing. cbn. auto.
  - apply Nat.leb_le in H. rewrite H. unfold stopped, stopRealtime. cbn. auto.
Qed.

Lemma tick_hit (s : Session) (x : Sample) :
  analysing s -> hit x -> analysing (tick s x) /\ missedFrames (tick s x) = 0.
Proof.
  intros (Hr & Ht & Hv & Hc) (p & l & Hh). unfold tick, cycle. rewrite Ht, Hv. cbn [negb].
  rewrite Hh. cbn [List.length Nat.eqb store].
  destruct (processDetections_Body (stamp x) (readings x) (personBody x) (ppeBody x) (store s))
    as (next & ->).
  cbn. unfold analysing. cbn. auto.
Qed.

Lemma tick_stopped (s : Session) (x : Sample) : stopped s -> tick s x = s.
Proof. intros (_ & Ht & _). unfold tick. now rewrite Ht. Qed.

Lemma run_stopped (l : list Sample) : forall s, stopped s -> run l s = s.
Proof.
  induction l as [| x r IH]; intros s Hs; cbn [run fold_left]; [reflexivity |].
  rewrite (tick_stopped s x Hs). now apply IH.
Qed.

(** Misses in a row stop the loop once the counter reaches the maximum. *)
Lemma run_misses (l : list Sample) :
  forall s, analysing s -> Forall miss l ->
  (missedFrames s + List.length l < MAX_MISSED_FRAMES ->
   analysing (run l s) /\ missedFrames (run l s) = missedFrames s + List.length l)
  /\ (MAX_MISSED_FRAMES <= missedFrames s + List.length l -> l <> [] -> stopped (run l s)).
Proof.
  induction l as [| x r IH]; intros s Hs Hall; cbn [run fold_left List.length].
  - split; [intros _; split; [exact Hs | lia] | intros _ H; congruence].
  - inversion Hall as [| x' r' Hx Hr]; subst.
    destruct (tick_miss s x Hs Hx) as [Hlt Hge].
    destruct (Nat.lt_ge_cases (S (missedFrames s)) MAX_MISSED_FRAMES) as [H | H].
    + destruct (Hlt H) as [Ha Hm]. destruct (IH (tick s x) Ha Hr) as [IH1 IH2].
      fold (run r (tick s x)). rewrite Hm in IH1, IH2. split.
      * intros Hn. destruct IH1 as [IHa IHm]; [lia |]. split; [exact IHa | lia].
      * intros Hn _. destruct r as [| y r'].
        { cbn [List.length] in Hn. lia. }
        apply IH2; [cbn [List.length] in *; lia | discriminate].
    + pose proof (Hge H) as Hst. fold (run r (tick s x)).
      rewrite (run_stopped r _ Hst). split; [intros Hn; lia | intros _ _; exact Hst].
Qed.

(** The cycle on replies that are two objects is the cycle on their bodies. *)
Lemma tickOn_bodies (s : Session) (r : Replies) personBody ppeBody :
  personReply r = Raw.Body personBody -> ppeReply r = Raw.Body ppeBody ->
  tickOn s r = tick s (mkSample personBody ppeBody (replyStamp r) (replyReadings r)).
Proof.
  intros Hp He. unfold tickOn, tick.
  cbn [RealtimeDetector.personBody RealtimeDetector.ppeBody stamp readings].
  now rewrite Hp, He.
Qed.

Lemma missed_body (r : Replies) :
  missed r -> exists personBody, personReply r = Raw.Body personBody.
Proof.
  unfold missed. destruct (personReply r) as [| pb]; [discriminate | eauto].
Qed.

Lemma tickOn_miss (s : Session) (r : Replies) :
  analysing s -> missed r -> answered r ->
  (S (missedFrames s) < MAX_MISSED_FRAMES ->
   analysing (tickOn s r) /\ missedFrames (tickOn s r) = S (missedFrames s))
  /\ (MAX_MISSED_FRAMES <= S (missedFrames s) -> stopped (tickOn s r)).
Proof.
  intros Hs Hm (eb & He). destruct (missed_body r Hm) as (pb & Hp).
  rewrite (tickOn_bodies s r pb eb Hp He). apply tick_miss; [exact Hs |].
  unfold miss, missed in *. cbn [personBody]. now rewrite <- Hp.
Qed.

(** A miss whose call of [processDetections] throws: the counter has been
    updated, nothing else is. *)
Lemma tickOn_thrown (s : Session) (r : Replies) :
  analysing s -> missed r -> ppeReply r = Raw.Null ->
  analysing (tickOn s r) /\ missedFrames (tickOn s r) = S (missedFrames s)
  /\ store (tickOn s r) = store s.
Proof.
  intros (Hr & Ht & Hv & Hc) Hm He. destruct (missed_body r Hm) as (pb & Hp).
  unfold tickOn, cycle. rewrite Ht, Hv. cbn [negb].
  unfold missed in Hm. rewrite Hm, He, Hp. cbn [List.length Nat.eqb].
  cbn. unfold analysing. cbn. auto.
Qed.

Lemma tickOn_found (s : Session) (r : Replies) :
  analysing s -> found r -> analysing (tickOn s r) /\ missedFrames (tickOn s r) = 0.
Proof.
  intros (Hr & Ht & Hv & Hc) (p & l & Hh). unfold tickOn, cycle. rewrite Ht, Hv.
  cbn [negb]. rewrite Hh. cbn [List.length Nat.eqb store].
  destruct (processDetections _ _ _ _ _) as [next | e]; cbn; unfold analysing; cbn; auto.
Qed.

Lemma tickOn_stopped (s : Session) (r : Replies) : stopped s -> tickOn s r = s.
Proof. intros (_ & Ht & _). unfold tickOn. now rewrite Ht. Qed.

Lemma runOn_stopped (l : list Replies) : forall s, stopped s -> runOn l s = s.
Proof.
  induction l as [| x r IH]; intros s Hs; cbn [runOn fold_left]; [reflexivity |].
  rewrite (tickOn_stopped s x Hs). now apply IH.
Qed.

(** Misses in a row whose calls return stop the loop once the counter reaches
    the maximum. *)
Lemma runOn_misses (l : list Replies) :
  forall s, analysing s -> Forall missed l -> Forall answered l ->
  (missedFrames s + List.length l < MAX_MISSED_FRAMES ->
   analysing (runOn l s) /\ missedFrames (runOn l s) = missedFrames s + List.length l)
  /\ (MAX_MISSED_FRAMES <= missedFrames s + List.length l -> l <> [] -> stopped (runOn l s)).
Proof.
  induction l as [| x r IH]; intros s Hs Hall Hans; cbn [runOn fold_left List.length].
  - split; [intros _; split; [exact Hs | lia] | intros _ H; congruence].
  - inversion Hall as [| x' r' Hx Hr]; subst.
    inversion Hans as [| x' r' Ax Ar]; subst.
    destruct (tickOn_miss s x Hs Hx Ax) as [Hlt Hge].
    destruct (Nat.lt_ge_cases (S (missedFrames s)) MAX_MISSED_FRAMES) as [H | H].
    + destruct (Hlt H) as [Ha Hm]. destruct (IH (tickOn s x) Ha Hr Ar) as [IH1 IH2].
      fold (runOn r (tickOn s x)). rewrite Hm in IH1, IH2. split.
      * intros Hn. destruct IH1 as [IHa IHm]; [lia |]. split; [exact IHa | lia].
      * intros Hn _. destruct r as [| y r'].
        { cbn [List.length] in Hn. lia. }
        apply IH2; [cbn [List.length] in *; lia | discriminate].
    + pose proof (Hge H) as Hst. fold (runOn r (tickOn s x)).
      rewrite (runOn_stopped r _ Hst). split; [intros Hn; lia | intros _ _; exact Hst].
Qed.

(** Misses in a row whose calls throw never stop it. *)
Lemma runOn_thrown (l : list Replies) :
  forall s, analysing s -> Forall missed l -> Forall (fun r => ppeReply r = Raw.Null) l ->
  analysing (runOn l s) /\ missedFrames (runOn l s) = missedFrames s + List.length l
  /\ store (runOn l s) = store s.
Proof.
  induction l as [| x r IH]; intros s Hs Hall Hnull; cbn [runOn fold_left List.length].
  - split; [exact Hs |]. split; [lia | reflexivity].
  - inversion Hall as [| x' r' Hx Hr]; subst.
    inversion Hnull as [| x' r' Nx Nr]; subst.
    destruct (tickOn_thrown s x Hs Hx Nx) as (Ha & Hm & Hst).
    fold (runOn r (tickOn s x)).
    destruct (IH (tickOn s x) Ha Hr Nr) as (IHa & IHm & IHs).
    split; [exact IHa |]. split; [lia | congruence].
Qed.

End SessionFacts.

(** ** The overlap ratio of a rectangle with a zero side *)

Module OverlapFacts.

Import JS EPIDetector Binary64 Binary64Facts.
#[local] Open Scope float_scope.

Lemma Math_min_le_r (a b : float) :
  is_nan (Math_min a b) = false ->
  is_nan a = false /\ is_nan b = false /\ (fkey (Math_min a b) <= fkey b)%Z.
Proof.
  unfold Math_min.
  destruct (is_nan a) eqn:Ha; [discriminate |].
  destruct (is_nan b) eqn:Hb; [discriminate |]. cbn [orb]. intros _.
  split; [reflexivity |]. split; [reflexivity |].
  destruct (is_neg_zero b && is_pos_zero a); [lia |].
  destruct (b <? a) eqn:E; [lia |].
  rewrite ltb_key in E by assumption. apply Z.ltb_ge in E. exact E.
Qed.

Lemma Math_max_ge_r (a b : float) :
  is_nan (Math_max a b) = false ->
  is_nan a = false /\ is_nan b = false /\ (fkey b <= fkey (Math_max a b))%Z.
Proof.
  unfold Math_max.
  destruct (is_nan a) eqn:Ha; [discriminate |].
  destruct (is_nan b) eqn:Hb; [discriminate |]. cbn [orb]. intros _.
  split; [reflexivity |]. split; [reflexivity |].
  destruct (is_pos_zero b && is_neg_zero a); [lia |].
  destruct (a <? b) eqn:E; [lia |].
  rewrite ltb_key in E by assumption. apply Z.ltb_ge in E. exact E.
Qed.

(** [Math.max(0, d)] for a [d] that is not above zero. *)
Lemma Math_max_zero (d : float) :
  is_nan d = true \/ (0 <? d) = false ->
  zero_or_nan (Prim2SF (Math_max 0 d)) = true.
Proof.
  unfold Math_max. change (is_nan 0) with false. change (is_neg_zero 0) with false.
  cbn [orb]. rewrite andb_false_r.
  destruct (is_nan d) eqn:Hd; [reflexivity |].
  intros [H | H]; [discriminate |]. rewrite H. reflexivity.
Qed.

(** The overlap along an axis on which the candidate has no extent. *)
Lemma overlap_zero_extent (f0 fe p0 pe : float) :
  is_zero pe = true ->
  zero_or_nan
    (Prim2SF (Math_max 0 (Math_min (f0 + fe) (p0 + pe) - Math_max f0 p0))) = true.
Proof.
  intros Hz. apply Math_max_zero.
  destruct (is_nan (Math_min (f0 + fe) (p0 + pe) - Math_max f0 p0)) eqn:Hd; [now left | right].
  destruct (sub_nan _ _ Hd) as [H1 H2].
  destruct (Math_min_le_r _ _ H1) as (_ & Hs & Hle1).
  destruct (add_zero_key _ _ Hz Hs) as [Hp Hk].
  destruct (Math_max_ge_r _ _ H2) as (_ & _ & Hle2).
  apply sub_not_positive; [assumption | assumption | lia].
Qed.

Lemma is_zero_zero_or_nan (a : float) :
  is_zero a = true -> zero_or_nan (Prim2SF a) = true.
Proof. intros H. destruct (is_zero_spec a H) as [s ->]. reflexivity. Qed.

(** The ratio of a candidate with a zero side is NaN against every rectangle. *)
Lemma iou_zero_side (f p : Detection.t) :
  is_zero (Detection.w p) = true \/ is_zero (Detection.h p) = true ->
  is_nan (iou f p) = true.
Proof.
  intros H. unfold iou. apply div_zero_or_nan.
  - destruct H as [H | H].
    + apply mul_zero_or_nan_l. unfold xOverlap. now apply overlap_zero_extent.
    + apply mul_zero_or_nan_r. unfold yOverlap. now apply overlap_zero_extent.
  - destruct H as [H | H].
    + apply mul_zero_or_nan_l. now apply is_zero_zero_or_nan.
    + apply mul_zero_or_nan_r. now apply is_zero_zero_or_nan.
Qed.

Lemma zero_side_not_duplicate (f p : Detection.t) :
  is_zero (Detection.w p) = true \/ is_zero (Detection.h p) = true ->
  duplicates f p = false.
Proof.
  intros H. unfold duplicates, JS.gt. apply ltb_nan_r. now apply iou_zero_side.
Qed.

End OverlapFacts.

(** ** What a call pushes, and what every stored record looks like *)

Module StoreFacts.

Import JS EPIDetector Notions History ValueFacts LoopFacts ReconcileFacts DedupFacts.

Lemma lookup_In (m : list (string * string)) (k v : string) :
  lookup m k = Some v -> In (k, v) m.
Proof.
  induction m as [| [k' v'] r IH]; cbn [lookup]; [discriminate |].
  destruct (String.eqb_spec k k') as [-> | _].
  - intros H. inversion H. now left.
  - intros H. right. auto.
Qed.

Lemma lookup_None (m : list (string * string)) (k : string) :
  ~ In k (map fst m) -> lookup m k = None.
Proof.
  induction m as [| [k' v'] r IH]; cbn [lookup map fst In]; [reflexivity |].
  intros H. destruct (String.eqb_spec k k') as [-> | _]; [tauto |].
  apply IH. tauto.
Qed.

Lemma Set_has_add (s : Set_) (k t : Value) :
  Set_has (Set_add s k) t = Set_has s t || strictEq t k.
Proof.
  unfold Set_add. destruct (Set_has s k) eqn:Hk.
  - destruct (strictEq_spec t k) as [-> | _].
    + now rewrite Hk.
    + now rewrite orb_false_r.
  - unfold Set_has. rewrite existsb_app. cbn [existsb]. now rewrite orb_false_r.
Qed.

Section OneCall.

Variables (frame : N) (clock : Clock).

(** The origin of a pushed Detection. *)
Lemma personPush_In (l : list Raw.Person.t) (i : nat) (d : Detection.t) :
  In d (collect_from (personPush frame clock) l i) ->
  exists p k, d = personDetection frame clock p k
              /\ JS.lt (JS.or (Raw.Person.score p) 0) MIN_CONFIDENCE = false.
Proof.
  intros H. apply collect_from_In in H. destruct H as (k & p & _ & H).
  unfold personPush in H. destruct (JS.lt _ _) eqn:E; [contradiction |].
  destruct H as [<- | []]. eauto.
Qed.

Lemma epiPush_In (l : list Raw.Ppe.t) (i : nat) (d : Detection.t) :
  In d (collect_from (epiPush frame clock) l i) ->
  exists e k t,
    let className := option_map toLowerCase (Raw.Ppe.class_name e) in
    d = epiDetection frame clock e k className t
    /\ epiMapping_get className = Some t
    /\ JS.lt (JS.or (Raw.Ppe.score e) 0) MIN_CONFIDENCE = false.
Proof.
  intros H. apply collect_from_In in H. destruct H as (k & e & _ & H).
  unfold epiPush in H. destruct (epiMapping_get _) as [t |] eqn:Ht; [| contradiction].
  destruct (JS.lt _ _) eqn:E; [contradiction |].
  destruct H as [<- | []]. exists e, (i + k), t. cbn zeta. auto.
Qed.

Lemma newDetections_In personData ppeData out (d : Detection.t) :
  reconcile personData ppeData frame clock = Returns out ->
  In d (newDetections out) ->
  (exists p k, d = personDetection frame clock p k
               /\ JS.lt (JS.or (Raw.Person.score p) 0) MIN_CONFIDENCE = false)
  \/ (exists e k t,
        let className := option_map toLowerCase (Raw.Ppe.class_name e) in
        d = epiDetection frame clock e k className t
        /\ epiMapping_get className = Some t
        /\ JS.lt (JS.or (Raw.Ppe.score e) 0) MIN_CONFIDENCE = false).
Proof.
  intros Hout Hd.
  destruct (reconcile_inv _ _ _ _ _ Hout) as (pb & eb & _ & _ & Hnew & _).
  rewrite Hnew in Hd. apply in_app_or in Hd. destruct Hd as [Hd | Hd].
  - left. eapply personPush_In. exact Hd.
  - right. eapply epiPush_In. exact Hd.
Qed.

(** The classes the second loop has added to [detectedEPIClasses]. *)
Lemma epiCallback_snd (l : list Raw.Ppe.t) :
  forall i acc t,
    Set_has (snd (forEach_from (epiCallback frame clock) l i acc)) t
    = Set_has (snd acc) t
      || existsb (fun d => strictEq t (Detection.type d))
                 (collect_from (epiPush frame clock) l i).
Proof.
  induction l as [| e r IH]; intros i acc t; cbn [forEach_from collect_from].
  - cbn [existsb]. now rewrite orb_false_r.
  - rewrite IH, existsb_app.
    set (rest := existsb _ (collect_from _ r (S i))).
    unfold epiCallback, epiPush.
    destruct (epiMapping_get _) as [m |]; [| reflexivity].
    destruct (JS.lt _ _); [reflexivity |].
    cbn [snd existsb epiDetection Detection.type].
    rewrite Set_has_add, orb_false_r. now rewrite orb_assoc.
Qed.

Lemma reconcile_classes personBody ppeBody out :
  reconcile (Raw.Body personBody) (Raw.Body ppeBody) frame clock = Returns out ->
  forall t,
    Set_has (detectedEPIClasses out) t
    = existsb (fun d => strictEq t (Detection.type d))
              (collect_from (epiPush frame clock) (ppeEntries ppeBody) 0).
Proof.
  unfold reconcile, Raw.persons_of, Raw.ppe_detections_of, Raw.predictions, bind.
  intros H. inversion H. subst out. clear H. intros t.
  cbn [detectedEPIClasses]. unfold ppeEntries.
  destruct (Raw.first ppeBody) as [e |]; [| reflexivity].
  destruct (Raw.ppe_detections e) as [l |]; [| reflexivity].
  unfold forEach. rewrite epiCallback_snd. reflexivity.
Qed.

End OneCall.

(** A property every new Detection has is a property of every stored one. *)
Lemma reachable_detections (P : Detection.t -> Prop) :
  (forall personData ppeData frame clock out d,
      reconcile personData ppeData frame clock = Returns out ->
      In d (newDetections out) -> P d) ->
  forall st, reachable st -> forall d, In d (detections st) -> P d.
Proof.
  intros HP st Hst. induction Hst as [| prev pd ed frame clock next _ IH Hp]; intros d Hd.
  - contradiction.
  - destruct (processDetections_inv _ _ _ _ _ _ Hp) as (out & Hout & ->).
    cbn [commit detections] in Hd. apply filterDuplicatePersons_incl in Hd.
    apply in_app_or in Hd. destruct Hd as [Hd | Hd]; [now apply IH |].
    exact (HP _ _ _ _ _ _ Hout Hd).
Qed.

(** Likewise for the alerts, which are only ever appended. *)
Lemma reachable_alerts (P : Alert.t -> Prop) :
  (forall personData ppeData frame clock out a,
      reconcile personData ppeData frame clock = Returns out ->
      In a (frameAlerts out) -> P a) ->
  forall st, reachable st -> forall a, In a (alerts st) -> P a.
Proof.
  intros HP st Hst. induction Hst as [| prev pd ed frame clock next _ IH Hp]; intros a Ha.
  - contradiction.
  - destruct (processDetections_inv _ _ _ _ _ _ Hp) as (out & Hout & ->).
    cbn [commit alerts] in Ha.
    apply in_app_or in Ha. destruct Ha as [Ha | Ha]; [now apply IH |].
    exact (HP _ _ _ _ _ _ Hout Ha).
Qed.

(** What [epiMapping[className]] gives: one of the six strings of the
    literal, or the inherited member the key names. *)
Lemma epiMapping_types (k : option string) (t : Value) :
  epiMapping_get k = Some t ->
  (In t detectionTypes
   \/ exists name, k = Some name /\ In name inherited /\ t = Member name)
  /\ exists l, k = Some l.
Proof.
  unfold epiMapping_get. intros H.
  assert (Hk : exists l, k = Some l).
  { destruct k as [l |]; [eauto | discriminate H]. }
  split; [| exact Hk]. destruct Hk as [l ->].
  destruct (read_inv _ _ _ H) as [(v & Hv & ->) | (_ & Hin & ->)].
  - left. apply lookup_In in Hv. unfold epiMapping, detectionTypes in *. cbn [In] in *.
    repeat (destruct Hv as [Hv | Hv]; [inversion Hv; tauto |]). contradiction.
  - right. eauto.
Qed.

(** After [toLowerCase] the key names two inherited members only. *)
Lemma epiMapping_lower (label : option string) (t : Value) :
  epiMapping_get (option_map toLowerCase label) = Some t ->
  In t detectionTypes
  \/ (In t inheritedTypes
      /\ exists name, option_map toLowerCase label = Some name /\ t = Member name).
Proof.
  intros H. destruct (epiMapping_types _ _ H) as [[Ht | (name & Hk & Hin & ->)] _].
  - now left.
  - right. split; [| eauto]. destruct label as [l |]; [| discriminate Hk].
    cbn [option_map] in Hk. injection Hk as E. subst name.
    destruct (inherited_lower l Hin) as [E' | E']; rewrite E'.
    + now left.
    + right. now left.
Qed.

(** The type of a stored Detection is one of [Detection['type']], or one of
    the two inherited members. *)
Lemma stored_type (st : Store) :
  reachable st -> forall d, In d (detections st) ->
  In (Detection.type d) detectionTypes \/ In (Detection.type d) inheritedTypes.
Proof.
  apply reachable_detections. intros pd ed frame clock out d Hout Hd.
  destruct (newDetections_In _ _ _ _ _ _ Hout Hd)
    as [(p & k & -> & _) | (e & k & t & -> & Ht & _)].
  - left. now left.
  - cbn [epiDetection Detection.type].
    destruct (epiMapping_lower _ _ Ht) as [H | [H _]]; auto.
Qed.

End StoreFacts.

(** ** The persons the filter keeps *)

Module KeptFacts.

Import JS EPIDetector Notions History LoopFacts DedupFacts.

Lemma noOverlap_snoc (l : list Detection.t) (p : Detection.t) :
  noOverlap l -> (forall a, In a l -> duplicates a p = false) -> noOverlap (l ++ [p]).
Proof.
  unfold noOverlap. intros Hl Hp. induction Hl as [| a l Ha Hl IH]; cbn [app].
  - constructor; constructor.
  - constructor.
    + apply Forall_app. split; [exact Ha |]. constructor; [| constructor].
      apply Hp. now left.
    + apply IH. intros b Hb. apply Hp. now right.
Qed.

Lemma keepInto_noOverlap (l : list Detection.t) :
  forall acc, noOverlap acc -> noOverlap (keepInto acc l).
Proof.
  induction l as [| p r IH]; intros acc Hacc; cbn [keepInto fold_left]; [exact Hacc |].
  apply IH. destruct (keepStep_cases acc p) as [[_ E] | [Hn E]]; rewrite E; [exact Hacc |].
  apply noOverlap_snoc; [exact Hacc |]. intros a Ha.
  destruct (duplicates a p) eqn:Hd; [| reflexivity].
  assert (Hex : existsb (fun f => duplicates f p) acc = true)
    by (apply existsb_exists; eauto).
  congruence.
Qed.

(** A candidate is kept, or some kept detection is the reason it was not. *)
Lemma keepInto_complete (l : list Detection.t) :
  forall acc p, In p l ->
    In p (keepInto acc l)
    \/ exists a, In a (keepInto acc l) /\ duplicates a p = true.
Proof.
  induction l as [| q r IH]; intros acc p Hp; [contradiction |].
  cbn [keepInto fold_left]. fold (keepInto (keepStep acc q) r).
  destruct Hp as [-> | Hp]; [| now apply IH].
  destruct (keepStep_cases acc p) as [[Hn E] | [_ E]]; rewrite E.
  - right. apply existsb_exists in Hn. destruct Hn as (a & Ha & Hd).
    exists a. split; [now apply keepInto_keeps | exact Hd].
  - left. apply keepInto_keeps. apply in_or_app. right. now left.
Qed.

Lemma subseq_length {A : Type} (l1 l2 : list A) :
  subseq l1 l2 -> List.length l1 <= List.length l2.
Proof. induction 1; cbn [List.length]; lia. Qed.

Lemma subseq_In {A : Type} (l1 l2 : list A) (a : A) :
  subseq l1 l2 -> In a l1 -> In a l2.
Proof.
  induction 1 as [| b l1 l2 _ IH | b l1 l2 _ IH]; cbn [In]; [tauto | tauto |].
  intros [-> | H]; auto.
Qed.

Lemma subseq_NoDup_map {A B : Type} (f : A -> B) (l1 l2 : list A) :
  subseq l1 l2 -> NoDup (map f l2) -> NoDup (map f l1).
Proof.
  induction 1 as [| b l1 l2 Hs IH | b l1 l2 Hs IH]; cbn [map]; intros Hn.
  - constructor.
  - inversion Hn. auto.
  - inversion Hn as [| x r Hx Hr]. subst. constructor; [| auto].
    intros Hin. apply Hx. apply in_map_iff in Hin. destruct Hin as (a & E & Ha).
    apply in_map_iff. exists a. split; [exact E |]. eapply subseq_In; eauto.
Qed.

Lemma subseq_filter {A : Type} (f : A -> bool) (l : list A) : subseq (filter f l) l.
Proof.
  induction l as [| a r IH]; cbn [filter]; [constructor |].
  destruct (f a); now constructor.
Qed.

(** The persons the filter keeps are some of the persons it was given, in their
    order. *)
Lemma kept_subseq (l : list Detection.t) :
  subseq (keepInto [] (filter isPerson l)) (filter isPerson l).
Proof.
  destruct (keepInto_subseq (filter isPerson l) []) as (added & E & Hs).
  rewrite E. exact Hs.
Qed.

Lemma filter_length_split (l : list Detection.t) :
  List.length (filter isPerson l) + List.length (filter nonPerson l) = List.length l.
Proof.
  induction l as [| a r IH]; cbn [filter List.length]; [reflexivity |].
  unfold nonPerson at 1. destruct (isPerson a); cbn [negb List.length]; lia.
Qed.

End KeptFacts.

(** ** Record ids *)

Module IdFacts.

Import JS EPIDetector Notions History LoopFacts ReconcileFacts DedupFacts AlertFacts.
Import StoreFacts KeptFacts.

Lemma digits_no_underscore (d : Decimal.uint) :
  has "_" (NilEmpty.string_of_uint d) = false.
Proof. induction d; cbn; auto. Qed.

Lemma show_no_underscore (n : N) : has "_" (show n) = false.
Proof.
  unfold show, NilZero.string_of_uint.
  destruct (N.to_uint n) eqn:E; try reflexivity; rewrite <- E; apply digits_no_underscore.
Qed.

(** Two strings cut at their first underscore. *)
Lemma cut_at_underscore (s1 s2 t1 t2 : string) :
  has "_" s1 = false -> has "_" s2 = false ->
  (s1 ++ "_" ++ t1 = s2 ++ "_" ++ t2)%string -> s1 = s2 /\ t1 = t2.
Proof.
  revert s2. induction s1 as [| c s1 IH]; intros [| c2 s2];
    cbn [has String.append]; intros H1 H2 E.
  - inversion E. auto.
  - inversion E. subst c2. rewrite Ascii.eqb_refl in H2. discriminate.
  - inversion E. subst c. rewrite Ascii.eqb_refl in H1. discriminate.
  - inversion E. subst c2. apply orb_false_iff in H1, H2.
    destruct (IH s2 (proj2 H1) (proj2 H2)) as [-> ->]; auto.
Qed.

Lemma recordId_inj (tag : string) (f f' : N) (i i' : nat) :
  recordId tag f i = recordId tag f' i' -> f = f' /\ i = i'.
Proof.
  unfold recordId. intros H. apply append_inj_l in H.
  apply cut_at_underscore in H; try apply show_no_underscore.
  destruct H as [Hf Hi]. apply show_inj in Hf, Hi. split; [exact Hf | now apply Nat2N.inj].
Qed.

(** Records a loop pushes under one tag and one frame, one at most for an
    index, have distinct ids. *)
Lemma collect_from_ids {A B : Type} (g : A -> nat -> list B) (id : B -> string)
      (tag : string) (frame : N) :
  (forall a j b, In b (g a j) -> g a j = [b] /\ id b = recordId tag frame j) ->
  forall l i,
    NoDup (map id (collect_from g l i))
    /\ forall b, In b (collect_from g l i) -> exists k, i <= k /\ id b = recordId tag frame k.
Proof.
  intros Hg. induction l as [| a r IH]; intros i; cbn [collect_from].
  - split; [constructor | contradiction].
  - destruct (IH (S i)) as [IHn IHk].
    assert (Hrest : forall b, In b (collect_from g r (S i)) ->
                              exists k, i <= k /\ id b = recordId tag frame k).
    { intros b Hb. destruct (IHk b Hb) as (k & Hk & E). exists k. split; [lia | exact E]. }
    destruct (g a i) as [| b0 rest] eqn:E.
    + split; [exact IHn | exact Hrest].
    + destruct (Hg a i b0) as [E1 E2]; [rewrite E; now left |].
      rewrite E in E1. inversion E1. subst rest. cbn [app map]. split.
      * constructor; [| exact IHn]. intros Hin. apply in_map_iff in Hin.
        destruct Hin as (b & Eb & Hb). destruct (IHk b Hb) as (k & Hk & Ek).
        rewrite E2, Ek in Eb. apply recordId_inj in Eb. lia.
      * intros b [<- | Hb]; [exists i; split; [lia | exact E2] | now apply Hrest].
Qed.

Section OneCall.

Variables (frame : N) (clock : Clock).

Lemma personPush_id a j b :
  In b (personPush frame clock a j) ->
  personPush frame clock a j = [b] /\ Detection.id b = recordId "person_" frame j.
Proof.
  unfold personPush. destruct (JS.lt _ _); [contradiction |].
  intros [<- | []]. split; reflexivity.
Qed.

Lemma epiPush_id a j b :
  In b (epiPush frame clock a j) ->
  epiPush frame clock a j = [b] /\ Detection.id b = recordId "epi_" frame j.
Proof.
  unfold epiPush. destruct (epiMapping_get _); [| contradiction].
  destruct (JS.lt _ _); [contradiction |].
  intros [<- | []]. split; reflexivity.
Qed.

Lemma alertPush_id missing a j b :
  In b (alertPush frame clock missing a j) ->
  alertPush frame clock missing a j = [b] /\ Alert.id b = recordId "alert_" frame j.
Proof.
  unfold alertPush. destruct (_ =? _)%nat; [contradiction |].
  intros [<- | []]. split; reflexivity.
Qed.

End OneCall.

Lemma tagged_id_inj (used used' : list N) (d d' : Detection.t) :
  tagged used d -> tagged used' d' -> Detection.id d = Detection.id d' ->
  Detection.frame d = Detection.frame d' /\ isPerson d = isPerson d'.
Proof.
  intros (_ & k & E) (_ & k' & E') H. rewrite E, E' in H.
  destruct (isPerson d), (isPerson d'); try discriminate H;
    apply recordId_inj in H; tauto.
Qed.

Lemma newDetections_tagged personData ppeData frame clock out :
  reconcile personData ppeData frame clock = Returns out ->
  NoDup (map Detection.id (newDetections out))
  /\ Forall (tagged [frame]) (newDetections out).
Proof.
  intros Hout.
  destruct (reconcile_inv _ _ _ _ _ Hout) as (pb & eb & _ & _ & Hnew & _).
  destruct (collect_from_ids _ Detection.id _ _ (personPush_id frame clock)
                             (personEntries pb) 0) as [Np Kp].
  destruct (collect_from_ids _ Detection.id _ _ (epiPush_id frame clock)
                             (ppeEntries eb) 0) as [Ne Ke].
  assert (Tp : forall d, In d (collect_from (personPush frame clock) (personEntries pb) 0) ->
                         tagged [frame] d /\ isPerson d = true).
  { intros d Hd. destruct (Kp d Hd) as (k & _ & E).
    apply personPush_In in Hd. destruct Hd as (p & j & -> & _).
    split; [| reflexivity]. split; [now left |]. exists k. exact E. }
  assert (Te : forall d, In d (collect_from (epiPush frame clock) (ppeEntries eb) 0) ->
                         tagged [frame] d /\ isPerson d = false).
  { intros d Hd. destruct (Ke d Hd) as (k & _ & E).
    apply epiPush_In in Hd. destruct Hd as (e & j & t & -> & Ht & _).
    assert (Hnp : isPerson (epiDetection frame clock e j
                              (option_map toLowerCase (Raw.Ppe.class_name e)) t) = false).
    { unfold isPerson. cbn [epiDetection Detection.type].
      exact (epiMapping_not_person _ _ Ht). }
    split; [| exact Hnp]. split; [now left |]. exists k. rewrite Hnp. exact E. }
  rewrite Hnew. split.
  - rewrite map_app. apply NoDup_app; [exact Np | exact Ne |].
    intros s Hs Hs'. apply in_map_iff in Hs, Hs'.
    destruct Hs as (d & <- & Hd). destruct Hs' as (d' & E & Hd').
    destruct (Tp d Hd) as [T1 P1]. destruct (Te d' Hd') as [T2 P2].
    destruct (tagged_id_inj _ _ _ _ T2 T1 E) as [_ HP]. congruence.
  - apply Forall_app. split; apply Forall_forall; intros d Hd;
      [apply (Tp d Hd) | apply (Te d Hd)].
Qed.

Lemma frameAlerts_tagged personData ppeData frame clock out :
  reconcile personData ppeData frame clock = Returns out ->
  NoDup (map Alert.id (frameAlerts out))
  /\ Forall (taggedAlert [frame]) (frameAlerts out).
Proof.
  intros Hout.
  destruct (reconcile_inv _ _ _ _ _ Hout) as (pb & eb & _ & _ & _ & Hal).
  destruct (collect_from_ids _ Alert.id _ _ (alertPush_id frame clock (missingEPIs out))
                             (filter isPerson (newDetections out)) 0) as [Na Ka].
  rewrite Hal. split; [exact Na |]. apply Forall_forall. intros a Ha.
  destruct (Ka a Ha) as (k & _ & E).
  apply alertPush_In in Ha. destruct Ha as (_ & p & j & ->).
  split; [now left |]. exists k. exact E.
Qed.

Lemma tagged_incl (used used' : list N) (d : Detection.t) :
  incl used used' -> tagged used d -> tagged used' d.
Proof. intros H (Hf & Hk). split; [now apply H | exact Hk]. Qed.

Lemma taggedAlert_incl (used used' : list N) (a : Alert.t) :
  incl used used' -> taggedAlert used a -> taggedAlert used' a.
Proof. intros H (Hf & Hk). split; [now apply H | exact Hk]. Qed.

(** The filter keeps ids distinct. *)
Lemma filterDuplicatePersons_NoDup (l : list Detection.t) :
  NoDup (map Detection.id l) -> NoDup (map Detection.id (filterDuplicatePersons l)).
Proof.
  intros Hn. rewrite filterDuplicatePersons_eq, map_app. apply NoDup_app.
  - apply (subseq_NoDup_map _ _ (filter isPerson l)); [apply kept_subseq |].
    apply (subseq_NoDup_map _ _ l); [apply subseq_filter | exact Hn].
  - apply (subseq_NoDup_map _ _ l); [apply subseq_filter | exact Hn].
  - intros s Hs Hs'. apply in_map_iff in Hs, Hs'.
    destruct Hs as (a & <- & Ha). destruct Hs' as (b & E & Hb).
    apply (subseq_In _ _ _ (kept_subseq l)) in Ha.
    apply filter_In in Ha, Hb. destruct Ha as [Ha Pa], Hb as [Hb Pb].
    assert (Hab : a = b).
    { clear Pa Pb. induction l as [| c r IH]; [contradiction |].
      cbn [map] in Hn. inversion Hn as [| x y Hx Hy]. subst.
      destruct Ha as [-> | Ha], Hb as [-> | Hb]; auto.
      - exfalso. apply Hx. rewrite <- E. now apply in_map.
      - exfalso. apply Hx. rewrite E. now apply in_map. }
    subst b. unfold nonPerson in Pb. rewrite Pa in Pb. discriminate.
Qed.

Lemma call_wellTagged (used : list N) (c : Call) (st next : Store) :
  wellTagged used st -> ~ In (frame c) used ->
  call c st = Returns next -> wellTagged (frame c :: used) next.
Proof.
  intros (Nd & Td & Na & Ta) Hf H. unfold call in H.
  destruct (processDetections_inv _ _ _ _ _ _ H) as (out & Hout & ->).
  destruct (newDetections_tagged _ _ _ _ _ Hout) as [Nn Tn].
  destruct (frameAlerts_tagged _ _ _ _ _ Hout) as [Nf Tf].
  assert (I1 : incl used (frame c :: used)) by (apply incl_tl, incl_refl).
  assert (I2 : incl [frame c] (frame c :: used)) by (intros x [<- | []]; now left).
  assert (Tall : Forall (tagged (frame c :: used)) (detections st ++ newDetections out)).
  { apply Forall_app. split; eapply Forall_impl; try eassumption; intros d;
      [apply tagged_incl, I1 | apply tagged_incl, I2]. }
  unfold wellTagged. cbn [commit detections alerts]. split; [| split; [| split]].
  - apply filterDuplicatePersons_NoDup. rewrite map_app.
    apply NoDup_app; [exact Nd | exact Nn |].
    intros s Hs Hs'. apply in_map_iff in Hs, Hs'.
    destruct Hs as (d & <- & Hd). destruct Hs' as (d' & E & Hd').
    rewrite Forall_forall in Td, Tn.
    destruct (tagged_id_inj _ _ _ _ (Tn d' Hd') (Td d Hd) E) as [Hfr _].
    destruct (Td d Hd) as [Hu _]. destruct (Tn d' Hd') as [[Hc | []] _].
    apply Hf. congruence.
  - rewrite Forall_forall in *. intros d Hd.
    apply Tall. now apply filterDuplicatePersons_incl.
  - rewrite map_app. apply NoDup_app; [exact Na | exact Nf |].
    intros s Hs Hs'. apply in_map_iff in Hs, Hs'.
    destruct Hs as (a & <- & Ha). destruct Hs' as (a' & E & Ha').
    rewrite Forall_forall in Ta, Tf.
    destruct (Ta a Ha) as (Hu & k & Ek). destruct (Tf a' Ha') as ([Hc | []] & k' & Ek').
    rewrite Ek, Ek' in E. apply recordId_inj in E. apply Hf. destruct E as [E _]. congruence.
  - apply Forall_app. split; eapply Forall_impl; try eassumption; intros a;
      [apply taggedAlert_incl, I1 | apply taggedAlert_incl, I2].
Qed.

Lemma replay_wellTagged (calls : list Call) :
  forall used st next,
    wellTagged used st ->
    NoDup (map frame calls) -> (forall f, In f (map frame calls) -> ~ In f used) ->
    replay calls st = Returns next ->
    wellTagged (rev (map frame calls) ++ used) next.
Proof.
  induction calls as [| c r IH]; intros used st next Hw Hn Hu H; cbn [replay] in H.
  - inversion H. subst. exact Hw.
  - unfold bind in H. destruct (call c st) as [st' |] eqn:Hc; [| discriminate].
    cbn [map] in Hn, Hu. inversion Hn as [| x y Hx Hy]. subst.
    cbn [map rev]. rewrite <- app_assoc. cbn [app].
    apply (IH (frame c :: used) st' next).
    + apply (call_wellTagged used c st st' Hw); [apply Hu; now left | exact Hc].
    + exact Hy.
    + intros f Hf [<- | Hin]; [contradiction |]. apply (Hu f); [now right | exact Hin].
    + exact H.
Qed.

End IdFacts.

(** ** Comparisons that hold *)

Module OrderFacts.

Import JS Binary64 Binary64Facts.
#[local] Open Scope float_scope.

Lemma leb_true (a b : float) :
  (a <=? b) = true -> is_nan a = false /\ is_nan b = false /\ (fkey a <= fkey b)%Z.
Proof.
  intros H.
  assert (Hn : is_nan a = false /\ is_nan b = false).
  { rewrite leb_spec in H. rewrite !is_nan_spec. unfold SFleb in H.
    destruct (Prim2SF a), (Prim2SF b); cbn in *; auto; discriminate. }
  destruct Hn as [Ha Hb]. rewrite (leb_key a b Ha Hb) in H.
  apply Z.leb_le in H. auto.
Qed.

Lemma ltb_true (a b : float) :
  (a <? b) = true -> is_nan a = false /\ is_nan b = false /\ (fkey a < fkey b)%Z.
Proof.
  intros H.
  assert (Hn : is_nan a = false /\ is_nan b = false).
  { rewrite ltb_spec in H. rewrite !is_nan_spec. unfold SFltb in H.
    destruct (Prim2SF a), (Prim2SF b); cbn in *; auto; discriminate. }
  destruct Hn as [Ha Hb]. rewrite (ltb_key a b Ha Hb) in H.
  apply Z.ltb_lt in H. auto.
Qed.

(** A number above zero is truthy. *)
Lemma positive_truthy (v : float) : (0 < fkey v)%Z -> is_nan v = false -> truthy v = true.
Proof.
  intros Hk Hn. unfold truthy. rewrite Hn, orb_false_r.
  destruct (is_zero v) eqn:Hz; [| reflexivity].
  destruct (is_zero_spec v Hz) as [s Hs]. unfold fkey in Hk. rewrite Hs in Hk.
  cbn [key] in Hk. lia.
Qed.

Lemma lt_not_le (a b : float) : (a <? b) = true -> (b <=? a) = true -> False.
Proof.
  intros H1 H2. destruct (ltb_true _ _ H1) as (_ & _ & K1).
  destruct (leb_true _ _ H2) as (_ & _ & K2). lia.
Qed.

(** A score of at least 0.5 is not below the threshold. *)
Lemma score_kept (s : float) :
  (0.5 <=? s) = true -> JS.lt (JS.or (Some s) 0) EPIDetector.MIN_CONFIDENCE = false.
Proof.
  intros H. destruct (leb_true _ _ H) as (_ & Hn & Hk).
  assert (Ht : truthy s = true).
  { apply positive_truthy; [| exact Hn].
    assert (H0 : (0 < fkey 0.5)%Z) by (vm_compute; reflexivity).
    revert H0 Hk. generalize (fkey 0.5) (fkey s). intros; lia. }
  unfold JS.or, JS.lt, EPIDetector.MIN_CONFIDENCE. rewrite Ht.
  rewrite ltb_key by (assumption || reflexivity). apply Z.ltb_ge. exact Hk.
Qed.

End OrderFacts.

(** ** The two thresholds, and the session as a whole *)

Module LiveFacts.

Import JS EPIDetector RealtimeDetector Notions History.
Import Binary64 Binary64Facts OrderFacts LoopFacts ReconcileFacts SessionFacts.
#[local] Open Scope float_scope.

Lemma keys_of_thresholds : (0 < fkey 0.5 /\ fkey 0.5 < fkey 0.6)%Z.
Proof. split; vm_compute; reflexivity. Qed.

(** A score that the live loop accepts is one the reconciler accepts. *)
Lemma qualifies_kept (p : Raw.Person.t) :
  qualifies p = true ->
  JS.lt (JS.or (Raw.Person.score p) 0) MIN_CONFIDENCE = false.
Proof.
  unfold qualifies, JS.ge, JS.lt, MIN_CONFIDENCE. intros H.
  destruct (leb_true _ _ H) as (Ha & Hb & Hk).
  rewrite ltb_key by assumption. apply Z.ltb_ge.
  destruct keys_of_thresholds as [_ Hlt].
  revert Hk Hlt. generalize (fkey 0.5) (fkey 0.6) (fkey (JS.or (Raw.Person.score p) 0)).
  intros; lia.
Qed.

(** A score from 0.5 up to, not including, 0.6. *)
Lemma between_thresholds (p : Raw.Person.t) (s : float) :
  Raw.Person.score p = Some s -> (0.5 <=? s) = true -> (s <? 0.6) = true ->
  qualifies p = false
  /\ JS.lt (JS.or (Raw.Person.score p) 0) MIN_CONFIDENCE = false.
Proof.
  intros Hs Hlo Hhi.
  destruct (leb_true _ _ Hlo) as (_ & Hn & Hk1).
  destruct (ltb_true _ _ Hhi) as (_ & _ & Hk2).
  destruct keys_of_thresholds as [H0 _].
  assert (Ht : truthy s = true).
  { apply positive_truthy; [| exact Hn].
    revert H0 Hk1. generalize (fkey 0.5) (fkey s). intros; lia. }
  unfold qualifies, JS.ge, JS.lt, JS.or, MIN_CONFIDENCE. rewrite Hs, Ht. split.
  - rewrite leb_key by (assumption || reflexivity). apply Z.leb_gt. exact Hk2.
  - rewrite ltb_key by (assumption || reflexivity). apply Z.ltb_ge. exact Hk1.
Qed.

Lemma collect_from_intro {A B : Type} (g : A -> nat -> list B) :
  forall l i k a b, nth_error l k = Some a -> In b (g a (i + k)%nat) -> In b (collect_from g l i).
Proof.
  induction l as [| a' r IH]; intros i k a b Hk Hb; [now destruct k |].
  cbn [collect_from]. apply in_or_app. destruct k as [| k]; cbn [nth_error] in Hk.
  - left. inversion Hk. subst. now rewrite Nat.add_0_r in Hb.
  - right. apply (IH (S i) k a); [exact Hk |]. now rewrite Nat.add_succ_r in Hb.
Qed.

(** A sample that resets the counter brings a person Detection. *)
Lemma hit_pushes (x : Sample) (frame : N) (clock : Clock) :
  hit x -> collect_from (personPush frame clock) (personEntries (personBody x)) 0 <> [].
Proof.
  intros (p & l & H).
  unfold filteredPersons, Raw.persons_of, Raw.predictions, bind in H.
  inversion H as [E]. clear H.
  assert (Hp : In p (filter qualifies (personEntries (personBody x)))).
  { unfold personEntries. destruct (Raw.first (personBody x)) as [e |]; [| discriminate E].
    destruct (Raw.persons e) as [ps |]; [| discriminate E]. rewrite E. now left. }
  apply filter_In in Hp. destruct Hp as [Hin Hq].
  apply In_nth_error in Hin. destruct Hin as (k & Hk).
  intros Hnil.
  assert (Hd : In (personDetection frame clock p k)
                  (collect_from (personPush frame clock) (personEntries (personBody x)) 0)).
  { apply (collect_from_intro _ _ 0 k p); [exact Hk |].
    unfold personPush. rewrite (qualifies_kept p Hq). now left. }
  rewrite Hnil in Hd. contradiction.
Qed.

(** What any firing of the interval leaves of the session. *)
Lemma tick_store (s : Session) (x : Sample) :
  video (tick s x) = video s
  /\ isCameraOn (tick s x) = isCameraOn s
  /\ (store (tick s x) = store s
      \/ processDetections (Raw.Body (personBody x)) (Raw.Body (ppeBody x))
                           (stamp x) (readings x) (store s)
         = Returns (store (tick s x))).
Proof.
  unfold tick. destruct (timer s); [| auto]. unfold cycle.
  destruct (video s) eqn:Hv; cbn [negb]; [| auto].
  destruct (filteredPersons _) as [filtered | e]; [| auto].
  cbn [store].
  destruct (processDetections _ _ _ _ (store s)) as [st | e] eqn:Hp; [| cbn; auto].
  destruct (MAX_MISSED_FRAMES <=? _)%nat; cbn; auto.
Qed.

Lemma run_video (l : list Sample) :
  forall s, video (run l s) = video s /\ isCameraOn (run l s) = isCameraOn s.
Proof.
  induction l as [| x r IH]; intros s; cbn [run fold_left]; [auto |].
  fold (run r (tick s x)). destruct (IH (tick s x)) as [-> ->].
  destruct (tick_store s x) as (-> & -> & _). auto.
Qed.

Lemma run_reachable (l : list Sample) :
  forall s, reachable (store s) ->
    reachable (store (run l s))
    /\ exists added, alerts (store (run l s)) = alerts (store s) ++ added.
Proof.
  induction l as [| x r IH]; intros s Hs; cbn [run fold_left].
  - split; [exact Hs |]. exists []. now rewrite app_nil_r.
  - fold (run r (tick s x)).
    destruct (tick_store s x) as (_ & _ & [E | E]).
    + rewrite <- E in Hs. destruct (IH (tick s x) Hs) as [Hr (added & Ha)].
      split; [exact Hr |]. exists added. now rewrite Ha, E.
    + assert (Hr : reachable (store (tick s x))) by (eapply reachable_step; eauto).
      destruct (IH (tick s x) Hr) as [Hr' (added & Ha)].
      split; [exact Hr' |].
      destruct (processDetections_inv _ _ _ _ _ _ E) as (out & _ & Hc).
      exists (frameAlerts out ++ added). rewrite Ha, Hc. cbn [commit alerts].
      now rewrite app_assoc.
Qed.

End LiveFacts.

(** ** What the two loops keep *)

Module RetainFacts.

Import JS EPIDetector Notions History LoopFacts ReconcileFacts DedupFacts ThresholdFacts.
Import StoreFacts KeptFacts IdFacts OrderFacts LiveFacts.
#[local] Open Scope float_scope.

Lemma tags_differ (f f' : N) (i i' : nat) :
  recordId "person_" f i <> recordId "epi_" f' i'.
Proof. unfold recordId. cbn [String.append]. discriminate. Qed.

Section OneCall.

Variables (frame : N) (clock : Clock).

(** An entry whose score is at least 0.5 pushes its Detection. *)
Lemma person_kept_pushed (l : list Raw.Person.t) (index : nat) (person : Raw.Person.t)
      (s : float) :
  nth_error l index = Some person ->
  Raw.Person.score person = Some s -> (0.5 <=? s) = true ->
  In (personDetection frame clock person index)
     (collect_from (personPush frame clock) l 0).
Proof.
  intros Hn Hs Hle. apply (collect_from_intro _ l 0 index person); [exact Hn |].
  cbn [Nat.add]. unfold personPush. rewrite Hs, (score_kept s Hle). now left.
Qed.

(** The Detection pushed under the id of an entry is the one of that entry,
    whose score is then at least 0.5. *)
Lemma person_pushed_at (l : list Raw.Person.t) (index : nat) (person : Raw.Person.t)
      (d : Detection.t) :
  nth_error l index = Some person ->
  In d (collect_from (personPush frame clock) l 0) ->
  Detection.id d = recordId "person_" frame index ->
  d = personDetection frame clock person index
  /\ exists s, Raw.Person.score person = Some s /\ (0.5 <=? s) = true.
Proof.
  intros Hn Hd Hid. apply collect_from_In in Hd. destruct Hd as (k & a & Hk & Hd).
  cbn [Nat.add] in Hd. destruct (personPush_id frame clock a k d Hd) as [_ E].
  rewrite E in Hid. apply recordId_inj in Hid. destruct Hid as [_ ->].
  rewrite Hn in Hk. inversion Hk. subst a.
  unfold personPush in Hd. destruct (JS.lt _ _) eqn:El; [contradiction |].
  destruct Hd as [<- | []]. split; [reflexivity |].
  destruct (kept_score _ El) as (n & Hv & _ & Hle). eauto.
Qed.

Lemma epi_kept_pushed (l : list Raw.Ppe.t) (index : nat) (epi : Raw.Ppe.t)
      (t : Value) (s : float) :
  nth_error l index = Some epi ->
  epiMapping_get (option_map toLowerCase (Raw.Ppe.class_name epi)) = Some t ->
  Raw.Ppe.score epi = Some s -> (0.5 <=? s) = true ->
  In (epiDetection frame clock epi index
                   (option_map toLowerCase (Raw.Ppe.class_name epi)) t)
     (collect_from (epiPush frame clock) l 0).
Proof.
  intros Hn Ht Hs Hle. apply (collect_from_intro _ l 0 index epi); [exact Hn |].
  cbn [Nat.add]. unfold epiPush. rewrite Ht, Hs, (score_kept s Hle). now left.
Qed.

Lemma epi_pushed_at (l : list Raw.Ppe.t) (index : nat) (epi : Raw.Ppe.t)
      (d : Detection.t) :
  nth_error l index = Some epi ->
  In d (collect_from (epiPush frame clock) l 0) ->
  Detection.id d = recordId "epi_" frame index ->
  exists t s,
    epiMapping_get (option_map toLowerCase (Raw.Ppe.class_name epi)) = Some t
    /\ d = epiDetection frame clock epi index
                        (option_map toLowerCase (Raw.Ppe.class_name epi)) t
    /\ Raw.Ppe.score epi = Some s /\ (0.5 <=? s) = true.
Proof.
  intros Hn Hd Hid. apply collect_from_In in Hd. destruct Hd as (k & a & Hk & Hd).
  cbn [Nat.add] in Hd. destruct (epiPush_id frame clock a k d Hd) as [_ E].
  rewrite E in Hid. apply recordId_inj in Hid. destruct Hid as [_ ->].
  rewrite Hn in Hk. inversion Hk. subst a.
  unfold epiPush in Hd. destruct (epiMapping_get _) as [t |] eqn:Ht; [| contradiction].
  destruct (JS.lt _ _) eqn:El; [contradiction |].
  destruct Hd as [<- | []].
  destruct (kept_score _ El) as (n & Hv & _ & Hle). exists t, n. auto.
Qed.

(** No Detection of the first loop carries an id of the second, and none of
    the second an id of the first. *)
Lemma person_id_not_epi (l : list Raw.Person.t) (i index : nat) (d : Detection.t) :
  In d (collect_from (personPush frame clock) l i) ->
  Detection.id d <> recordId "epi_" frame index.
Proof.
  intros Hd Hid. apply collect_from_In in Hd. destruct Hd as (k & a & _ & Hd).
  destruct (personPush_id frame clock a _ d Hd) as [_ E].
  rewrite E in Hid. exact (tags_differ _ _ _ _ Hid).
Qed.

Lemma epi_id_not_person (l : list Raw.Ppe.t) (i index : nat) (d : Detection.t) :
  In d (collect_from (epiPush frame clock) l i) ->
  Detection.id d <> recordId "person_" frame index.
Proof.
  intros Hd Hid. apply collect_from_In in Hd. destruct Hd as (k & a & _ & Hd).
  destruct (epiPush_id frame clock a _ d Hd) as [_ E].
  rewrite E in Hid. symmetry in Hid. exact (tags_differ _ _ _ _ Hid).
Qed.

End OneCall.

(** What the filter does with a Detection it is given. *)
Lemma kept_or_duplicate (l : list Detection.t) (p : Detection.t) :
  In p l -> isPerson p = true ->
  In p (filterDuplicatePersons l)
  \/ exists a, In a (filterDuplicatePersons l)
               /\ isPerson a = true /\ duplicates a p = true.
Proof.
  intros Hp Pp.
  assert (Hin : In p (filter isPerson l)) by (apply filter_In; auto).
  rewrite filterDuplicatePersons_eq.
  destruct (keepInto_complete (filter isPerson l) [] p Hin) as [H | (a & Ha & Hd)].
  - left. apply in_or_app. now left.
  - right. exists a. split; [apply in_or_app; now left |]. split; [| exact Hd].
    pose proof (kept_persons l) as Hk. rewrite Forall_forall in Hk. now apply Hk.
Qed.

Lemma other_kept (l : list Detection.t) (d : Detection.t) :
  In d l -> isPerson d = false -> In d (filterDuplicatePersons l).
Proof.
  intros Hd Hn.
  assert (H : In d (filter nonPerson (filterDuplicatePersons l))).
  { rewrite filterDuplicatePersons_nonPersons. apply filter_In. split; [exact Hd |].
    unfold nonPerson. now rewrite Hn. }
  apply filter_In in H. tauto.
Qed.

End RetainFacts.

(** ** The camera and the button *)

Module CameraFacts.

Import JS EPIDetector RealtimeDetector Camera Notions ReconcileFacts SessionFacts.

Lemma tick_flags (s : Session) (x : Sample) :
  video s = true -> isRealtime s = timer s ->
  video (tick s x) = true
  /\ isRealtime (tick s x) = timer (tick s x)
  /\ isCameraOn (tick s x) = isCameraOn s
  /\ (timer (tick s x) = true -> timer s = true).
Proof.
  intros Hv Hr. unfold tick. destruct (timer s) eqn:Ht; [| repeat split; congruence].
  unfold cycle. rewrite Hv. cbn [negb].
  unfold filteredPersons, Raw.persons_of, Raw.predictions, bind. cbn [store].
  destruct (processDetections_Body (stamp x) (readings x) (personBody x) (ppeBody x) (store s))
    as (next & ->).
  destruct (MAX_MISSED_FRAMES <=? _)%nat; cbn; repeat split; congruence.
Qed.

Lemma step_steady (c : State) (e : Event) : consistent c -> consistent (step c e).
Proof.
  intros Hall. pose proof Hall as (Hv & Hr & Ht & Hc).
  destruct e as [m | | x]; cbn [step].
  - unfold startCamera. destruct (attached c); [exact Hall |].
    destruct m as [stream |]; [| exact Hall].
    unfold consistent. cbn. rewrite Hv. repeat split; eauto.
  - unfold consistent, click. cbn [session srcObject].
    destruct (isCameraOn (session c)) eqn:Ec; [| intuition congruence].
    destruct (isRealtime (session c)) eqn:Er.
    + unfold stopRealtime. cbn. repeat split; auto; discriminate.
    + unfold startRealtime. rewrite Hv, Er. cbn. repeat split; auto.
  - unfold consistent. cbn [session srcObject].
    destruct (tick_flags (session c) x Hv Hr) as (Hv' & Hr' & Hc' & Ht').
    rewrite Hc'. repeat split; auto.
Qed.

Lemma steps_consistent (events : list Event) : forall c, consistent c -> consistent (steps events c).
Proof.
  induction events as [| e r IH]; intros c Hc; cbn [steps fold_left]; [exact Hc |].
  apply IH. now apply step_steady.
Qed.

Lemma mountedWith_consistent (st : Store) : consistent (mountedWith st).
Proof. unfold consistent. cbn. repeat split; auto; discriminate. Qed.

End CameraFacts.

(** ** The analysis loop *)

Module PageFacts.

Import JS EPIDetector History Page PageNotions ReconcileFacts.

Lemma analyzeFrames_list (fuel : nat) :
  forall frame answers s,
    analyzeFrames fuel frame answers s = analyzeList (framesFrom fuel frame) answers s.
Proof.
  induction fuel as [| fuel IH]; intros frame answers s; cbn [analyzeFrames framesFrom].
  - reflexivity.
  - destruct (frame <? totalFrames)%N; [| reflexivity]. cbn [analyzeList].
    destruct (answers frame) as [p e clock | |]; try reflexivity.
    destruct (processDetections p e frame clock (store s)); [apply IH | reflexivity].
Qed.

Lemma frames_of_analysis : framesFrom (S (N.to_nat totalFrames)) 0 = analysedFrames.
Proof. vm_compute. reflexivity. Qed.

Lemma analyzeList_answered (answers : N -> Fetched) (done : list N) :
  forall rest s,
    Forall (answeredAt answers) done ->
    exists s', after answers done s s'
               /\ analyzeList (done ++ rest) answers s = analyzeList rest answers s'.
Proof.
  induction done as [| frame done IH]; intros rest s Hall.
  - exists s. split; [| reflexivity]. unfold after. cbn. repeat split; reflexivity.
  - inversion Hall as [| f l (pb & eb & clock & Hf) Hrest]. subst.
    cbn [app analyzeList]. rewrite Hf.
    destruct (processDetections_Body frame clock pb eb (store s)) as (st & Hst).
    rewrite Hst.
    destruct (IH rest (setAnalysisProgress (number frame / number totalFrames * 100)%float
                         (setStore st s)) Hrest)
      as (s' & (Hr & Hv & Ha & Hc & Ht & Hp) & Hl).
    exists s'. split; [| exact Hl].
    unfold after. cbn [callsAt flat_map]. rewrite Hf. cbn [app replay].
    unfold call. cbn [personData ppeData History.frame History.clock]. rewrite Hst.
    cbn [bind]. split; [exact Hr |]. cbn in Hv, Ha, Hc, Ht, Hp.
    repeat split; try assumption.
    rewrite Hp. cbn [rev]. destruct (rev done) as [| g r]; reflexivity.
Qed.

Lemma null_throws personData ppeData frame clock (st : Store) :
  personData = Raw.Null \/ ppeData = Raw.Null ->
  processDetections personData ppeData frame clock st = Throws TypeError.
Proof.
  intros [-> | ->]; [reflexivity |]. destruct personData; reflexivity.
Qed.

Lemma fails_at (answers : N -> Fetched) (frame : N) (rest : list N) (s : State) :
  failsAt answers frame -> analyzeList (frame :: rest) answers s = Failed s.
Proof.
  intros [H | (p & e & clock & H & Hnull)]; cbn [analyzeList]; rewrite H; [reflexivity |].
  rewrite (null_throws p e frame clock (store s) Hnull). reflexivity.
Qed.


(** The alerts a sequence of calls adds do not depend on the store. *)
Lemma replay_alerts (calls : list Call) :
  exists added,
    forall st st', replay calls st = Returns st' -> alerts st' = alerts st ++ added.
Proof.
  induction calls as [| c r (added & IH)].
  - exists []. intros st st' H. inversion H. now rewrite app_nil_r.
  - destruct (reconcile (personData c) (ppeData c) (frame c) (clock c)) as [out |] eqn:Hout.
    + exists (frameAlerts out ++ added). intros st st' H. cbn [replay] in H.
      unfold call, processDetections, bind in H. rewrite Hout in H.
      rewrite (IH _ _ H). cbn [commit alerts]. now rewrite app_assoc.
    + exists []. intros st st' H. cbn [replay] in H.
      unfold call, processDetections, bind in H. rewrite Hout in H. discriminate.
Qed.

(** Every Detection after a sequence of calls was in the store before, or
    carries the frame of one of the calls. *)
Lemma replay_frames (calls : list Call) :
  forall st st', replay calls st = Returns st' ->
    forall d, In d (detections st') ->
      In d (detections st) \/ In (Detection.frame d) (map frame calls).
Proof.
  induction calls as [| c r IH]; intros st st' H d Hd; cbn [replay] in H.
  - inversion H. subst. now left.
  - unfold bind in H. destruct (call c st) as [st1 |] eqn:Hc; [| discriminate].
    destruct (IH st1 st' H d Hd) as [H1 | H1]; [| right; now right].
    unfold call in Hc. destruct (processDetections_inv _ _ _ _ _ _ Hc) as (out & Hout & ->).
    cbn [commit detections] in H1. apply DedupFacts.filterDuplicatePersons_incl in H1.
    apply in_app_or in H1. destruct H1 as [H1 | H1]; [now left |].
    right. left.
    destruct (StoreFacts.newDetections_In _ _ _ _ _ _ Hout H1)
      as [(p & k & -> & _) | (e & k & t & -> & _)]; reflexivity.
Qed.

Lemma callsAt_frames (answers : N -> Fetched) (frames : list N) :
  incl (map frame (callsAt answers frames)) frames.
Proof.
  induction frames as [| f r IH]; cbn [callsAt flat_map]; [apply incl_refl |].
  fold (callsAt answers r). rewrite map_app. apply incl_app.
  - destruct (answers f); cbn; intros x Hx; [destruct Hx as [<- | []]; now left | |];
      contradiction.
  - now apply incl_tl.
Qed.

Lemma callsAt_answered (answers : N -> Fetched) (frames : list N) :
  Forall (answeredAt answers) frames -> map frame (callsAt answers frames) = frames.
Proof.
  induction 1 as [| f r (pb & eb & clock & Hf) _ IH]; [reflexivity |].
  cbn [callsAt flat_map]. rewrite Hf. cbn [app map frame]. fold (callsAt answers r).
  now rewrite IH.
Qed.

(** However the loop ends, the store is one the component can hold. *)
Lemma analyzeList_reachable (answers : N -> Fetched) (frames : list N) :
  forall s, reachable (store s) ->
    match analyzeList frames answers s with
    | Done s' | Failed s' | Waiting s' =>
        reachable (store s') /\ videoFile s' = videoFile s /\ toasts s' = toasts s
    end.
Proof.
  induction frames as [| f r IH]; intros s Hs; cbn [analyzeList]; [auto |].
  destruct (answers f) as [p e clock | |]; auto.
  destruct (processDetections p e f clock (store s)) as [st |] eqn:Hp; auto.
  specialize (IH (setAnalysisProgress (number f / number totalFrames * 100)%float
                    (setStore st s))).
  cbn [store setAnalysisProgress setStore videoFile toasts] in IH.
  apply IH. eapply reachable_step; eauto.
Qed.

Lemma analyzeVideo_reachable (answers : N -> Fetched) (s : State) :
  reachable (store s) ->
  reachable (store (analyzeVideo answers s)) /\ videoFile (analyzeVideo answers s) = videoFile s.
Proof.
  intros Hs. unfold analyzeVideo. destruct (videoFile s) as [file |] eqn:Hv; [| cbn; auto].
  rewrite analyzeFrames_list.
  pose proof (analyzeList_reachable answers (framesFrom (S (N.to_nat totalFrames)) 0)
                (setAnalysisProgress 0 (setIsAnalyzing true s)) Hs) as H.
  destruct (analyzeList _ answers _) as [s' | s' | s']; destruct H as (Hr & Hf & _);
    cbn in *; split; congruence.
Qed.

End PageFacts.

(** ** The page as a whole *)

Module PageInvariants.

Import JS EPIDetector History Page PageNotions StoreFacts AlertFacts PageFacts.

(** No alert of a store the component can hold is [low]. *)
Lemma reachable_severity (st : Store) :
  reachable st -> forall a, In a (alerts st) -> Alert.severity a <> low.
Proof.
  apply (reachable_alerts (fun a => Alert.severity a <> low)).
  intros pd ed frame clock out a Hout Ha.
  destruct (ReconcileFacts.reconcile_inv _ _ _ _ _ Hout) as (pb & eb & _ & _ & _ & Hal).
  rewrite Hal in Ha. apply alertPush_In in Ha. destruct Ha as (_ & p & k & ->).
  cbn [alertOf Alert.severity]. destruct (2 <=? _)%nat; discriminate.
Qed.

Lemma severity_partition (l : list Alert.t) :
  (forall a, In a l -> Alert.severity a <> low) ->
  List.length (filter (hasSeverity low) l) = 0
  /\ List.length (filter (hasSeverity high) l) + List.length (filter (hasSeverity medium) l)
     = List.length l.
Proof.
  induction l as [| a r IH]; intros H; [auto |].
  destruct IH as [IH1 IH2]; [intros b Hb; apply H; now right |].
  assert (Ha : Alert.severity a <> low) by (apply H; now left).
  assert (Hl : hasSeverity low a = false)
    by (unfold hasSeverity; destruct (Alert.severity a); congruence).
  assert (Hhm : (hasSeverity high a = true /\ hasSeverity medium a = false)
                \/ (hasSeverity high a = false /\ hasSeverity medium a = true))
    by (unfold hasSeverity; destruct (Alert.severity a); auto; congruence).
  cbn [filter]. rewrite Hl.
  destruct Hhm as [[-> ->] | [-> ->]]; cbn [List.length]; split; lia.
Qed.

Lemma upload_sound (files : list File.t) (p : VideoUpload.State * State) :
  sound p -> sound (VideoUpload.upload files (fst p) (snd p)).
Proof.
  intros (Hr & Hu & Hv). unfold VideoUpload.upload, VideoUpload.handleFiles.
  destruct (find VideoUpload.isVideo files) as [f |] eqn:Hf.
  - apply find_some in Hf. destruct Hf as [_ Hf].
    destruct (VideoUpload.MAX_SIZE <? File.size f)%N eqn:Hs.
    + unfold sound. cbn. auto.
    + apply N.ltb_ge in Hs. unfold sound. cbn. split; [apply reachable_empty |].
      split; intros file E; inversion E; subst; auto.
  - unfold sound. cbn. auto.
Qed.

Lemma step_sound (p : VideoUpload.State * State) (e : Event) : sound p -> sound (step p e).
Proof.
  intros Hp. destruct e as [files | | answers]; cbn [step].
  - now apply upload_sound.
  - destruct Hp as (Hr & Hu & Hv). unfold sound. cbn. split; [exact Hr |].
    split; [discriminate | exact Hv].
  - destruct Hp as (Hr & Hu & Hv). unfold sound. cbn [fst snd].
    assert (H : reachable (store (clickAnalyze answers (snd p)))
                /\ videoFile (clickAnalyze answers (snd p)) = videoFile (snd p)).
    { unfold clickAnalyze. destruct (videoFile (snd p)) eqn:E; [| auto].
      destruct (isAnalyzing (snd p)); [auto |].
      rewrite <- E. now apply analyzeVideo_reachable. }
    destruct H as [H1 H2]. rewrite H2. auto.
Qed.

Lemma steps_sound (events : list Event) : forall p, sound p -> sound (steps events p).
Proof.
  induction events as [| e r IH]; intros p Hp; cbn [steps fold_left]; [exact Hp |].
  apply IH. now apply step_sound.
Qed.

Lemma initial_sound : sound (VideoUpload.initial, Page.initial).
Proof.
  unfold sound. cbn. split; [apply reachable_empty |]. split; discriminate.
Qed.

Lemma find_first {A : Type} (f : A -> bool) (before after : list A) (a : A) :
  Forall (fun b => f b = false) before -> f a = true ->
  find f (before ++ a :: after) = Some a.
Proof.
  induction 1 as [| b r Hb _ IH]; intros Ha; cbn [app find].
  - now rewrite Ha.
  - rewrite Hb. auto.
Qed.

Lemma find_none {A : Type} (f : A -> bool) (l : list A) :
  Forall (fun b => f b = false) l -> find f l = None.
Proof.
  induction 1 as [| b r Hb _ IH]; cbn [find]; [reflexivity |]. now rewrite Hb.
Qed.

End PageInvariants.

(** ** Binary64 arithmetic: counts, quotients and products *)

Module RoundingFacts.

Import JS Binary64 Rounding Binary64Facts OrderFacts.
#[local] Open Scope Z_scope.

Lemma digits2_pos_shift (d m : positive) :
  digits2_pos (Pos.iter xO m d) = (digits2_pos m + d)%positive.
Proof.
  induction d as [| d IH] using Pos.peano_ind.
  - cbn. lia.
  - rewrite Pos.iter_succ. cbn [digits2_pos]. rewrite IH. lia.
Qed.

Lemma iter_pos_invariant {A : Type} (f : A -> A) (Inv : A -> Prop) :
  (forall x, Inv x -> Inv (f x)) ->
  forall n x, Inv x -> Inv (iter_pos f n x).
Proof.
  intros Hf. induction n as [n IH | n IH |]; intros x Hx; cbn [iter_pos]; auto.
Qed.

Lemma shr_1_nonneg (mrs : shr_record) : 0 <= shr_m mrs -> 0 <= shr_m (shr_1 mrs).
Proof.
  destruct mrs as [m r s]. cbn [shr_m]. intros H.
  destruct m as [| [p | p |] | p]; cbn; lia.
Qed.

Lemma shr_fexp_nonneg (m e : Z) (l : location) :
  0 <= m -> 0 <= shr_m (fst (shr_fexp prec emax m e l)).
Proof.
  intros H. unfold shr_fexp, shr.
  assert (H0 : 0 <= shr_m (shr_record_of_loc m l)) by (destruct l as [| []]; exact H).
  destruct (fexp prec emax (Zdigits2 m + e) - e) as [| p | p]; cbn [fst]; try exact H0.
  apply (iter_pos_invariant shr_1 (fun r => 0 <= shr_m r)); [apply shr_1_nonneg | exact H0].
Qed.

Lemma round_nearest_even_nonneg (m : Z) (l : location) :
  0 <= m -> 0 <= round_nearest_even m l.
Proof.
  intros H. destruct l as [| []]; cbn [round_nearest_even]; try lia.
  destruct (Z.even m); lia.
Qed.

(** Rounding a mantissa that is not negative gives a zero, a finite value or an
    infinity of the given sign, never NaN. *)
Lemma binary_round_aux_signed (s : bool) (m e : Z) (l : location) :
  0 <= m -> signed s (binary_round_aux prec emax s m e l) = true.
Proof.
  intros H. unfold binary_round_aux.
  pose proof (shr_fexp_nonneg m e l H) as H1.
  destruct (shr_fexp prec emax m e l) as [mrs e']. cbn [fst] in H1.
  pose proof (shr_fexp_nonneg _ e' loc_Exact
                (round_nearest_even_nonneg (shr_m mrs) (loc_of_shr_record mrs) H1)) as H2.
  destruct (shr_fexp prec emax _ e' loc_Exact) as [mrs' e'']. cbn [fst] in H2.
  destruct (shr_m mrs') as [| p | p]; [apply Bool.eqb_reflx | | lia].
  destruct (e'' <=? emax - prec); apply Bool.eqb_reflx.
Qed.

Lemma signed_notAbove (v : spec_float) : signed true v = true -> notAbove v = true.
Proof. destruct v as [[] | [] | | [] m e]; cbn; auto. Qed.

Lemma div_core_nonneg (m1 m2 : positive) (e1 e2 : Z) :
  0 <= fst (fst (SFdiv_core_binary prec emax (Z.pos m1) e1 (Z.pos m2) e2)).
Proof.
  unfold SFdiv_core_binary.
  set (s := e1 - e2 - _).
  set (m' := match s with Z0 => Z.pos m1 | Z.pos _ => Z.shiftl (Z.pos m1) s | Z.neg _ => 0 end).
  assert (Hm : 0 <= m').
  { unfold m'. destruct s; try lia. apply Z.shiftl_nonneg. lia. }
  pose proof (Z.div_pos m' (Z.pos m2) Hm ltac:(lia)) as Hq.
  unfold Z.div in Hq. destruct (Z.div_eucl m' (Z.pos m2)) as [q r]. exact Hq.
Qed.

(** The quotient of a value not above zero by a finite value above zero is not
    above zero; so is its product with such a value. *)
Lemma SFdiv_notAbove (a : spec_float) (m : positive) (e : Z) :
  notAbove a = true -> notAbove (SF64div a (S754_finite false m e)) = true.
Proof.
  intros H. destruct a as [s | s | | s ma ea]; try discriminate H;
    unfold SF64div; cbn [SFdiv].
  - reflexivity.
  - cbn in H. subst s. reflexivity.
  - cbn in H. subst s. cbn [xorb].
    pose proof (div_core_nonneg ma m ea e) as Hq.
    destruct (SFdiv_core_binary prec emax (Z.pos ma) ea (Z.pos m) e) as [[mz ez] lz].
    cbn [fst] in Hq. apply signed_notAbove. now apply binary_round_aux_signed.
Qed.

Lemma SFmul_notAbove (a : spec_float) (m : positive) (e : Z) :
  notAbove a = true -> notAbove (SF64mul a (S754_finite false m e)) = true.
Proof.
  intros H. destruct a as [s | s | | s ma ea]; try discriminate H;
    unfold SF64mul; cbn [SFmul].
  - reflexivity.
  - cbn in H. subst s. reflexivity.
  - cbn in H. subst s. cbn [xorb].
    apply signed_notAbove. apply binary_round_aux_signed. lia.
Qed.

(** A finite value whose mantissa has 53 digits rounds to itself. *)
Lemma binary_round_aux_canonical (s : bool) (m : positive) (e : Z) :
  Z.pos (digits2_pos m) = 53 -> -1074 <= e <= 971 ->
  binary_round_aux prec emax s (Z.pos m) e loc_Exact = S754_finite s m e.
Proof.
  intros Hd He. unfold binary_round_aux, shr_fexp. cbn [Zdigits2 shr_record_of_loc].
  assert (H0 : fexp prec emax (Z.pos (digits2_pos m) + e) - e = 0).
  { rewrite Hd. unfold fexp, SpecFloat.emin, prec, emax. lia. }
  rewrite H0. cbn [shr shr_m loc_of_shr_record round_nearest_even Zdigits2 shr_record_of_loc].
  rewrite H0. cbn [shr shr_m].
  assert (H1 : (e <=? emax - prec) = true) by (apply Z.leb_le; unfold emax, prec; lia).
  now rewrite H1.
Qed.

(** An integer from 1 to 2^53 - 1 is a binary64 value. *)
Lemma binary_normalize_exact (p : positive) :
  Z.pos p < 2 ^ 53 ->
  exists m e,
    binary_normalize prec emax (Z.pos p) 0 false = S754_finite false m e
    /\ Z.pos m * 2 ^ (e + 1074) = Z.pos p * 2 ^ 1074
    /\ Z.pos (digits2_pos m) = 53.
Proof.
  intros Hp. cbn [binary_normalize]. unfold binary_round.
  pose proof (digits2_pos_bounds p) as [Hlo Hhi].
  assert (Hd : Z.pos (digits2_pos p) <= 53).
  { destruct (Z.le_gt_cases (Z.pos (digits2_pos p)) 53) as [H | H]; [exact H |].
    assert (2 ^ 53 <= 2 ^ (Z.pos (digits2_pos p) - 1)) by (apply Z.pow_le_mono_r; lia). lia. }
  assert (Hf : fexp prec emax (Z.pos (digits2_pos p) + 0) = Z.pos (digits2_pos p) - 53).
  { unfold fexp, SpecFloat.emin, prec, emax. lia. }
  rewrite Hf. unfold shl_align.
  destruct (Z.pos (digits2_pos p) - 53 - 0) as [| k | k] eqn:Hk; try lia.
  - exists p, 0. split; [| split].
    + apply binary_round_aux_canonical; lia.
    + reflexivity.
    + lia.
  - exists (Pos.iter xO p k), (Z.pos (digits2_pos p) - 53). split; [| split].
    + apply binary_round_aux_canonical; [| lia].
      rewrite digits2_pos_shift. lia.
    + change (Pos.iter xO p k) with (shift_pos k p).
      rewrite shift_pos_correct, Z.pow_pos_fold.
      replace (Z.pos k) with (53 - Z.pos (digits2_pos p)) by lia.
      rewrite (Z.mul_comm _ (Z.pos p)), <- Z.mul_assoc, <- Z.pow_add_r by lia.
      do 2 f_equal. lia.
    + rewrite digits2_pos_shift. lia.
Qed.

(** A normal value over itself is one. *)
Lemma SFdiv_self (m : positive) (e : Z) :
  Z.pos (digits2_pos m) = 53 ->
  SF64div (S754_finite false m e) (S754_finite false m e)
  = S754_finite false 4503599627370496 (-52).
Proof.
  intros Hd. unfold SF64div. cbn [SFdiv xorb]. unfold SFdiv_core_binary.
  cbn [Zdigits2]. rewrite Hd.
  replace (53 + e - (53 + e)) with 0 by lia.
  replace (e - e) with 0 by lia.
  change (0 - Z.min (fexp prec emax 0) 0) with 53.
  change (Z.min (fexp prec emax 0) 0) with (-53).
  cbv iota. rewrite Z.shiftl_mul_pow2 by lia.
  assert (Hq : Z.div_eucl (Z.pos m * 2 ^ 53) (Z.pos m) = (2 ^ 53, 0)).
  { pose proof (Z.div_mul (2 ^ 53) (Z.pos m) ltac:(lia)) as H1.
    pose proof (Z.mod_mul (2 ^ 53) (Z.pos m) ltac:(lia)) as H2.
    rewrite (Z.mul_comm (2 ^ 53)) in H1, H2. unfold Z.div in H1. unfold Z.modulo in H2.
    destruct (Z.div_eucl (Z.pos m * 2 ^ 53) (Z.pos m)) as [q r]. congruence. }
  rewrite Hq.
  assert (Hl : new_location (Z.pos m) 0 = loc_Exact).
  { unfold new_location. destruct (Z.even (Z.pos m)); reflexivity. }
  rewrite Hl. vm_compute. reflexivity.
Qed.

#[local] Open Scope float_scope.

(** An array length as a number: 0, or a finite value above zero whose key is
    the length. *)
Lemma of_length_0 : Prim2SF (of_length 0) = S754_zero false.
Proof. reflexivity. Qed.

Lemma of_length_pos (n : nat) :
  (0 < Z.of_nat n < 2 ^ 53)%Z ->
  exists m e,
    Prim2SF (of_length n) = S754_finite false m e
    /\ fkey (of_length n) = (Z.of_nat n * 2 ^ 1074)%Z
    /\ Z.pos (digits2_pos m) = 53%Z.
Proof.
  intros Hn. unfold fkey, of_length. rewrite of_uint63_spec, Uint63.of_Z_spec.
  rewrite Z.mod_small
    by (split; [lia |]; apply Z.lt_trans with (2 ^ 53)%Z; [lia | reflexivity]).
  destruct (Z.of_nat n) as [| p | p] eqn:E; try lia.
  destruct (binary_normalize_exact p ltac:(lia)) as (m & e & H1 & H2 & H3).
  exists m, e. rewrite H1. split; [reflexivity | split; [exact H2 | exact H3]].
Qed.

Lemma Prim2SF_inj (x y : float) : Prim2SF x = Prim2SF y -> x = y.
Proof. intros H. rewrite <- (SF2Prim_Prim2SF x), <- (SF2Prim_Prim2SF y). now rewrite H. Qed.

(** [n / n * 100] for a length [n] that is not zero: 100. *)
Lemma full_share (n : nat) :
  (0 < Z.of_nat n < 2 ^ 53)%Z -> of_length n / of_length n * 100 = 100.
Proof.
  intros Hn. destruct (of_length_pos n Hn) as (m & e & H & _ & Hd).
  apply Prim2SF_inj. rewrite mul_spec, div_spec, H, (SFdiv_self m e Hd). reflexivity.
Qed.

(** Taking no length away leaves the length. *)
Lemma of_length_minus_0 (n : nat) :
  (0 < Z.of_nat n < 2 ^ 53)%Z -> of_length n - of_length 0 = of_length n.
Proof.
  intros Hn. destruct (of_length_pos n Hn) as (m & e & H & _).
  apply Prim2SF_inj. rewrite sub_spec, H. reflexivity.
Qed.

Lemma of_length_not_nan (n : nat) : (Z.of_nat n < 2 ^ 53)%Z -> is_nan (of_length n) = false.
Proof.
  intros Hn. rewrite is_nan_spec. destruct n as [| n]; [reflexivity |].
  destruct (of_length_pos (S n) ltac:(lia)) as (m & e & -> & _). reflexivity.
Qed.

Lemma of_length_key (n : nat) :
  (Z.of_nat n < 2 ^ 53)%Z -> fkey (of_length n) = (Z.of_nat n * 2 ^ 1074)%Z.
Proof.
  intros Hn. destruct n as [| n]; [reflexivity |].
  destruct (of_length_pos (S n) ltac:(lia)) as (m & e & _ & H & _). exact H.
Qed.

(** [0 / n * 100] for a length [n] that is not zero: 0. *)
Lemma zero_share (n : nat) :
  (0 < Z.of_nat n < 2 ^ 53)%Z -> of_length 0 / of_length n * 100 = 0.
Proof.
  intros Hn. destruct (of_length_pos n Hn) as (m & e & H & _).
  apply Prim2SF_inj. rewrite mul_spec, div_spec, H. reflexivity.
Qed.

(** A difference of lengths, the larger one taken away, is not above zero. *)
Lemma length_difference (p a : nat) :
  (Z.of_nat p <= Z.of_nat a < 2 ^ 53)%Z ->
  notAbove (Prim2SF (of_length p - of_length a)) = true.
Proof.
  intros H. rewrite sub_spec. unfold SF64sub.
  destruct p as [| p].
  - rewrite of_length_0. destruct a as [| a]; [reflexivity |].
    destruct (of_length_pos (S a) ltac:(lia)) as (m & e & -> & _). reflexivity.
  - destruct a as [| a]; [lia |].
    pose proof (Prim2SF_valid (of_length (S p))) as Vp.
    pose proof (Prim2SF_valid (of_length (S a))) as Va.
    destruct (of_length_pos (S p) ltac:(lia)) as (mp & ep & Hp & Kp & _).
    destruct (of_length_pos (S a) ltac:(lia)) as (ma & ea & Ha & Ka & _).
    unfold fkey in Kp, Ka. rewrite Hp in *. rewrite Ha in *. cbn [key cond_Zopp] in Kp, Ka.
    pose proof (valid_finite _ _ _ Vp) as (Hep & _).
    pose proof (valid_finite _ _ _ Va) as (Hea & _).
    cbn [SFsub cond_Zopp].
    set (ez := Z.min ep ea).
    assert (Hzp : (ez <= ep)%Z) by (unfold ez; lia).
    assert (Hza : (ez <= ea)%Z) by (unfold ez; lia).
    rewrite (shl_align_fst mp ep ez Hzp), (shl_align_fst ma ea ez Hza).
    assert (Hpow : (0 < 2 ^ (ez + 1074))%Z) by (apply Z.pow_pos_nonneg; unfold ez; lia).
    assert (Hsp : (Z.pos mp * 2 ^ (ep + 1074)
                   = Z.pos mp * 2 ^ (ep - ez) * 2 ^ (ez + 1074))%Z).
    { rewrite <- Z.mul_assoc, <- Z.pow_add_r by (unfold ez; lia). do 2 f_equal. lia. }
    assert (Hsa : (Z.pos ma * 2 ^ (ea + 1074)
                   = Z.pos ma * 2 ^ (ea - ez) * 2 ^ (ez + 1074))%Z).
    { rewrite <- Z.mul_assoc, <- Z.pow_add_r by (unfold ez; lia). do 2 f_equal. lia. }
    assert (Hle : (Z.pos mp * 2 ^ (ep - ez) <= Z.pos ma * 2 ^ (ea - ez))%Z).
    { assert (H1074 : (0 < 2 ^ 1074)%Z) by (apply Z.pow_pos_nonneg; lia).
      assert (Hk : (Z.pos mp * 2 ^ (ep + 1074) <= Z.pos ma * 2 ^ (ea + 1074))%Z).
      { rewrite Kp, Ka. apply Z.mul_le_mono_nonneg_r; lia. }
      rewrite Hsp, Hsa in Hk.
      apply Z.mul_le_mono_pos_r in Hk; assumption. }
    destruct (Z.pos mp * 2 ^ (ep - ez) - Z.pos ma * 2 ^ (ea - ez))%Z as [| d | d] eqn:Hd;
      cbn [binary_normalize]; [reflexivity | lia |].
    unfold binary_round. destruct (shl_align d ez _) as [mz ez'].
    apply signed_notAbove. apply binary_round_aux_signed. lia.
Qed.

(** A value that is not above zero is clamped to zero. *)
Lemma clamp_notAbove (x : float) :
  notAbove (Prim2SF x) = true -> Math_max 0 (Math_min 100 x) = 0.
Proof.
  intros H.
  assert (Hn : is_nan x = false).
  { rewrite is_nan_spec. destruct (Prim2SF x); try discriminate H; reflexivity. }
  assert (H100 : (x <? 100) = true).
  { rewrite ltb_spec. destruct (Prim2SF x) as [s | s | | s m e]; try discriminate H;
      cbn in H; subst; reflexivity. }
  assert (H0 : (0 <? x) = false).
  { rewrite ltb_spec. destruct (Prim2SF x) as [s | s | | s m e]; try discriminate H;
      cbn in H; subst; reflexivity. }
  unfold Math_min. change (is_nan 100) with false. rewrite Hn. cbn [orb].
  change (is_pos_zero 100) with false. rewrite andb_false_r, H100.
  unfold Math_max. change (is_nan 0) with false. rewrite Hn. cbn [orb].
  change (is_neg_zero 0) with false. rewrite andb_false_r, H0. reflexivity.
Qed.

End RoundingFacts.

(** ** The dashboard *)

Module DashboardFacts.

Import JS EPIDetector Stats Dashboard DashboardNotions Notions.
Import Binary64 Rounding Binary64Facts RoundingFacts StoreFacts AlertFacts ReconcileFacts.

Lemma arrayLength_53 (n : nat) : arrayLength n -> (Z.of_nat n < 2 ^ 53)%Z.
Proof.
  unfold arrayLength. intros H. apply Z.lt_trans with (2 ^ 32)%Z; [exact H | reflexivity].
Qed.

(** The rate of a class that was never detected. *)
Lemma rate_zero (persons : nat) :
  (0 < persons)%nat -> arrayLength persons -> rate 0 persons = "0.0".
Proof.
  intros Hp Ha. unfold rate.
  rewrite zero_share by (split; [lia | now apply arrayLength_53]). reflexivity.
Qed.

(** The rate of a class detected as often as persons were. *)
Lemma rate_full (persons : nat) :
  (0 < persons)%nat -> arrayLength persons -> rate persons persons = "100.0".
Proof.
  intros Hp Ha. unfold rate.
  rewrite full_share by (split; [lia | now apply arrayLength_53]). reflexivity.
Qed.

Lemma countByType_none (t : string) (l : list Detection.t) :
  (forall d, In d l -> Detection.type d <> t) -> countByType t l = 0%nat.
Proof.
  intros H. unfold countByType.
  rewrite DedupFacts.filter_none; [reflexivity |].
  apply Forall_forall. intros d Hd. apply ValueFacts.strictEq_neq. now apply H.
Qed.






(** An alert of a store the component can hold lists some of the three labels,
    each once at most. *)
Lemma label_once (f : string -> bool) (k : string) :
  (count_occ string_dec (map epiLabel (filter f requiredEPIs)) k <= 1)%nat
  /\ (In k (map epiLabel (filter f requiredEPIs)) -> In k labels).
Proof.
  assert (H1 : epiLabel "mask" <> epiLabel "glasses") by (vm_compute; discriminate).
  assert (H2 : epiLabel "mask" <> epiLabel "hearing") by (vm_compute; discriminate).
  assert (H3 : epiLabel "glasses" <> epiLabel "hearing") by (vm_compute; discriminate).
  unfold requiredEPIs, labels. cbn [filter].
  destruct (f "mask"), (f "glasses"), (f "hearing"); cbn [map count_occ In requiredEPIs];
    (split; [| tauto]);
    repeat match goal with
           | |- context [string_dec ?a k] => destruct (string_dec a k)
           end; try lia; exfalso; congruence.
Qed.





End DashboardFacts.

(** ** The shape of a stored alert *)

Module AlertShapeFacts.

Import JS EPIDetector Notions History DashboardNotions.
Import LoopFacts ReconcileFacts AlertFacts StoreFacts.

Lemma labels_of_missing (f : string -> bool) :
  NoDup (map epiLabel (filter f requiredEPIs))
  /\ (List.length (map epiLabel (filter f requiredEPIs)) <= 3)%nat.
Proof.
  unfold requiredEPIs. cbn [filter].
  destruct (f "mask"), (f "glasses"), (f "hearing"); cbn [map List.length];
    (split; [| lia]); repeat constructor; cbn [In]; intuition discriminate.
Qed.

(** The person of index [k] among the persons a frame pushes comes from an
    entry of index [k] or later. *)
Lemma personPush_position frame clock (l : list Raw.Person.t) :
  forall i k p,
    nth_error (collect_from (personPush frame clock) l i) k = Some p ->
    exists j e, i + k <= j /\ p = personDetection frame clock e j.
Proof.
  induction l as [| e r IH]; intros i k p H; cbn [collect_from] in H.
  - now destruct k.
  - unfold personPush at 1 in H. destruct (JS.lt _ _).
    + cbn [app] in H. destruct (IH (S i) k p H) as (j & e' & Hj & Hp).
      exists j, e'. split; [lia | exact Hp].
    + cbn [app] in H. destruct k as [| k]; cbn [nth_error] in H.
      * inversion H. exists i, e. split; [lia | reflexivity].
      * destruct (IH (S i) k p H) as (j & e' & Hj & Hp).
        exists j, e'. split; [lia | exact Hp].
Qed.

Lemma frame_alert_shape personData ppeData frame clock out (a : Alert.t) :
  reconcile personData ppeData frame clock = Returns out ->
  In a (frameAlerts out) ->
  (1 <= List.length (Alert.missingEPIs a) <= 3)%nat
  /\ NoDup (Alert.missingEPIs a)
  /\ incl (Alert.missingEPIs a) labels
  /\ Alert.severity a = (if (2 <=? List.length (Alert.missingEPIs a))%nat then high else medium)
  /\ exists k j,
       k <= j
       /\ Alert.id a = recordId "alert_" (Alert.frame a) k
       /\ Alert.personId a = recordId "person_" (Alert.frame a) j.
Proof.
  intros Hout Ha.
  destruct (reconcile_inv _ _ _ _ _ Hout) as (pb & eb & -> & -> & _ & Hal).
  destruct (reconcile_Body frame clock pb eb) as (out' & Hout' & _ & Hmiss & _).
  rewrite Hout in Hout'. inversion Hout'. subst out'. clear Hout'.
  rewrite Hal, (personsInFrame_eq _ _ _ _ _ Hout) in Ha.
  apply collect_from_In in Ha. destruct Ha as (k & p & Hk & Ha).
  unfold alertPush in Ha.
  destruct (List.length (missingEPIs out) =? 0)%nat eqn:E; [contradiction |].
  destruct Ha as [<- | []]. apply Nat.eqb_neq in E.
  cbn [alertOf Alert.missingEPIs Alert.severity Alert.id Alert.personId Alert.frame].
  rewrite length_map. rewrite Hmiss in *.
  destruct (labels_of_missing (fun epi : string => negb (Set_has (detectedEPIClasses out) epi)))
    as [Hn Hl]. rewrite length_map in Hl.
  split; [lia |]. split; [exact Hn |]. split.
  - intros x Hx.
    exact (proj2 (DashboardFacts.label_once
                    (fun epi : string => negb (Set_has (detectedEPIClasses out) epi)) x) Hx).
  - split; [reflexivity |].
    destruct (personPush_position frame clock _ 0 k p Hk) as (j & e & Hj & ->).
    exists k, j. split; [lia |]. split; reflexivity.
Qed.

End AlertShapeFacts.

(* ================================================================== *)
(** * Properties of the pipeline *)
(* ================================================================== *)

Import JS EPIDetector RealtimeDetector Stats Notions Samples.
Import LoopFacts ReconcileFacts DedupFacts ThresholdFacts AlertFacts SessionFacts OverlapFacts.
#[local] Open Scope float_scope.

Lemma personStore_reachable : reachable personStore.
Proof.
  apply (reachable_step emptyStore (Raw.Body onePerson) (Raw.Body noPpe) 0%N clock0).
  - apply reachable_empty.
  - vm_compute. reflexivity.
Qed.

Lemma maskStore_reachable : reachable maskStore.
Proof.
  apply (reachable_step emptyStore (Raw.Body noPersons) (Raw.Body oneMask) 0%N clock0).
  - apply reachable_empty.
  - vm_compute. reflexivity.
Qed.

(** C1. A new person detection B whose overlap with a stored person A, over
    the area of B, exceeds 0.7 is not added: the store after the call is the one
    the call would leave had B not been produced.  A stays in the store, and
    the detections of the other classes are all kept, the stored ones and the
    new ones. *)
Theorem duplicate_person_not_added :
  forall (prev : Store) personData ppeData frame clock (out : FrameOutput)
         (n1 n2 : list Detection.t) (A B : Detection.t),
    reachable prev ->
    reconcile personData ppeData frame clock = Returns out ->
    newDetections out = n1 ++ B :: n2 ->
    isPerson B = true ->
    In A (detections prev) -> isPerson A = true ->
    duplicates A B = true ->
    exists next,
      processDetections personData ppeData frame clock prev = Returns next
      /\ detections next = filterDuplicatePersons (detections prev ++ n1 ++ n2)
      /\ In A (detections next)
      /\ filter nonPerson (detections next)
         = filter nonPerson (detections prev) ++ filter nonPerson (newDetections out).
Proof.
  intros prev pd ed frame clock out n1 n2 A B Hr Hout Hnew HB HA HAp Hdup.
  exists (commit out prev). unfold processDetections, bind. rewrite Hout.
  split; [reflexivity |]. cbn [commit detections].
  pose proof (reachable_fixed prev Hr) as Hfix.
  assert (HAin : In A (filter isPerson (detections prev))) by (apply filter_In; auto).
  split; [| split].
  - rewrite Hnew, !merge_fixed by exact Hfix.
    rewrite !filter_app. cbn [filter]. rewrite HB.
    unfold nonPerson at 3. rewrite HB. cbn [negb].
    now rewrite (keepInto_drop _ _ _ A B HAin Hdup).
  - rewrite merge_fixed by exact Hfix.
    apply in_or_app. left. now apply keepInto_keeps.
  - now rewrite filterDuplicatePersons_nonPersons, filter_app.
Qed.

(** C1 at the person of [onePerson] seen again at frame 10. *)
Lemma duplicate_person_not_added_witness :
  reachable personStore
  /\ duplicates (personAt 0) (personAt 10) = true
  /\ exists next,
       processDetections (Raw.Body onePerson) (Raw.Body noPpe) 10 clock0 personStore
       = Returns next
       /\ detections next = filterDuplicatePersons (detections personStore ++ [] ++ [])
       /\ In (personAt 0) (detections next)
       /\ filter nonPerson (detections next)
          = filter nonPerson (detections personStore) ++ filter nonPerson [personAt 10].
Proof.
  split; [exact personStore_reachable |]. split; [reflexivity |].
  apply (duplicate_person_not_added personStore (Raw.Body onePerson) (Raw.Body noPpe)
           10%N clock0
           (mkFrame [personAt 10] [] requiredEPIs
                    [alertOf 10 clock0 requiredEPIs (personAt 10) 0])
           [] [] (personAt 0) (personAt 10)).
  - exact personStore_reachable.
  - reflexivity.
  - reflexivity.
  - reflexivity.
  - left. reflexivity.
  - reflexivity.
  - reflexivity.
Defined.

(** C2. The confidence filter of the two loops: an entry whose score is below
    0.5 pushes nothing, an entry whose score is exactly 0.5 pushes its Detection
    (a PPE entry when its label is mapped), and an entry pushes only when its
    score is a number that is at least 0.5; so every new Detection of a call, and
    every Detection of a store the component can hold, has a confidence of at
    least 0.5.  Through a whole call on two response objects: the entry of
    index [index] whose score is at least 0.5 (exactly 0.5 included) has its
    Detection among the new Detections of the call, and in the store after the
    call (a person unless it duplicates a person the store keeps); the only
    Detection the call makes under the id of an entry is the one of that entry,
    and then its score is at least 0.5, so an entry below 0.5 leaves no
    Detection; and the store after the call holds nothing but what it held and
    the new Detections. *)
Theorem confidence_filter :
  (forall frame clock (person : Raw.Person.t) index acc,
      (forall s, Raw.Person.score person = Some s -> (s <? 0.5) = true ->
                 personCallback frame clock person index acc = acc)
      /\ (Raw.Person.score person = Some 0.5 ->
          personCallback frame clock person index acc
          = acc ++ [personDetection frame clock person index])
      /\ (personCallback frame clock person index acc <> acc ->
          exists s, Raw.Person.score person = Some s /\ (0.5 <=? s) = true))
  /\ (forall frame clock (epi : Raw.Ppe.t) index acc,
      (forall s, Raw.Ppe.score epi = Some s -> (s <? 0.5) = true ->
                 epiCallback frame clock epi index acc = acc)
      /\ (forall t, Raw.Ppe.score epi = Some 0.5 ->
                    epiMapping_get (option_map toLowerCase (Raw.Ppe.class_name epi)) = Some t ->
                    epiCallback frame clock epi index acc
                    = (fst acc ++ [epiDetection frame clock epi index
                                                (option_map toLowerCase (Raw.Ppe.class_name epi)) t],
                       Set_add (snd acc) t))
      /\ (epiCallback frame clock epi index acc <> acc ->
          exists s, Raw.Ppe.score epi = Some s /\ (0.5 <=? s) = true))
  /\ (forall personData ppeData frame clock out,
      reconcile personData ppeData frame clock = Returns out ->
      forall d, In d (newDetections out) -> (0.5 <=? Detection.confidence d) = true)
  /\ (forall st : Store,
      reachable st ->
      forall d, In d (detections st) -> (0.5 <=? Detection.confidence d) = true)
  /\ (forall personBody ppeBody frame clock prev,
      exists out next,
        reconcile (Raw.Body personBody) (Raw.Body ppeBody) frame clock = Returns out
        /\ processDetections (Raw.Body personBody) (Raw.Body ppeBody) frame clock prev
           = Returns next
        /\ (forall index person,
              nth_error (personEntries personBody) index = Some person ->
              (forall s, Raw.Person.score person = Some s -> (0.5 <=? s) = true ->
                 In (personDetection frame clock person index) (newDetections out)
                 /\ (In (personDetection frame clock person index) (detections next)
                     \/ exists a,
                          In a (detections next) /\ isPerson a = true
                          /\ duplicates a (personDetection frame clock person index) = true))
              /\ (forall d, In d (newDetections out) ->
                     Detection.id d = History.recordId "person_" frame index ->
                     d = personDetection frame clock person index
                     /\ exists s, Raw.Person.score person = Some s /\ (0.5 <=? s) = true)
              /\ (forall s, Raw.Person.score person = Some s -> (s <? 0.5) = true ->
                     forall d, In d (newDetections out) ->
                               Detection.id d <> History.recordId "person_" frame index))
        /\ (forall index epi,
              nth_error (ppeEntries ppeBody) index = Some epi ->
              let className := option_map toLowerCase (Raw.Ppe.class_name epi) in
              (forall t s, epiMapping_get className = Some t ->
                 Raw.Ppe.score epi = Some s -> (0.5 <=? s) = true ->
                 In (epiDetection frame clock epi index className t) (newDetections out)
                 /\ In (epiDetection frame clock epi index className t) (detections next))
              /\ (forall d, In d (newDetections out) ->
                     Detection.id d = History.recordId "epi_" frame index ->
                     exists t s,
                       epiMapping_get className = Some t
                       /\ d = epiDetection frame clock epi index className t
                       /\ Raw.Ppe.score epi = Some s /\ (0.5 <=? s) = true)
              /\ (forall s, Raw.Ppe.score epi = Some s -> (s <? 0.5) = true ->
                     forall d, In d (newDetections out) ->
                               Detection.id d <> History.recordId "epi_" frame index))
        /\ (forall d, In d (detections next) ->
                      In d (detections prev) \/ In d (newDetections out))).
Proof.
  split; [| split; [| split; [| split]]].
  - intros frame clock person index acc. unfold personCallback. repeat split.
    + intros s Hs Hlt. rewrite Hs, (below_score s Hlt). reflexivity.
    + intros Hs. rewrite Hs. reflexivity.
    + intros Hne. destruct (JS.lt _ _) eqn:E; [congruence |].
      destruct (kept_score _ E) as (n & Hv & _ & Hn). eauto.
  - intros frame clock epi index acc. unfold epiCallback. repeat split.
    + intros s Hs Hlt. rewrite Hs, (below_score s Hlt).
      destruct (epiMapping_get _); reflexivity.
    + intros t Hs Ht. rewrite Ht, Hs. reflexivity.
    + intros Hne. destruct (epiMapping_get _); [| congruence].
      destruct (JS.lt _ _) eqn:E; [congruence |].
      destruct (kept_score _ E) as (n & Hv & _ & Hn). eauto.
  - intros pd ed frame clock out Hout d Hd.
    exact (new_detections_confident _ _ _ _ _ Hout d Hd).
  - intros st Hst d Hd. exact (reachable_confident st Hst d Hd).
  - intros pb eb frame clock prev.
    destruct (reconcile_Body frame clock pb eb) as (out & Hout & Hnew & _).
    exists out, (commit out prev). split; [exact Hout |].
    split; [unfold processDetections, bind; now rewrite Hout |].
    cbn [commit detections].
    assert (Hperson : forall d, In d (newDetections out) -> isPerson d = true ->
              In d (filterDuplicatePersons (detections prev ++ newDetections out))
              \/ exists a,
                   In a (filterDuplicatePersons (detections prev ++ newDetections out))
                   /\ isPerson a = true /\ duplicates a d = true).
    { intros d Hd Hp. apply RetainFacts.kept_or_duplicate; [| exact Hp].
      apply in_or_app. now right. }
    assert (Hother : forall d, In d (newDetections out) -> isPerson d = false ->
              In d (filterDuplicatePersons (detections prev ++ newDetections out))).
    { intros d Hd Hp. apply RetainFacts.other_kept; [| exact Hp].
      apply in_or_app. now right. }
    split; [| split].
    + intros index person Hn.
      assert (Honly : forall d, In d (newDetections out) ->
                Detection.id d = History.recordId "person_" frame index ->
                d = personDetection frame clock person index
                /\ exists s, Raw.Person.score person = Some s /\ (0.5 <=? s) = true).
      { intros d Hd Hid. rewrite Hnew in Hd. apply in_app_or in Hd.
        destruct Hd as [Hd | Hd].
        - exact (RetainFacts.person_pushed_at frame clock _ index person d Hn Hd Hid).
        - elim (RetainFacts.epi_id_not_person frame clock _ _ index d Hd Hid). }
      split; [| split; [exact Honly |]].
      * intros s Hs Hle.
        assert (Hin : In (personDetection frame clock person index) (newDetections out)).
        { rewrite Hnew. apply in_or_app. left.
          exact (RetainFacts.person_kept_pushed frame clock _ index person s Hn Hs Hle). }
        split; [exact Hin |]. apply Hperson; [exact Hin | reflexivity].
      * intros s Hs Hlt d Hd Hid.
        destruct (Honly d Hd Hid) as (_ & s' & Hs' & Hle).
        rewrite Hs in Hs'. inversion Hs'. subst s'.
        exact (OrderFacts.lt_not_le _ _ Hlt Hle).
    + intros index epi Hn.
      set (className := option_map toLowerCase (Raw.Ppe.class_name epi)).
      assert (Honly : forall d, In d (newDetections out) ->
                Detection.id d = History.recordId "epi_" frame index ->
                exists t s,
                  epiMapping_get className = Some t
                  /\ d = epiDetection frame clock epi index className t
                  /\ Raw.Ppe.score epi = Some s /\ (0.5 <=? s) = true).
      { intros d Hd Hid. rewrite Hnew in Hd. apply in_app_or in Hd.
        destruct Hd as [Hd | Hd].
        - elim (RetainFacts.person_id_not_epi frame clock _ _ index d Hd Hid).
        - exact (RetainFacts.epi_pushed_at frame clock _ index epi d Hn Hd Hid). }
      split; [| split; [exact Honly |]].
      * intros t s Ht Hs Hle.
        assert (Hin : In (epiDetection frame clock epi index className t) (newDetections out)).
        { rewrite Hnew. apply in_or_app. right.
          exact (RetainFacts.epi_kept_pushed frame clock _ index epi t s Hn Ht Hs Hle). }
        split; [exact Hin |]. apply Hother; [exact Hin |].
        unfold isPerson. cbn [epiDetection Detection.type].
        exact (epiMapping_not_person _ _ Ht).
      * intros s Hs Hlt d Hd Hid.
        destruct (Honly d Hd Hid) as (t & s' & _ & _ & Hs' & Hle).
        rewrite Hs in Hs'. inversion Hs'. subst s'.
        exact (OrderFacts.lt_not_le _ _ Hlt Hle).
    + intros d Hd. apply filterDuplicatePersons_incl in Hd. now apply in_app_or.
Qed.

(** C2 at a frame with a person of score 0.3 followed by one of score exactly
    0.5, and a mask of score exactly 0.5 followed by one of score 0.3, on the
    empty store: the two entries of score 0.5 are the two Detections of the
    store. *)
Lemma confidence_filter_witness :
  personCallback 0 clock0 faintEntry 0 [] = []
  /\ personCallback 0 clock0 edgeEntry 1 [] = [personDetection 0 clock0 edgeEntry 1]
  /\ exists out next,
       reconcile (Raw.Body edgePersons) (Raw.Body edgePpe) 0 clock0 = Returns out
       /\ processDetections (Raw.Body edgePersons) (Raw.Body edgePpe) 0 clock0 emptyStore
          = Returns next
       /\ detections next
          = [personDetection 0 clock0 edgeEntry 1;
             epiDetection 0 clock0 edgeMask 0 (Some "mask") "mask"]
       /\ In (personDetection 0 clock0 edgeEntry 1) (newDetections out)
       /\ In (epiDetection 0 clock0 edgeMask 0 (Some "mask") "mask") (detections next)
       /\ (forall d, In d (newDetections out) -> Detection.id d <> "person_0_0")
       /\ (forall d, In d (newDetections out) -> Detection.id d <> "epi_0_1").
Proof.
  destruct confidence_filter as (Hp & _ & _ & _ & Hcall).
  split; [| split].
  - destruct (Hp 0%N clock0 faintEntry 0%nat []) as (H & _ & _).
    apply (H 0.3); reflexivity.
  - destruct (Hp 0%N clock0 edgeEntry 1%nat []) as (_ & H & _).
    apply H. reflexivity.
  - destruct (Hcall edgePersons edgePpe 0%N clock0 emptyStore)
      as (out & next & Hout & Hnext & Hper & Hepi & _).
    exists out, next. split; [exact Hout |]. split; [exact Hnext |].
    split.
    { assert (E : processDetections (Raw.Body edgePersons) (Raw.Body edgePpe) 0 clock0
                                    emptyStore
                  = Returns (mkStore [personDetection 0 clock0 edgeEntry 1;
                                      epiDetection 0 clock0 edgeMask 0 (Some "mask") "mask"]
                                     [alertOf 0 clock0 ["glasses"; "hearing"]
                                              (personDetection 0 clock0 edgeEntry 1) 0]))
        by (vm_compute; reflexivity).
      rewrite E in Hnext. inversion Hnext. reflexivity. }
    destruct (Hper 1%nat edgeEntry eq_refl) as (Hkept & _ & _).
    destruct (Hper 0%nat faintEntry eq_refl) as (_ & _ & Hfaint).
    destruct (Hepi 0%nat edgeMask eq_refl) as (Hmask & _ & _).
    destruct (Hepi 1%nat faintMask eq_refl) as (_ & _ & Hfm).
    split; [exact (proj1 (Hkept 0.5 eq_refl eq_refl)) |].
    split; [exact (proj2 (Hmask "mask" 0.5 eq_refl eq_refl eq_refl)) |].
    split.
    + exact (Hfaint 0.3 eq_refl eq_refl).
    + exact (Hfm 0.3 eq_refl eq_refl).
Defined.

(** C3. The alerts of one call: none when no required class is missing;
    otherwise one per person of the frame, in the order of the persons, each
    carrying the id of its person, so no two alerts of the call are about the same
    person.  The severity is [medium] when one class is missing and [high] when
    two or more are; [low] is never produced. *)
Theorem alert_per_person :
  forall personData ppeData frame clock out,
    reconcile personData ppeData frame clock = Returns out ->
    (missingEPIs out = [] -> frameAlerts out = [])
    /\ (missingEPIs out <> [] ->
        map Alert.personId (frameAlerts out)
        = map Detection.id (filter isPerson (newDetections out)))
    /\ NoDup (map Alert.personId (frameAlerts out))
    /\ (forall a, In a (frameAlerts out) ->
          missingEPIs out <> []
          /\ Alert.missingEPIs a = map epiLabel (missingEPIs out)
          /\ (List.length (missingEPIs out) = 1%nat -> Alert.severity a = medium)
          /\ (2 <= List.length (missingEPIs out) -> Alert.severity a = high)%nat
          /\ Alert.severity a <> low).
Proof.
  intros pd ed frame clock out Hout.
  destruct (reconcile_inv _ _ _ _ _ Hout) as (pb & eb & -> & -> & _ & Hal).
  pose proof (personsInFrame_eq _ _ _ _ _ Hout) as Hpersons.
  split; [| split; [| split]].
  - intros Hm. rewrite Hal, Hm. apply collect_from_nil. reflexivity.
  - intros Hm. rewrite Hal. now apply alertPush_ids.
  - destruct (missingEPIs out) as [| m ms] eqn:Hm.
    + rewrite Hal, collect_from_nil by reflexivity. constructor.
    + rewrite Hal, alertPush_ids by discriminate.
      rewrite Hpersons. apply person_ids_NoDup.
  - intros a Ha. rewrite Hal in Ha. apply alertPush_In in Ha.
    destruct Ha as (Hm & p & k & ->). split; [exact Hm |].
    cbn [alertOf Alert.missingEPIs Alert.severity]. split; [reflexivity |].
    destruct (missingEPIs out) as [| m1 [| m2 ms]]; [congruence | |];
      cbn [List.length Nat.leb]; repeat split; intros; try lia; try reflexivity;
      discriminate.
Qed.

(** C3 at [onePerson] with [oneMask]. *)
Lemma alert_per_person_witness :
  exists out,
    reconcile (Raw.Body onePerson) (Raw.Body oneMask) 0 clock0 = Returns out
    /\ (missingEPIs out = [] -> frameAlerts out = [])
    /\ (missingEPIs out <> [] ->
        map Alert.personId (frameAlerts out)
        = map Detection.id (filter isPerson (newDetections out)))
    /\ NoDup (map Alert.personId (frameAlerts out))
    /\ (forall a, In a (frameAlerts out) ->
          missingEPIs out <> []
          /\ Alert.missingEPIs a = map epiLabel (missingEPIs out)
          /\ (List.length (missingEPIs out) = 1%nat -> Alert.severity a = medium)
          /\ (2 <= List.length (missingEPIs out) -> Alert.severity a = high)%nat
          /\ Alert.severity a <> low).
Proof.
  eexists. split; [reflexivity |].
  apply (alert_per_person (Raw.Body onePerson) (Raw.Body oneMask) 0%N clock0).
  reflexivity.
Defined.

(** C4. When the person response has no [predictions[0].persons] entries and
    the PPE response no [predictions[0].ppe_detections] entries (a field on the
    path absent, or the array empty), the call returns, with no new Detection and
    no new Alert: the alerts are the stored ones, the detections the stored ones
    filtered again, which for a store the component can hold are the stored ones
    as they are. *)
Theorem empty_payload_adds_nothing :
  forall (personBody : option (list Raw.personPrediction))
         (ppeBody : option (list Raw.ppePrediction)) frame clock (prev : Store),
    (Raw.persons_of (Raw.Body personBody) = Returns None
     \/ Raw.persons_of (Raw.Body personBody) = Returns (Some [])) ->
    (Raw.ppe_detections_of (Raw.Body ppeBody) = Returns None
     \/ Raw.ppe_detections_of (Raw.Body ppeBody) = Returns (Some [])) ->
    (exists out,
        reconcile (Raw.Body personBody) (Raw.Body ppeBody) frame clock = Returns out
        /\ newDetections out = [] /\ frameAlerts out = [])
    /\ processDetections (Raw.Body personBody) (Raw.Body ppeBody) frame clock prev
       = Returns (mkStore (filterDuplicatePersons (detections prev)) (alerts prev))
    /\ (reachable prev ->
        processDetections (Raw.Body personBody) (Raw.Body ppeBody) frame clock prev
        = Returns prev).
Proof.
  intros pb eb frame clock prev Hp He.
  assert (Hout : reconcile (Raw.Body pb) (Raw.Body eb) frame clock
                 = Returns (mkFrame [] [] requiredEPIs [])).
  { unfold reconcile, bind.
    destruct Hp as [-> | ->], He as [-> | ->]; reflexivity. }
  assert (Hproc : processDetections (Raw.Body pb) (Raw.Body eb) frame clock prev
                  = Returns (mkStore (filterDuplicatePersons (detections prev)) (alerts prev))).
  { unfold processDetections, bind. rewrite Hout. unfold commit.
    cbn [newDetections frameAlerts]. now rewrite !app_nil_r. }
  split; [| split].
  - eexists. split; [exact Hout | split; reflexivity].
  - exact Hproc.
  - intros Hr. rewrite Hproc, (reachable_fixed prev Hr). now destruct prev.
Qed.

(** C4 at a person response without [predictions] and a PPE response with an
    empty [ppe_detections], on the store [onePerson] left. *)
Lemma empty_payload_adds_nothing_witness :
  Raw.persons_of (Raw.Body noPersons) = Returns None
  /\ Raw.ppe_detections_of (Raw.Body emptyPpe) = Returns (Some [])
  /\ (exists out,
        reconcile (Raw.Body noPersons) (Raw.Body emptyPpe) 10 clock0 = Returns out
        /\ newDetections out = [] /\ frameAlerts out = [])
  /\ processDetections (Raw.Body noPersons) (Raw.Body emptyPpe) 10 clock0 personStore
     = Returns (mkStore (filterDuplicatePersons (detections personStore))
                        (alerts personStore))
  /\ (reachable personStore ->
      processDetections (Raw.Body noPersons) (Raw.Body emptyPpe) 10 clock0 personStore
      = Returns personStore).
Proof.
  split; [reflexivity |]. split; [reflexivity |].
  apply (empty_payload_adds_nothing noPersons emptyPpe 10%N clock0 personStore).
  - left. reflexivity.
  - right. reflexivity.
Defined.

(** A [null] response body makes the call throw, before any state is set. *)
Lemma null_payload_throws :
  forall (personData : Raw.response Raw.personPrediction)
         (ppeData : Raw.response Raw.ppePrediction) frame clock prev,
    personData = Raw.Null \/ ppeData = Raw.Null ->
    processDetections personData ppeData frame clock prev = Throws TypeError.
Proof.
  intros pd ed frame clock prev [-> | ->]; [reflexivity |].
  destruct pd; reflexivity.
Qed.

(** C5. One person of score 0.9 at box [10, 10, 50, 90] and one [mask] of score
    0.8, with the required classes mask, glasses and hearing: the call derives one
    alert, for that person, with glasses and hearing missing (the alert carries
    their labels) and severity [high]. *)
Theorem scenario_mask_only :
  forall frame clock,
  exists out,
    reconcile (Raw.Body onePerson) (Raw.Body oneMask) frame clock = Returns out
    /\ requiredEPIs = ["mask"; "glasses"; "hearing"]
    /\ detectedEPIClasses out = [Str "mask"]
    /\ missingEPIs out = ["glasses"; "hearing"]
    /\ frameAlerts out
       = [ Alert.mk ("alert_" ++ show frame ++ "_0")%string
                    ("person_" ++ show frame ++ "_0")%string
                    [epiLabel "glasses"; epiLabel "hearing"]
                    high frame (clock AtAlert 0%nat) ]
    /\ forall prev,
         exists next,
           processDetections (Raw.Body onePerson) (Raw.Body oneMask) frame clock prev
           = Returns next
           /\ alerts next = alerts prev ++ frameAlerts out.
Proof.
  intros frame clock. eexists. split; [reflexivity |].
  repeat split.
  intros prev. eexists. split; reflexivity.
Qed.

(** C6, as stated, fails on both components.  With no person detection a
    class has no rate at all, not a rate of 0: the store a frame with one mask
    leaves gives the empty object.  And a rate, when there is one, is the
    formatted string, not the number: one mask for three persons gives ["33.3"]
    for the number 33.33333333333333. *)
Lemma zero_persons_no_rate :
  reachable maskStore
  /\ countByType "person" (detections maskStore) = 0%nat
  /\ countByType "mask" (detections maskStore) = 1%nat
  /\ ComplianceRatesCard.getComplianceRates (detections maskStore) = []
  /\ AlertDashboard.getComplianceRates (detections maskStore) = []
  /\ get (ComplianceRatesCard.getComplianceRates (detections maskStore)) "mask" = None
  /\ get (ComplianceRatesCard.getComplianceRates (detections maskStore)) "mask"
     <> Some (toFixed1 0)
  /\ (exists st,
        processDetections (Raw.Body threePersons) (Raw.Body oneMask) 0 clock0 emptyStore
        = Returns st
        /\ countByType "person" (detections st) = 3%nat
        /\ countByType "mask" (detections st) = 1%nat
        /\ get (ComplianceRatesCard.getComplianceRates (detections st)) "mask"
           = Some "33.3")
  /\ Math_min 100 (of_length 1 / of_length 3 * 100) = 33.33333333333333.
Proof.
  split; [exact maskStore_reachable |].
  repeat split; try reflexivity; try discriminate.
  eexists. split; [vm_compute; reflexivity |]. repeat split.
Qed.

(** C6, amended.  With no person detection [getComplianceRates] returns the
    empty object: no class has a rate and nothing is divided.  With at least one,
    every class of the component's vocabulary has the rate
    [Math.min(100, count / persons * 100)] formatted by [toFixed(1)]. *)
Theorem compliance_rates :
  forall detections : list Detection.t,
    let persons := countByType "person" detections in
    let formatted (c : string) :=
      toFixed1 (Math_min 100 (of_length (countByType c detections) / of_length persons * 100)) in
    (persons = 0%nat ->
     ComplianceRatesCard.getComplianceRates detections = []
     /\ AlertDashboard.getComplianceRates detections = []
     /\ forall c, get (ComplianceRatesCard.getComplianceRates detections) c = None
                  /\ get (AlertDashboard.getComplianceRates detections) c = None)
    /\ (persons <> 0%nat ->
        (forall c, In c ["hat"; "mask"; "gloves"; "glasses"; "boots"; "hearing"] ->
                   get (ComplianceRatesCard.getComplianceRates detections) c
                   = Some (formatted c))
        /\ (forall c, In c ["mask"; "gloves"; "goggles"; "coverall"; "face_Shield"] ->
                      get (AlertDashboard.getComplianceRates detections) c
                      = Some (formatted c))).
Proof.
  intros detections persons formatted.
  unfold ComplianceRatesCard.getComplianceRates, AlertDashboard.getComplianceRates.
  fold persons. split.
  - intros ->. cbn. auto.
  - intros Hp. apply Nat.eqb_neq in Hp. rewrite Hp. split; intros c Hc;
      cbn [In] in Hc;
      repeat (destruct Hc as [<- | Hc]; [reflexivity |]); contradiction.
Qed.

(** C6, amended, at the store one mask leaves and at a list of one person and
    one mask. *)
Lemma compliance_rates_witness :
  ComplianceRatesCard.getComplianceRates (detections maskStore) = []
  /\ get (ComplianceRatesCard.getComplianceRates [personAt 0; maskAt 0]) "mask"
     = Some (toFixed1 (Math_min 100 (of_length 1 / of_length 1 * 100)))
  /\ toFixed1 (Math_min 100 (of_length 1 / of_length 1 * 100)) = "100.0"%string.
Proof.
  split; [| split].
  - destruct (compliance_rates (detections maskStore)) as [H _].
    apply H. reflexivity.
  - destruct (compliance_rates [personAt 0; maskAt 0]) as [_ H].
    destruct H as [H _]; [discriminate |].
    apply (H "mask"%string). right. left. reflexivity.
  - reflexivity.
Defined.

(** C7, as stated, fails: the filter puts the persons first.  A frame with a
    mask and then a frame with a person leave the new person before the stored
    mask. *)
Lemma new_person_precedes_stored_mask :
  exists prev next,
    reachable prev
    /\ detections prev = [maskAt 0]
    /\ processDetections (Raw.Body onePerson) (Raw.Body noPpe) 10 clock0 prev = Returns next
    /\ detections next = [personAt 10; maskAt 0]
    /\ ~ (exists added, detections next = detections prev ++ added).
Proof.
  exists maskStore. eexists.
  split; [exact maskStore_reachable |].
  split; [reflexivity |].
  split; [vm_compute; reflexivity |].
  split; [reflexivity |].
  cbn [detections maskStore]. intros (added & H). discriminate H.
Qed.

(** C7, amended.  After a call the detections are the persons, then the
    others.  In each of the two groups the stored detections come first, all of
    them and in their order, followed by the new ones in their order: the new
    persons that survive the filter, and all the new other detections. *)
Theorem merge_keeps_order_by_group :
  forall (prev : Store) personData ppeData frame clock (next : Store),
    reachable prev ->
    processDetections personData ppeData frame clock prev = Returns next ->
    exists out addedPersons,
      reconcile personData ppeData frame clock = Returns out
      /\ subseq addedPersons (filter isPerson (newDetections out))
      /\ detections next
         = (filter isPerson (detections prev) ++ addedPersons)
           ++ (filter nonPerson (detections prev) ++ filter nonPerson (newDetections out))
      /\ detections prev
         = filter isPerson (detections prev) ++ filter nonPerson (detections prev).
Proof.
  intros prev pd ed frame clock next Hr H.
  destruct (processDetections_inv _ _ _ _ _ _ H) as (out & Hout & ->).
  pose proof (reachable_fixed prev Hr) as Hfix.
  destruct (keepInto_subseq (filter isPerson (newDetections out))
                            (filter isPerson (detections prev))) as (added & Hk & Hs).
  exists out, added. split; [exact Hout |]. split; [exact Hs |]. split.
  - cbn [commit detections]. rewrite (merge_fixed _ _ Hfix), Hk. reflexivity.
  - now apply fixed_split.
Qed.

(** C7, amended, at the store one mask leaves and a frame with [onePerson]. *)
Lemma merge_keeps_order_by_group_witness :
  reachable maskStore
  /\ exists out addedPersons,
       reconcile (Raw.Body onePerson) (Raw.Body noPpe) 10 clock0 = Returns out
       /\ subseq addedPersons (filter isPerson (newDetections out))
       /\ [personAt 10; maskAt 0]
          = (filter isPerson (detections maskStore) ++ addedPersons)
            ++ (filter nonPerson (detections maskStore)
                ++ filter nonPerson (newDetections out))
       /\ detections maskStore
          = filter isPerson (detections maskStore) ++ filter nonPerson (detections maskStore).
Proof.
  split; [exact maskStore_reachable |].
  apply (merge_keeps_order_by_group maskStore (Raw.Body onePerson) (Raw.Body noPpe)
           10%N clock0
           (mkStore [personAt 10; maskAt 0]
                    [alertOf 10 clock0 requiredEPIs (personAt 10) 0])).
  - exact maskStore_reachable.
  - vm_compute. reflexivity.
Defined.

(** C8, as stated, fails: a cycle counts its miss before it calls
    [processDetections], and tests the counter after the call.  When the PPE
    detector answers [null] the call throws and the test is skipped: five
    cycles in a row without a person, the counter at five, and the loop still
    runs. *)
Lemma null_ppe_misses_keep_running :
  analysing started
  /\ Forall missed [nullPpeReplies; nullPpeReplies; nullPpeReplies; nullPpeReplies;
                    nullPpeReplies]
  /\ isRealtime (runOn [nullPpeReplies; nullPpeReplies; nullPpeReplies; nullPpeReplies;
                        nullPpeReplies] started) = true
  /\ timer (runOn [nullPpeReplies; nullPpeReplies; nullPpeReplies; nullPpeReplies;
                   nullPpeReplies] started) = true
  /\ missedFrames (runOn [nullPpeReplies; nullPpeReplies; nullPpeReplies; nullPpeReplies;
                          nullPpeReplies] started) = 5%nat
  /\ phase (runOn [nullPpeReplies; nullPpeReplies; nullPpeReplies; nullPpeReplies;
                   nullPpeReplies] started) = Analyzing
  /\ ~ stopped (runOn [nullPpeReplies; nullPpeReplies; nullPpeReplies; nullPpeReplies;
                       nullPpeReplies] started).
Proof.
  split; [now apply startRealtime_analysing |].
  split; [repeat constructor |].
  split; [reflexivity |]. split; [reflexivity |]. split; [reflexivity |].
  split; [reflexivity |]. intros (H & _). discriminate H.
Qed.

(** C8, amended.  In a session that is analysing, five cycles in a row without
    a person of score at least 0.6, in each of which the PPE detector answered
    with an object (so that the call of [processDetections] returns), stop the
    loop: the interval is cancelled and the session is back to the camera being
    ready, whatever the counter was.  From a counter of zero fewer than five
    such misses leave the loop running, and a cycle with such a person sets the
    counter back to zero, whatever the PPE detector answered.  Misses whose
    PPE response is [null] are counted but never stop the loop, however many
    they are. *)
Theorem five_misses_stop :
  (forall (s : Session) (replies : list Replies),
      analysing s -> Forall missed replies -> Forall answered replies ->
      List.length replies = 5%nat ->
      stopped (runOn replies s) /\ phase (runOn replies s) = CameraReady)
  /\ (forall (s : Session) (replies : list Replies),
      analysing s -> missedFrames s = 0%nat ->
      Forall missed replies -> Forall answered replies ->
      (List.length replies < 5)%nat ->
      analysing (runOn replies s) /\ phase (runOn replies s) = Analyzing
      /\ missedFrames (runOn replies s) = List.length replies)
  /\ (forall (s : Session) (r : Replies),
      analysing s -> found r ->
      missedFrames (tickOn s r) = 0%nat /\ phase (tickOn s r) = Analyzing)
  /\ (forall (s : Session) (replies : list Replies),
      analysing s -> Forall missed replies ->
      Forall (fun r => ppeReply r = Raw.Null) replies ->
      analysing (runOn replies s) /\ phase (runOn replies s) = Analyzing
      /\ missedFrames (runOn replies s) = (missedFrames s + List.length replies)%nat
      /\ store (runOn replies s) = store s).
Proof.
  split; [| split; [| split]].
  - intros s replies Hs Hall Hans Hlen.
    destruct (runOn_misses replies s Hs Hall Hans) as [_ H].
    assert (Hst : stopped (runOn replies s)).
    { apply H; [unfold MAX_MISSED_FRAMES; lia |]. intros ->. discriminate. }
    split; [exact Hst |]. destruct Hst as (Hr & Ht & Hc).
    unfold phase. now rewrite Hr, Hc.
  - intros s replies Hs H0 Hall Hans Hlen.
    destruct (runOn_misses replies s Hs Hall Hans) as [H _].
    destruct H as [Ha Hm]; [unfold MAX_MISSED_FRAMES; lia |].
    split; [exact Ha |]. split; [| lia].
    destruct Ha as (Hr & Ht & _). unfold phase. now rewrite Hr, Ht.
  - intros s r Hs Hr. destruct (tickOn_found s r Hs Hr) as [Ha Hm].
    split; [exact Hm |]. destruct Ha as (Hr' & Ht & _). unfold phase. now rewrite Hr', Ht.
  - intros s replies Hs Hall Hnull.
    destruct (runOn_thrown replies s Hs Hall Hnull) as (Ha & Hm & Hst).
    split; [exact Ha |]. split; [| split; [exact Hm | exact Hst]].
    destruct Ha as (Hr & Ht & _). unfold phase. now rewrite Hr, Ht.
Qed.

(** C8, amended, at a session that has just started: five cycles without
    persons whose PPE response is an object, one cycle with [onePerson], and
    six cycles without persons whose PPE response is [null]. *)
Lemma five_misses_stop_witness :
  analysing started
  /\ Forall missed [emptyReplies; emptyReplies; emptyReplies; emptyReplies; emptyReplies]
  /\ Forall answered [emptyReplies; emptyReplies; emptyReplies; emptyReplies; emptyReplies]
  /\ found personReplies
  /\ stopped (runOn [emptyReplies; emptyReplies; emptyReplies; emptyReplies; emptyReplies]
                    started)
  /\ phase (runOn [emptyReplies; emptyReplies; emptyReplies; emptyReplies; emptyReplies]
                  started)
     = CameraReady
  /\ missedFrames (tickOn started personReplies) = 0%nat
  /\ analysing (runOn [nullPpeReplies; nullPpeReplies; nullPpeReplies; nullPpeReplies;
                       nullPpeReplies; nullPpeReplies] started)
  /\ missedFrames (runOn [nullPpeReplies; nullPpeReplies; nullPpeReplies; nullPpeReplies;
                          nullPpeReplies; nullPpeReplies] started) = 6%nat.
Proof.
  assert (Ha : analysing started) by (now apply startRealtime_analysing).
  assert (Hm : Forall missed [emptyReplies; emptyReplies; emptyReplies; emptyReplies;
                              emptyReplies])
    by (repeat constructor).
  assert (Hb : Forall answered [emptyReplies; emptyReplies; emptyReplies; emptyReplies;
                                emptyReplies])
    by (repeat constructor; eexists; reflexivity).
  assert (Hh : found personReplies) by (eexists; eexists; reflexivity).
  destruct five_misses_stop as (H5 & _ & Hhit & Hnull).
  split; [exact Ha |]. split; [exact Hm |]. split; [exact Hb |]. split; [exact Hh |].
  split; [apply (H5 started _ Ha Hm Hb eq_refl) |].
  split; [apply (H5 started _ Ha Hm Hb eq_refl) |].
  split; [apply (Hhit started personReplies Ha Hh) |].
  destruct (Hnull started
              [nullPpeReplies; nullPpeReplies; nullPpeReplies; nullPpeReplies;
               nullPpeReplies; nullPpeReplies] Ha) as (H1 & _ & H3 & _).
  - repeat constructor.
  - repeat constructor.
  - split; [exact H1 | exact H3].
Defined.

(** C9. Alerts are derived from the persons of the frame before the filter
    runs, and are only ever appended.  Two frames with the same person and no
    PPE leave one person Detection and two Alerts: the second alert names a
    person that is not in the store. *)
Theorem alerts_outlive_duplicates :
  (forall personData ppeData frame clock prev next,
      processDetections personData ppeData frame clock prev = Returns next ->
      exists out,
        reconcile personData ppeData frame clock = Returns out
        /\ alerts next = alerts prev ++ frameAlerts out
        /\ (missingEPIs out <> [] ->
            map Alert.personId (frameAlerts out)
            = map Detection.id (filter isPerson (newDetections out))))
  /\ exists s1 s2 a,
       processDetections (Raw.Body onePerson) (Raw.Body noPpe) 0 clock0 emptyStore
       = Returns s1
       /\ processDetections (Raw.Body onePerson) (Raw.Body noPpe) 10 clock0 s1
          = Returns s2
       /\ In a (alerts s2)
       /\ (forall d, In d (detections s2) -> Detection.id d <> Alert.personId a)
       /\ List.length (filter isPerson (detections s2)) = 1%nat
       /\ List.length (alerts s2) = 2%nat.
Proof.
  split.
  - intros pd ed frame clock prev next H.
    destruct (processDetections_inv _ _ _ _ _ _ H) as (out & Hout & ->).
    exists out. split; [exact Hout |]. split; [reflexivity |].
    apply (frame_alert_ids _ _ _ _ _ Hout).
  - eexists. eexists. eexists.
    split; [vm_compute; reflexivity |].
    split; [vm_compute; reflexivity |].
    split; [right; left; reflexivity |].
    split; [| split; reflexivity].
    intros d [<- | []]. cbn [Detection.id Alert.personId]. discriminate.
Qed.

(** C10. A person detection with a zero side (its area is zero) is never
    dropped as a duplicate: its ratio is NaN against every rectangle, which is
    not above 0.7, so the loop appends it, and it is in the store after the call
    that produced it.  An entry with neither a box nor [w] and [h] gives such a
    detection, and two identical ones are both kept. *)
Theorem zero_area_never_duplicate :
  (forall f p : Detection.t,
      is_zero (Detection.w p) = true \/ is_zero (Detection.h p) = true ->
      is_nan (iou f p) = true /\ duplicates f p = false)
  /\ (forall (p : Detection.t) (index : nat) (filtered : list Detection.t),
      is_zero (Detection.w p) = true \/ is_zero (Detection.h p) = true ->
      keepCallback p index filtered = filtered ++ [p])
  /\ (forall frame clock (person : Raw.Person.t) index,
      Raw.Person.box person = None -> Raw.Person.w person = None -> Raw.Person.h person = None ->
      Detection.w (personDetection frame clock person index) = 0
      /\ Detection.h (personDetection frame clock person index) = 0)
  /\ (forall (prev : Store) personData ppeData frame clock (next : Store) out n1 n2 B,
      processDetections personData ppeData frame clock prev = Returns next ->
      reconcile personData ppeData frame clock = Returns out ->
      newDetections out = n1 ++ B :: n2 ->
      isPerson B = true ->
      is_zero (Detection.w B) = true \/ is_zero (Detection.h B) = true ->
      In B (detections next))
  /\ (forall p : Detection.t,
      isPerson p = true ->
      is_zero (Detection.w p) = true \/ is_zero (Detection.h p) = true ->
      filterDuplicatePersons [p; p] = [p; p]).
Proof.
  assert (Hkeep : forall (p : Detection.t) (index : nat) (filtered : list Detection.t),
             is_zero (Detection.w p) = true \/ is_zero (Detection.h p) = true ->
             keepCallback p index filtered = filtered ++ [p]).
  { intros p index filtered Hz. unfold keepCallback.
    assert (E : existsb (fun f => duplicates f p) filtered = false).
    { apply not_true_is_false. intros E. apply existsb_exists in E.
      destruct E as (f & _ & Hf). rewrite (zero_side_not_duplicate f p Hz) in Hf.
      discriminate. }
    now rewrite E. }
  split; [| split; [| split; [| split]]].
  - intros f p Hz. split; [now apply iou_zero_side | now apply zero_side_not_duplicate].
  - exact Hkeep.
  - intros frame clock person index Hb Hw Hh.
    cbn [personDetection Detection.w Detection.h]. rewrite Hb, Hw, Hh. split; reflexivity.
  - intros prev pd ed frame clock next out n1 n2 B Hp Hout Hnew HB Hz.
    destruct (processDetections_inv _ _ _ _ _ _ Hp) as (out' & Hout' & ->).
    rewrite Hout in Hout'. inversion Hout'. subst out'.
    cbn [commit detections]. rewrite filterDuplicatePersons_eq.
    apply in_or_app. left. rewrite Hnew, !filter_app. cbn [filter]. rewrite HB.
    rewrite app_assoc.
    rewrite (keepInto_push _ _ _ B (fun f => zero_side_not_duplicate f B Hz)).
    apply keepInto_keeps. apply in_or_app. right. now left.
  - intros p Hp Hz. unfold filterDuplicatePersons, forEach.
    cbn [filter]. rewrite Hp. cbn [negb forEach_from].
    now rewrite !Hkeep by exact Hz.
Qed.

(** C10 at the Detection of an entry with neither a box nor [w] and [h]: against
    the person of [onePerson], against itself, and seen at two frames. *)
Lemma zero_area_never_duplicate_witness :
  personDetection 10 clock0 bareEntry 0 = bareAt 10
  /\ is_zero (Detection.w (bareAt 10)) = true
  /\ duplicates (personAt 0) (bareAt 10) = false
  /\ filterDuplicatePersons [bareAt 10; bareAt 10] = [bareAt 10; bareAt 10]
  /\ exists s1 s2,
       processDetections (Raw.Body barePerson) (Raw.Body noPpe) 0 clock0 emptyStore
       = Returns s1
       /\ processDetections (Raw.Body barePerson) (Raw.Body noPpe) 10 clock0 s1
          = Returns s2
       /\ detections s2 = [bareAt 0; bareAt 10]
       /\ In (bareAt 10) (detections s2).
Proof.
  destruct zero_area_never_duplicate as (H1 & _ & _ & H4 & H5).
  split; [reflexivity |]. split; [reflexivity |]. split; [| split].
  - apply (H1 (personAt 0) (bareAt 10)). left. reflexivity.
  - apply (H5 (bareAt 10)); [reflexivity | left; reflexivity].
  - exists (mkStore [bareAt 0] [alertOf 0 clock0 requiredEPIs (bareAt 0) 0]).
    exists (mkStore [bareAt 0; bareAt 10]
                    [alertOf 0 clock0 requiredEPIs (bareAt 0) 0;
                     alertOf 10 clock0 requiredEPIs (bareAt 10) 0]).
    split; [vm_compute; reflexivity |].
    split; [vm_compute; reflexivity |].
    split; [reflexivity |].
    apply (H4 (mkStore [bareAt 0] [alertOf 0 clock0 requiredEPIs (bareAt 0) 0])
              (Raw.Body barePerson) (Raw.Body noPpe) 10%N clock0 _
              (mkFrame [bareAt 10] [] requiredEPIs
                       [alertOf 10 clock0 requiredEPIs (bareAt 10) 0])
              [] [] (bareAt 10)).
    + vm_compute. reflexivity.
    + reflexivity.
    + reflexivity.
    + reflexivity.
    + left. reflexivity.
Defined.

(* ================================================================== *)
(** * Further properties of the components *)
(* ================================================================== *)

Import History StoreFacts MoreSamples.

(** X1. The type of every Detection of a store the component can hold is one
    of the seven values of [Detection['type']], or one of the two members of
    [Object.prototype] a lower-case key can name, [constructor] and
    [__proto__]: [epiMapping[className]] reads inherited properties too, and
    they are truthy.  A person carries no [className]; any other Detection
    carries the lower-cased label of its entry, and its type is what
    [epiMapping] gives for that label; a type that is an inherited member is
    the one its [className] names.  An entry so labelled, of score 0.5 or
    more, does push such a Detection. *)
Theorem stored_detection_types :
  (forall st : Store,
      reachable st ->
      forall d, In d (detections st) ->
        (In (Detection.type d) detectionTypes \/ In (Detection.type d) inheritedTypes)
        /\ (isPerson d = true -> Detection.className d = None)
        /\ (isPerson d = false ->
            exists label,
              Detection.className d = Some (toLowerCase label)
              /\ epiMapping_get (Detection.className d) = Some (Detection.type d))
        /\ (forall name, Detection.type d = Member name ->
                         Detection.className d = Some name))
  /\ (forall frame clock (epi : Raw.Ppe.t) index acc (label : string) (s : float),
        Raw.Ppe.class_name epi = Some label ->
        toLowerCase label = "constructor" \/ toLowerCase label = "__proto__" ->
        Raw.Ppe.score epi = Some s -> (0.5 <=? s) = true ->
        epiCallback frame clock epi index acc
        = (fst acc ++ [epiDetection frame clock epi index (Some (toLowerCase label))
                                    (Member (toLowerCase label))],
           Set_add (snd acc) (Member (toLowerCase label)))).
Proof.
  split.
  - apply (reachable_detections
             (fun d =>
                (In (Detection.type d) detectionTypes
                 \/ In (Detection.type d) inheritedTypes)
                /\ (isPerson d = true -> Detection.className d = None)
                /\ (isPerson d = false ->
                    exists label,
                      Detection.className d = Some (toLowerCase label)
                      /\ epiMapping_get (Detection.className d) = Some (Detection.type d))
                /\ (forall name, Detection.type d = Member name ->
                                 Detection.className d = Some name))).
    intros pd ed frame clock out d Hout Hd.
    destruct (newDetections_In _ _ _ _ _ _ Hout Hd)
      as [(p & k & -> & _) | (e & k & t & -> & Ht & _)].
    + split; [left; now left |]. split; [reflexivity |].
      split; [discriminate |]. intros name H. discriminate H.
    + cbn [epiDetection Detection.type Detection.className].
      destruct (epiMapping_types _ _ Ht) as (Hin & l & Hl).
      split; [destruct (epiMapping_lower _ _ Ht) as [H | [H _]]; auto |]. split.
      * unfold isPerson. cbn [epiDetection Detection.type].
        rewrite (epiMapping_not_person _ _ Ht). discriminate.
      * split.
        -- intros _. destruct (Raw.Ppe.class_name e) as [label |]; [| discriminate Hl].
           exists label. split; [reflexivity | exact Ht].
        -- intros name ->. destruct Hin as [Hin | (name' & Hk & _ & E)].
           ++ unfold detectionTypes in Hin. cbn [In] in Hin.
              repeat (destruct Hin as [Hin | Hin]; [discriminate Hin |]). contradiction.
           ++ inversion E. now subst name'.
  - intros frame clock epi index acc label s Hl Hk Hs Hle.
    unfold epiCallback. rewrite Hl, Hs. cbn [option_map].
    rewrite (OrderFacts.score_kept s Hle).
    destruct Hk as [-> | ->]; reflexivity.
Qed.

(** X1 at the mask of the store [oneMask] leaves; at a frame with the labels
    [Constructor] and [__PROTO__]; and at a mask spelt with the Kelvin sign. *)
Lemma stored_detection_types_witness :
  reachable maskStore
  /\ In (maskAt 0) (detections maskStore)
  /\ In (Detection.type (maskAt 0)) detectionTypes
  /\ (exists label,
        Detection.className (maskAt 0) = Some (toLowerCase label)
        /\ epiMapping_get (Detection.className (maskAt 0)) = Some (Detection.type (maskAt 0)))
  /\ processDetections (Raw.Body noPersons) (Raw.Body inheritedPpe) 0 clock0 emptyStore
     = Returns (mkStore [memberAt 0 "constructor"; memberAt 1 "__proto__"] [])
  /\ epiCallback 0 clock0 (Raw.Ppe.mk (Some "Constructor") (Some 0.9) None None) 0 ([], [])
     = ([memberAt 0 "constructor"], [Member "constructor"])
  /\ processDetections (Raw.Body noPersons) (Raw.Body kelvinMask) 0 clock0 emptyStore
     = Returns maskStore.
Proof.
  destruct stored_detection_types as [H1 H2].
  split; [exact maskStore_reachable |]. split; [now left |].
  destruct (H1 maskStore maskStore_reachable (maskAt 0)) as (Ht & _ & Hc & _); [now left |].
  split; [destruct Ht as [Ht | Ht]; [exact Ht |];
          cbn in Ht; destruct Ht as [Ht | [Ht | []]]; discriminate Ht |].
  split; [apply Hc; reflexivity |].
  split; [vm_compute; reflexivity |]. split; [| vm_compute; reflexivity].
  exact (H2 0%N clock0 (Raw.Ppe.mk (Some "Constructor") (Some 0.9) None None) 0%nat ([], [])
            "Constructor" 0.9 eq_refl (or_introl eq_refl) eq_refl eq_refl).
Defined.

(** X2. A required class is reported missing exactly when the frame has no
    Detection of that class; the stored detections play no part.  So a frame
    that has a mask, glasses and a hearing protector raises no alert, whatever
    else it shows. *)
Theorem missing_iff_not_detected :
  forall personData ppeData frame clock out,
    reconcile personData ppeData frame clock = Returns out ->
    (forall c, In c (missingEPIs out) <->
               In c requiredEPIs
               /\ ~ exists d, In d (newDetections out) /\ Detection.type d = c)
    /\ ((forall c, In c requiredEPIs ->
                   exists d, In d (newDetections out) /\ Detection.type d = c) ->
        frameAlerts out = []).
Proof.
  intros pd ed frame clock out Hout.
  destruct (reconcile_inv _ _ _ _ _ Hout) as (pb & eb & -> & -> & Hnew & Hal).
  destruct (reconcile_Body frame clock pb eb) as (out' & Hout' & _ & Hmiss & _).
  rewrite Hout in Hout'. inversion Hout'. subst out'. clear Hout'.
  pose proof (reconcile_classes _ _ _ _ _ Hout) as Hcls.
  assert (Hiff : forall c, In c requiredEPIs ->
            (Set_has (detectedEPIClasses out) c = true <->
             exists d, In d (newDetections out) /\ Detection.type d = c)).
  { intros c Hc. rewrite Hcls, existsb_exists, Hnew. split.
    - intros (d & Hd & E). apply ValueFacts.strictEq_eq in E. exists d.
      split; [apply in_or_app; now right | now symmetry].
    - intros (d & Hd & E). apply in_app_or in Hd. destruct Hd as [Hd | Hd].
      + exfalso. apply personPush_In in Hd. destruct Hd as (p & k & -> & _).
        cbn [personDetection Detection.type] in E. injection E as <-.
        unfold requiredEPIs in Hc. cbn [In] in Hc.
        repeat (destruct Hc as [Hc | Hc]; [discriminate Hc |]). contradiction.
      + exists d. split; [exact Hd |]. apply ValueFacts.strictEq_eq. now symmetry. }
  assert (Hmem : forall c, In c (missingEPIs out) <->
            In c requiredEPIs
            /\ ~ exists d, In d (newDetections out) /\ Detection.type d = c).
  { intros c. rewrite Hmiss, filter_In. split.
    - intros [Hc Hn]. split; [exact Hc |]. rewrite <- (Hiff c Hc).
      destruct (Set_has _ c); [discriminate | discriminate].
    - intros [Hc Hn]. split; [exact Hc |]. rewrite <- (Hiff c Hc) in Hn.
      destruct (Set_has _ c); [now elim Hn | reflexivity]. }
  split; [exact Hmem |].
  intros Hall. rewrite Hal.
  assert (Hnil : missingEPIs out = []).
  { destruct (missingEPIs out) as [| c r]; [reflexivity |]. exfalso.
    destruct (proj1 (Hmem c) (or_introl eq_refl)) as [Hc Hn].
    apply Hn. now apply Hall. }
  rewrite Hnil. apply collect_from_nil. reflexivity.
Qed.

Import KeptFacts IdFacts MoreSamples.

(** X2 at a frame with [onePerson] and the three required classes. *)
Lemma missing_iff_not_detected_witness :
  exists out,
    reconcile (Raw.Body onePerson) (Raw.Body fullPpe) 0 clock0 = Returns out
    /\ missingEPIs out = []
    /\ (forall c, In c (missingEPIs out) <->
                  In c requiredEPIs
                  /\ ~ exists d, In d (newDetections out) /\ Detection.type d = c)
    /\ ((forall c, In c requiredEPIs ->
                   exists d, In d (newDetections out) /\ Detection.type d = c) ->
        frameAlerts out = []).
Proof.
  eexists. split; [reflexivity |]. split; [reflexivity |].
  apply (missing_iff_not_detected (Raw.Body onePerson) (Raw.Body fullPpe) 0%N clock0).
  reflexivity.
Defined.

(** X3. What [filterDuplicatePersons] returns.  Among the persons it keeps none
    duplicates one kept before it; they are some of the persons given, in their
    order; a person left out duplicates a kept one; the other detections are
    all kept, in their order; the list does not grow, and filtering again
    changes nothing.  The persons of a store the component can hold are
    therefore free of duplicates of earlier ones. *)
Theorem kept_persons_do_not_overlap :
  (forall l : list Detection.t,
      noOverlap (filter isPerson (filterDuplicatePersons l))
      /\ subseq (filter isPerson (filterDuplicatePersons l)) (filter isPerson l)
      /\ filter nonPerson (filterDuplicatePersons l) = filter nonPerson l
      /\ (forall p, In p l -> isPerson p = true ->
            In p (filterDuplicatePersons l)
            \/ exists a, In a (filterDuplicatePersons l)
                         /\ isPerson a = true /\ duplicates a p = true)
      /\ List.length (filterDuplicatePersons l) <= List.length l
      /\ filterDuplicatePersons (filterDuplicatePersons l) = filterDuplicatePersons l)
  /\ (forall st : Store,
      reachable st -> noOverlap (filter isPerson (detections st))).
Proof.
  assert (H1 : forall l, noOverlap (filter isPerson (filterDuplicatePersons l))).
  { intros l. rewrite filterDuplicatePersons_persons.
    apply keepInto_noOverlap. constructor. }
  split.
  - intros l. split; [apply H1 |]. split; [| split; [| split; [| split]]].
    + rewrite filterDuplicatePersons_persons. apply kept_subseq.
    + apply filterDuplicatePersons_nonPersons.
    + intros p Hp Pp.
      assert (Hin : In p (filter isPerson l)) by (apply filter_In; auto).
      rewrite filterDuplicatePersons_eq.
      destruct (keepInto_complete (filter isPerson l) [] p Hin) as [H | (a & Ha & Hd)].
      * left. apply in_or_app. now left.
      * right. exists a. split; [apply in_or_app; now left |]. split; [| exact Hd].
        pose proof (kept_persons l) as Hk. rewrite Forall_forall in Hk. now apply Hk.
    + rewrite filterDuplicatePersons_eq, length_app.
      pose proof (subseq_length _ _ (kept_subseq l)).
      pose proof (filter_length_split l). lia.
    + apply filterDuplicatePersons_idempotent.
  - intros st Hst. rewrite <- (reachable_fixed st Hst). apply H1.
Qed.

(** X3 at the person of [onePerson] seen at frames 0 and 10. *)
Lemma kept_persons_do_not_overlap_witness :
  filterDuplicatePersons [personAt 0; maskAt 0; personAt 10] = [personAt 0; maskAt 0]
  /\ In (personAt 10) [personAt 0; maskAt 0; personAt 10]
  /\ (In (personAt 10) (filterDuplicatePersons [personAt 0; maskAt 0; personAt 10])
      \/ exists a, In a (filterDuplicatePersons [personAt 0; maskAt 0; personAt 10])
                   /\ isPerson a = true /\ duplicates a (personAt 10) = true)
  /\ noOverlap (filter isPerson (detections personStore)).
Proof.
  destruct kept_persons_do_not_overlap as [H1 H2].
  split; [reflexivity |]. split; [right; right; now left |]. split.
  - destruct (H1 [personAt 0; maskAt 0; personAt 10]) as (_ & _ & _ & H & _).
    apply H; [right; right; now left | reflexivity].
  - apply H2. exact personStore_reachable.
Defined.

(** X4. After a sequence of calls at pairwise distinct frames, from the empty
    store, no two Detections of the store share an id and no two Alerts do;
    every record carries the frame of one of the calls. *)
Theorem record_ids_unique :
  forall (calls : list Call) (st : Store),
    replay calls emptyStore = Returns st ->
    NoDup (map frame calls) ->
    NoDup (map Detection.id (detections st))
    /\ NoDup (map Alert.id (alerts st))
    /\ (forall d, In d (detections st) -> In (Detection.frame d) (map frame calls))
    /\ (forall a, In a (alerts st) -> In (Alert.frame a) (map frame calls)).
Proof.
  intros calls st H Hn.
  assert (H0 : wellTagged [] emptyStore) by (repeat split; constructor).
  destruct (replay_wellTagged calls [] emptyStore st H0 Hn (fun _ _ F => F) H)
    as (Nd & Td & Na & Ta).
  rewrite app_nil_r in Td, Ta. rewrite Forall_forall in Td, Ta.
  split; [exact Nd |]. split; [exact Na |]. split.
  - intros d Hd. apply in_rev. apply (Td d Hd).
  - intros a Ha. apply in_rev. apply (Ta a Ha).
Qed.

(** X4 at [onePerson] with [oneMask] at frames 0 and 10. *)
Lemma record_ids_unique_witness :
  exists st,
    replay twoFrames emptyStore = Returns st
    /\ List.length (detections st) = 3%nat
    /\ List.length (alerts st) = 2%nat
    /\ NoDup (map Detection.id (detections st))
    /\ NoDup (map Alert.id (alerts st))
    /\ (forall d, In d (detections st) -> In (Detection.frame d) (map frame twoFrames))
    /\ (forall a, In a (alerts st) -> In (Alert.frame a) (map frame twoFrames)).
Proof.
  eexists. split; [vm_compute; reflexivity |].
  split; [reflexivity |]. split; [reflexivity |].
  apply (record_ids_unique twoFrames).
  - vm_compute. reflexivity.
  - repeat constructor; cbn; intuition discriminate.
Defined.

Import OrderFacts LiveFacts.

(** X5. The two thresholds of the live loop.  A person whose score reaches 0.6
    is one the reconciler keeps, so a cycle that sets the counter back brings a
    person Detection.  A person whose score is at least 0.5 and below 0.6 is
    kept by the reconciler but is no hit: a cycle can push Detections and
    Alerts and still count as a miss. *)
Theorem live_threshold_gap :
  (forall (p : Raw.Person.t) frame clock index acc,
      qualifies p = true ->
      personCallback frame clock p index acc
      = acc ++ [personDetection frame clock p index])
  /\ (forall (x : Sample),
      hit x ->
      exists out,
        reconcile (Raw.Body (personBody x)) (Raw.Body (ppeBody x)) (stamp x) (readings x)
        = Returns out
        /\ filter isPerson (newDetections out) <> [])
  /\ (forall (p : Raw.Person.t) (s : float) frame clock index acc,
      Raw.Person.score p = Some s -> (0.5 <=? s) = true -> (s <? 0.6) = true ->
      qualifies p = false
      /\ personCallback frame clock p index acc
         = acc ++ [personDetection frame clock p index]).
Proof.
  split; [| split].
  - intros p frame clock index acc Hq. unfold personCallback.
    now rewrite (qualifies_kept p Hq).
  - intros x Hx.
    destruct (reconcile_Body (stamp x) (readings x) (personBody x) (ppeBody x))
      as (out & Hout & _).
    exists out. split; [exact Hout |].
    rewrite (personsInFrame_eq _ _ _ _ _ Hout). now apply hit_pushes.
  - intros p s frame clock index acc Hs Hlo Hhi.
    destruct (between_thresholds p s Hs Hlo Hhi) as [Hq Hk].
    split; [exact Hq |]. unfold personCallback. now rewrite Hk.
Qed.

(** X5 at a person of score 0.9 and at one of score 0.55: five cycles with the
    latter stop the loop, and each has raised an alert. *)
Lemma live_threshold_gap_witness :
  hit personSample
  /\ (exists out,
        reconcile (Raw.Body onePerson) (Raw.Body noPpe) 0 clock0 = Returns out
        /\ filter isPerson (newDetections out) <> [])
  /\ qualifies dimEntry = false
  /\ personCallback 0 clock0 dimEntry 0 [] = [personDetection 0 clock0 dimEntry 0]
  /\ miss dimSample
  /\ isRealtime (run [dimSample; dimSample; dimSample; dimSample; dimSample] started) = false
  /\ List.length (alerts (store (run [dimSample; dimSample; dimSample; dimSample; dimSample]
                                     started))) = 5%nat.
Proof.
  assert (Hh : hit personSample) by (eexists; eexists; reflexivity).
  destruct live_threshold_gap as (_ & H2 & H3).
  split; [exact Hh |]. split; [exact (H2 personSample Hh) |].
  destruct (H3 dimEntry 0.55 0%N clock0 0%nat []) as [Hq Hp]; try reflexivity.
  split; [exact Hq |]. split; [exact Hp |].
  split; [reflexivity |]. split; reflexivity.
Defined.

(** X6. Whatever the interval brings, the store of a session stays one the
    component can hold, and its alerts are only ever added to; the video element
    and the camera flag are left alone. *)
Theorem live_store_stays_reachable :
  forall (samples : list Sample) (s : Session),
    reachable (store s) ->
    reachable (store (run samples s))
    /\ (exists added, alerts (store (run samples s)) = alerts (store s) ++ added)
    /\ video (run samples s) = video s
    /\ isCameraOn (run samples s) = isCameraOn s.
Proof.
  intros samples s Hs. destruct (run_reachable samples s Hs) as [Hr Ha].
  destruct (run_video samples s) as [Hv Hc]. auto.
Qed.

(** X6 at a session that has just started, over a miss, a hit and a person of
    score 0.55. *)
Lemma live_store_stays_reachable_witness :
  reachable (store started)
  /\ reachable (store (run [emptySample; personSample; dimSample] started))
  /\ (exists added,
        alerts (store (run [emptySample; personSample; dimSample] started))
        = alerts (store started) ++ added)
  /\ video (run [emptySample; personSample; dimSample] started) = video started
  /\ isCameraOn (run [emptySample; personSample; dimSample] started) = isCameraOn started.
Proof.
  split; [apply reachable_empty |].
  apply (live_store_stays_reachable [emptySample; personSample; dimSample] started).
  apply reachable_empty.
Defined.

(** X7. A cycle that throws never stops the loop.  With a [null] person
    response nothing of the session changes.  With a [null] PPE response the
    counter is updated but the call of [processDetections] throws before the
    test of the counter: the loop stays on, even with the counter at the maximum
    or beyond, and the store is as it was. *)
Theorem throwing_cycle_never_stops :
  forall (s : Session) (now : N) (clock : Clock),
    (forall ppeDetections, cycle Raw.Null ppeDetections now clock s = s)
    /\ (forall personBody,
          video s = true ->
          let s' := cycle (Raw.Body personBody) Raw.Null now clock s in
          isRealtime s' = isRealtime s /\ timer s' = timer s
          /\ isCameraOn s' = isCameraOn s /\ store s' = store s
          /\ (filteredPersons (Raw.Body personBody) = Returns [] ->
              missedFrames s' = S (missedFrames s))
          /\ (filteredPersons (Raw.Body personBody) <> Returns [] ->
              missedFrames s' = 0%nat)).
Proof.
  intros s now clock. split.
  - intros ed. unfold cycle. destruct (video s); reflexivity.
  - intros pb Hv. unfold cycle. rewrite Hv. cbn [negb].
    unfold filteredPersons, Raw.persons_of, Raw.predictions, bind.
    set (filtered := match match Raw.first pb with
                           | Some e => Raw.persons e
                           | None => None
                           end with
                     | Some l => filter qualifies l
                     | None => []
                     end).
    assert (Hthrow : forall st, processDetections (Raw.Body pb) Raw.Null now clock st
                                = Throws TypeError) by reflexivity.
    cbn [store]. rewrite Hthrow. cbn.
    repeat split.
    + intros H. inversion H as [E]. now rewrite E.
    + intros H. destruct filtered as [| p l]; [now elim H | reflexivity].
Qed.

(** X7 at a session whose counter is at the maximum. *)
Lemma throwing_cycle_never_stops_witness :
  let s := mkSession true true true true 5 emptyStore in
  let s' := cycle (Raw.Body noPersons) Raw.Null 0 clock0 s in
  video s = true
  /\ isRealtime s' = true /\ timer s' = true /\ missedFrames s' = 6%nat.
Proof.
  cbv zeta.
  destruct (throwing_cycle_never_stops (mkSession true true true true 5 emptyStore)
              0%N clock0) as [_ H].
  destruct (H noPersons eq_refl) as (H1 & H2 & _ & _ & H5 & _).
  split; [reflexivity |]. split; [exact H1 |]. split; [exact H2 |].
  apply H5. reflexivity.
Defined.

Import Camera CameraFacts.

(** X8. In a mounted component, whatever the camera answers and however the
    button is clicked and the interval fires: the interval is scheduled exactly
    while [isRealtime] is set, and then the session is analysing (the camera is
    on, the video element is there); and the camera is flagged on only with a
    stream attached. *)
Theorem interval_only_while_analysing :
  forall (events : list Event) (st : Store),
    let c := Camera.steps events (mountedWith st) in
    isRealtime (session c) = timer (session c)
    /\ (timer (session c) = true -> analysing (session c))
    /\ (isCameraOn (session c) = true -> exists stream, srcObject c = Some stream)
    /\ (isCameraOn (session c) = false -> click (session c) = session c).
Proof.
  intros events st c.
  destruct (steps_consistent events _ (mountedWith_consistent st)) as (Hv & Hr & Ht & Hc).
  fold c in Hv, Hr, Ht, Hc.
  split; [exact Hr |]. split; [| split; [exact Hc |]].
  - intros H. unfold analysing. rewrite Hr. auto.
  - intros H. unfold click. now rewrite H.
Qed.

(** X8 at a camera that answers, a click, a hit and six misses. *)
Lemma interval_only_while_analysing_witness :
  let c := Camera.steps [Answer (Granted 1%nat); Click; Fire personSample;
                  Fire emptySample; Fire emptySample; Fire emptySample;
                  Fire emptySample; Fire emptySample; Fire emptySample]
                 (mountedWith emptyStore) in
  isRealtime (session c) = false
  /\ isRealtime (session c) = timer (session c)
  /\ srcObject c = Some 1%nat
  /\ (isCameraOn (session c) = true -> exists stream, srcObject c = Some stream).
Proof.
  cbv zeta. split; [reflexivity |].
  destruct (interval_only_while_analysing
              [Answer (Granted 1%nat); Click; Fire personSample;
               Fire emptySample; Fire emptySample; Fire emptySample;
               Fire emptySample; Fire emptySample; Fire emptySample]
              emptyStore) as (H1 & _ & H3 & _).
  split; [exact H1 |]. split; [reflexivity | exact H3].
Defined.

(** X9. After the loop has stopped itself on five misses, a click on the
    button starts it again with the counter at zero and the store as it was, so
    that it takes five more misses to stop it. *)
Theorem restart_after_stop :
  forall (s : Session) (samples more : list Sample),
    analysing s -> Forall miss samples -> List.length samples = 5%nat ->
    Forall miss more -> (List.length more < 5)%nat ->
    let s' := click (run samples s) in
    analysing s' /\ missedFrames s' = 0%nat /\ store s' = store (run samples s)
    /\ analysing (run more s') /\ missedFrames (run more s') = List.length more.
Proof.
  intros s samples more Hs Hall Hlen Hmore Hlt s'.
  destruct (run_misses samples s Hs Hall) as [_ H].
  assert (Hst : Notions.stopped (run samples s)).
  { apply H; [unfold MAX_MISSED_FRAMES; lia |]. intros ->. discriminate. }
  destruct Hst as (Hr & Ht & Hc).
  destruct (LiveFacts.run_video samples s) as [Hv _].
  destruct Hs as (_ & _ & Hv0 & _). rewrite Hv0 in Hv.
  assert (Hs' : analysing s' /\ missedFrames s' = 0%nat).
  { unfold s', click. rewrite Hc, Hr. apply startRealtime_analysing; assumption. }
  destruct Hs' as [Ha Hm].
  split; [exact Ha |]. split; [exact Hm |]. split.
  - unfold s', click, startRealtime. rewrite Hc, Hr, Hv. reflexivity.
  - destruct (run_misses more s' Ha Hmore) as [H' _].
    rewrite Hm in H'. apply H'. unfold MAX_MISSED_FRAMES. lia.
Qed.

(** X9 at a session that has just started. *)
Lemma restart_after_stop_witness :
  analysing started
  /\ let s' := click (run [emptySample; emptySample; emptySample; emptySample; emptySample]
                          started) in
     analysing s' /\ missedFrames s' = 0%nat
     /\ store s' = store (run [emptySample; emptySample; emptySample; emptySample; emptySample]
                              started)
     /\ analysing (run [emptySample; emptySample] s')
     /\ missedFrames (run [emptySample; emptySample] s') = 2%nat.
Proof.
  assert (Ha : analysing started) by (now apply startRealtime_analysing).
  split; [exact Ha |].
  apply (restart_after_stop started
           [emptySample; emptySample; emptySample; emptySample; emptySample]
           [emptySample; emptySample]).
  - exact Ha.
  - repeat constructor.
  - reflexivity.
  - repeat constructor.
  - cbn. lia.
Defined.

(** X10. [stopCamera] turns everything off: the loop, its interval and the
    camera flag; the stream attached to the video element is detached and its
    tracks are stopped.  Afterwards the button is disabled and a late firing of
    the interval does nothing; the store and the counter are as they were. *)
Theorem stopCamera_turns_off :
  forall c : State,
    let c' := stopCamera c in
    isRealtime (session c') = false /\ timer (session c') = false
    /\ isCameraOn (session c') = false
    /\ store (session c') = store (session c)
    /\ missedFrames (session c') = missedFrames (session c)
    /\ (video (session c) = true ->
        srcObject c' = None
        /\ forall stream, srcObject c = Some stream -> In stream (released c'))
    /\ click (session c') = session c'
    /\ (forall x, tick (session c') x = session c').
Proof.
  intros c c'. unfold c', stopCamera.
  destruct (srcObject c) as [stream |] eqn:Es.
  - cbn [stopRealtime video]. destruct (video (session c)) eqn:Ev; cbn;
      repeat split; try discriminate.
    intros x Hx. inversion Hx. now left.
  - cbn. repeat split; try discriminate.
Qed.

Import Page PageNotions PageFacts PageSamples.

(** X11. An analysis in which both detectors answer every frame with an
    object: [processDetections] is called ten times, at the frames 0, 10, ...,
    90 in order, on the store as it stood; the progress ends at 90; the closing
    toast counts the alerts the state held when the analysis was started, not
    the ones it found, so after an upload it reports none, in the plain
    variant. *)
Theorem analysis_completes :
  forall (answers : N -> Fetched) (s : Page.State) (file : File.t),
    Page.videoFile s = Some file ->
    Forall (answeredAt answers) analysedFrames ->
    let s' := analyzeVideo answers s in
    replay (callsAt answers analysedFrames) (Page.store s) = Returns (Page.store s')
    /\ map frame (callsAt answers analysedFrames) = analysedFrames
    /\ isAnalyzing s' = false
    /\ analysisProgress s' = 90
    /\ Page.videoFile s' = Some file
    /\ toasts s' = toasts s ++ [completionToast (List.length (alerts (Page.store s)))]
    /\ (alerts (Page.store s) = [] ->
        toasts s' = toasts s ++ [Toast.mk "Análise concluída"
                                          "Foram encontrados 0 alertas de segurança"
                                          (Some default)]).
Proof.
  intros answers s file Hv Hall s'.
  assert (Hs' : exists s1,
             after answers analysedFrames (setAnalysisProgress 0 (setIsAnalyzing true s)) s1
             /\ s' = setIsAnalyzing false
                       (toast (completionToast (List.length (alerts (Page.store s)))) s1)).
  { unfold s', analyzeVideo. rewrite Hv, analyzeFrames_list, frames_of_analysis.
    destruct (analyzeList_answered answers analysedFrames []
                (setAnalysisProgress 0 (setIsAnalyzing true s)) Hall) as (s1 & Ha & Hl).
    rewrite app_nil_r in Hl. rewrite Hl. cbn [analyzeList]. eauto. }
  destruct Hs' as (s1 & (Hr & Hf & _ & _ & Ht & Hp) & ->).
  cbn [setIsAnalyzing toast Page.store isAnalyzing analysisProgress Page.videoFile toasts
       setAnalysisProgress] in *.
  assert (Hto : toasts s1 ++ [completionToast (List.length (alerts (Page.store s)))]
                = toasts s ++ [completionToast (List.length (alerts (Page.store s)))])
    by now rewrite Ht.
  split; [exact Hr |]. split; [now apply callsAt_answered |]. split; [reflexivity |].
  split; [rewrite Hp; vm_compute; reflexivity |].
  split; [congruence |]. split; [exact Hto |].
  intros Hn. rewrite Hto, Hn. reflexivity.
Qed.

(** X11 at [clip] just loaded, every frame showing a person with a mask only:
    ten alerts are raised, and the toast reports none. *)
Lemma analysis_completes_witness :
  Page.videoFile loaded = Some clip
  /\ let s' := analyzeVideo steady loaded in
     List.length (alerts (Page.store s')) = 10%nat
     /\ replay (callsAt steady analysedFrames) (Page.store loaded) = Returns (Page.store s')
     /\ isAnalyzing s' = false
     /\ analysisProgress s' = 90
     /\ toasts s' = toasts loaded ++ [Toast.mk "Análise concluída"
                                               "Foram encontrados 0 alertas de segurança"
                                               (Some default)].
Proof.
  split; [reflexivity |]. cbv zeta. split; [vm_compute; reflexivity |].
  destruct (analysis_completes steady loaded clip eq_refl) as (H1 & _ & H3 & H4 & _ & _ & H7).
  - repeat constructor; eexists; eexists; eexists; reflexivity.
  - split; [exact H1 |]. split; [exact H3 |]. split; [exact H4 |].
    apply H7. reflexivity.
Defined.

(** X12. An analysis that does not reach its end.  When the frames before
    [frame] are answered with objects and the answer for [frame] fails (a
    rejected promise, a [null] response), the calls of the earlier frames stay
    in the store, the error toast is shown and [isAnalyzing] is cleared.  When
    the answer for [frame] never comes, the earlier calls stay as well, no
    toast is shown and [isAnalyzing] stays set: the button cannot start another
    analysis. *)
Theorem analysis_stops_at_failure :
  forall (answers : N -> Fetched) (s : Page.State) (file : File.t)
         (done rest : list N) (frame : N),
    Page.videoFile s = Some file ->
    analysedFrames = done ++ frame :: rest ->
    Forall (answeredAt answers) done ->
    let s' := analyzeVideo answers s in
    (failsAt answers frame ->
     replay (callsAt answers done) (Page.store s) = Returns (Page.store s')
     /\ isAnalyzing s' = false /\ toasts s' = toasts s ++ [errorToast])
    /\ (answers frame = Pending ->
        replay (callsAt answers done) (Page.store s) = Returns (Page.store s')
        /\ isAnalyzing s' = true /\ toasts s' = toasts s
        /\ forall again, clickAnalyze again s' = s').
Proof.
  intros answers s file done rest frame Hv Hfr Hall s'.
  unfold s', analyzeVideo. rewrite Hv, analyzeFrames_list, frames_of_analysis, Hfr.
  destruct (analyzeList_answered answers done (frame :: rest)
              (setAnalysisProgress 0 (setIsAnalyzing true s)) Hall)
    as (s1 & (Hr & Hf & Ha & _ & Ht & _) & ->).
  cbn [setIsAnalyzing setAnalysisProgress Page.store isAnalyzing Page.videoFile toasts] in *.
  split.
  - intros Hfail. rewrite (fails_at answers frame rest s1 Hfail).
    cbn [setIsAnalyzing toast Page.store isAnalyzing toasts].
    split; [exact Hr |]. split; [reflexivity | now rewrite Ht].
  - intros Hp. cbn [analyzeList]. rewrite Hp.
    split; [exact Hr |]. split; [exact Ha |]. split; [exact Ht |].
    intros again. unfold clickAnalyze. now rewrite Hf, Hv, Ha.
Qed.

(** X12 at [clip] just loaded, with the request of frame 30 rejected, and with
    it never answered: the three alerts of the frames 0, 10 and 20 stay. *)
Lemma analysis_stops_at_failure_witness :
  (let s' := analyzeVideo brokenAt30 loaded in
   List.length (alerts (Page.store s')) = 3%nat
   /\ isAnalyzing s' = false /\ toasts s' = toasts loaded ++ [errorToast])
  /\ (let s' := analyzeVideo stuckAt30 loaded in
      List.length (alerts (Page.store s')) = 3%nat
      /\ isAnalyzing s' = true /\ toasts s' = toasts loaded
      /\ forall again, clickAnalyze again s' = s').
Proof.
  assert (Hb : Forall (answeredAt brokenAt30) [0; 10; 20]%N)
    by (repeat constructor; eexists; eexists; eexists; reflexivity).
  assert (Hs : Forall (answeredAt stuckAt30) [0; 10; 20]%N)
    by (repeat constructor; eexists; eexists; eexists; reflexivity).
  split; cbv zeta.
  - destruct (analysis_stops_at_failure brokenAt30 loaded clip [0; 10; 20]%N
                [40; 50; 60; 70; 80; 90]%N 30%N eq_refl eq_refl Hb) as [H _].
    destruct H as (_ & H2 & H3); [left; reflexivity |].
    split; [vm_compute; reflexivity |]. split; assumption.
  - destruct (analysis_stops_at_failure stuckAt30 loaded clip [0; 10; 20]%N
                [40; 50; 60; 70; 80; 90]%N 30%N eq_refl eq_refl Hs) as [_ H].
    destruct H as (_ & H2 & H3 & H4); [reflexivity |].
    split; [vm_compute; reflexivity |]. split; [| split]; assumption.
Defined.

Import PageInvariants.

(** X13. What files the upload area accepts.  Only the first file whose type
    starts with [video/] is looked at.  When its size is at most 100 MB it
    becomes the video of the page: the detections and alerts are cleared, the
    frame and the progress set back, and two toasts are shown, the page's
    before the upload's.  When it is larger, nothing is loaded, even if a later
    file would pass; nor is anything loaded when no file is a video.  A
    rejected drop only shows its toast. *)
Theorem upload_takes_first_video :
  forall (u : VideoUpload.State) (page : Page.State),
    (forall (before after : list File.t) (file : File.t),
        Forall (fun b => VideoUpload.isVideo b = false) before ->
        VideoUpload.isVideo file = true ->
        let r := VideoUpload.upload (before ++ file :: after) u page in
        ((File.size file <= VideoUpload.MAX_SIZE)%N ->
         VideoUpload.uploadedFile (fst r) = Some file
         /\ Page.videoFile (snd r) = Some file
         /\ Page.store (snd r) = emptyStore
         /\ currentFrame (snd r) = 0%N /\ analysisProgress (snd r) = 0
         /\ isAnalyzing (snd r) = isAnalyzing page
         /\ toasts (snd r) = toasts page ++ [loadedToast file; uploadedToast file])
        /\ ((VideoUpload.MAX_SIZE < File.size file)%N ->
            r = (u, Page.toast tooLargeToast page)))
    /\ (forall files : list File.t,
          Forall (fun b => VideoUpload.isVideo b = false) files ->
          VideoUpload.upload files u page = (u, Page.toast invalidToast page)).
Proof.
  intros u page. split.
  - intros before after file Hb Hf r. unfold r, VideoUpload.upload, VideoUpload.handleFiles.
    rewrite (find_first _ before after file Hb Hf). split.
    + intros Hs. apply N.ltb_ge in Hs. rewrite Hs. cbn.
      repeat split. now rewrite <- app_assoc.
    + intros Hs. apply N.ltb_lt in Hs. now rewrite Hs.
  - intros files Hn. unfold VideoUpload.upload, VideoUpload.handleFiles.
    now rewrite (find_none _ files Hn).
Qed.

(** X13 at a text file followed by a video of exactly 100 MB; at a video one
    byte larger followed by a small one; and at a text file alone. *)
Lemma upload_takes_first_video_witness :
  (let r := VideoUpload.upload [notes; exact; clip] VideoUpload.initial loaded in
   VideoUpload.uploadedFile (fst r) = Some exact /\ Page.store (snd r) = emptyStore)
  /\ VideoUpload.upload [film; clip] VideoUpload.initial loaded
     = (VideoUpload.initial, Page.toast tooLargeToast loaded)
  /\ VideoUpload.upload [notes] VideoUpload.initial loaded
     = (VideoUpload.initial, Page.toast invalidToast loaded).
Proof.
  destruct (upload_takes_first_video VideoUpload.initial loaded) as [H1 H2].
  split; [| split].
  - destruct (H1 [notes] [clip] exact) as [H _]; [repeat constructor | reflexivity |].
    destruct H as (Ha & _ & Hb & _); [vm_compute; discriminate |]. cbv zeta. auto.
  - destruct (H1 [] [clip] film) as [_ H]; [constructor | reflexivity |].
    apply H. reflexivity.
  - apply H2. repeat constructor.
Defined.

(** X14. Whatever is dropped, removed and analysed, from the first render on:
    the store of the page is one the component can hold; the summary counts no
    [low] alert, and its [high] and [medium] alerts are all the alerts; the
    video of the page, if there is one, is a video file of at most 100 MB, and
    it is the file the upload area shows, if it shows one. *)
Theorem page_stays_sound :
  forall events : list PageNotions.Event,
    let p := PageNotions.steps events (VideoUpload.initial, Page.initial) in
    let summary := getStatusSummary (snd p) in
    reachable (Page.store (snd p))
    /\ lowAlerts summary = 0%nat
    /\ (highAlerts summary + mediumAlerts summary
        = List.length (alerts (Page.store (snd p))))%nat
    /\ (forall file, VideoUpload.uploadedFile (fst p) = Some file ->
                     Page.videoFile (snd p) = Some file)
    /\ (forall file, Page.videoFile (snd p) = Some file ->
                     VideoUpload.isVideo file = true
                     /\ (File.size file <= VideoUpload.MAX_SIZE)%N).
Proof.
  intros events p summary.
  destruct (steps_sound events _ initial_sound) as (Hr & Hu & Hv). fold p in Hr, Hu, Hv.
  destruct (severity_partition _ (reachable_severity _ Hr)) as [Hl Hhm].
  split; [exact Hr |]. split; [exact Hl |]. split; [exact Hhm |]. split; assumption.
Qed.

(** X15. Analysing the same video again, with the same answers: the alerts of
    the first analysis are raised a second time, under the same ids, and the
    closing toast of the second analysis counts the alerts of the first. *)
Theorem reanalysis_repeats_alerts :
  forall (answers : N -> Fetched) (s : Page.State) (file : File.t),
    Page.videoFile s = Some file ->
    Forall (answeredAt answers) analysedFrames ->
    let s1 := analyzeVideo answers s in
    let s2 := analyzeVideo answers s1 in
    exists added,
      alerts (Page.store s1) = alerts (Page.store s) ++ added
      /\ alerts (Page.store s2) = alerts (Page.store s) ++ added ++ added
      /\ toasts s2
         = toasts s ++ [completionToast (List.length (alerts (Page.store s)));
                        completionToast (List.length (alerts (Page.store s))
                                         + List.length added)]
      /\ (added <> [] -> ~ NoDup (map Alert.id (alerts (Page.store s2)))).
Proof.
  intros answers s file Hv Hall s1 s2.
  destruct (replay_alerts (callsAt answers analysedFrames)) as (added & Hadd).
  assert (H1 : replay (callsAt answers analysedFrames) (Page.store s) = Returns (Page.store s1)
               /\ Page.videoFile s1 = Some file
               /\ toasts s1 = toasts s ++ [completionToast (List.length (alerts (Page.store s)))]).
  { unfold s1, analyzeVideo. rewrite Hv, analyzeFrames_list, frames_of_analysis.
    destruct (analyzeList_answered answers analysedFrames []
                (setAnalysisProgress 0 (setIsAnalyzing true s)) Hall)
      as (t & (Hr & Hf & _ & _ & Ht & _) & Hl).
    rewrite app_nil_r in Hl. rewrite Hl. cbn [analyzeList].
    cbn [setIsAnalyzing setAnalysisProgress toast Page.store Page.videoFile toasts] in *.
    split; [exact Hr |]. split; [congruence | now rewrite Ht]. }
  destruct H1 as (Hr1 & Hv1 & Ht1).
  assert (H2 : replay (callsAt answers analysedFrames) (Page.store s1) = Returns (Page.store s2)
               /\ toasts s2
                  = toasts s1 ++ [completionToast (List.length (alerts (Page.store s1)))]).
  { unfold s2, analyzeVideo. rewrite Hv1, analyzeFrames_list, frames_of_analysis.
    destruct (analyzeList_answered answers analysedFrames []
                (setAnalysisProgress 0 (setIsAnalyzing true s1)) Hall)
      as (t & (Hr & Hf & _ & _ & Ht & _) & Hl).
    rewrite app_nil_r in Hl. rewrite Hl. cbn [analyzeList].
    cbn [setIsAnalyzing setAnalysisProgress toast Page.store Page.videoFile toasts] in *.
    split; [exact Hr | now rewrite Ht]. }
  destruct H2 as (Hr2 & Ht2).
  pose proof (Hadd _ _ Hr1) as E1. pose proof (Hadd _ _ Hr2) as E2.
  exists added. split; [exact E1 |]. split; [rewrite E2, E1; now rewrite <- app_assoc |].
  split.
  - rewrite Ht2, Ht1, E1, length_app, <- app_assoc. reflexivity.
  - intros Hne Hnd. rewrite E2, E1, <- app_assoc, map_app in Hnd.
    apply NoDup_app_remove_l in Hnd. rewrite map_app in Hnd.
    destruct added as [| a r]; [now elim Hne |].
    cbn [map app] in Hnd. inversion Hnd as [| x l Hx _]. apply Hx.
    apply in_or_app. right. now left.
Qed.

(** X15 at [clip] just loaded, every frame showing a person with a mask
    only. *)
Lemma reanalysis_repeats_alerts_witness :
  let s1 := analyzeVideo steady loaded in
  let s2 := analyzeVideo steady s1 in
  List.length (alerts (Page.store s1)) = 10%nat
  /\ List.length (alerts (Page.store s2)) = 20%nat
  /\ List.length (filter isPerson (detections (Page.store s2))) = 1%nat
  /\ exists added,
       alerts (Page.store s1) = alerts (Page.store loaded) ++ added
       /\ alerts (Page.store s2) = alerts (Page.store loaded) ++ added ++ added
       /\ toasts s2
          = toasts loaded ++ [completionToast (List.length (alerts (Page.store loaded)));
                              completionToast (List.length (alerts (Page.store loaded))
                                               + List.length added)]
       /\ (added <> [] -> ~ NoDup (map Alert.id (alerts (Page.store s2)))).
Proof.
  cbv zeta. split; [vm_compute; reflexivity |]. split; [vm_compute; reflexivity |].
  split; [vm_compute; reflexivity |].
  apply (reanalysis_repeats_alerts steady loaded clip eq_refl).
  repeat constructor; eexists; eexists; eexists; reflexivity.
Defined.

Import Dashboard DashboardNotions RoundingFacts DashboardFacts.

(** X16. The dashboard counts three classes that the reconciler never
    produces: no store the component can hold has a Detection of type
    [goggles], [coverall] or [face_Shield], so with at least one person the
    three rates are always ["0.0"]; the classes [hat], [glasses], [boots] and
    [hearing], which it can hold, have no rate on the dashboard. *)
Theorem dashboard_counts_unmapped_classes :
  forall st : Store,
    reachable st ->
    (forall c, In c unmapped -> countByType c (detections st) = 0%nat)
    /\ gogglesDetections (getDetectionStats (detections st)) = 0%nat
    /\ coverallDetections (getDetectionStats (detections st)) = 0%nat
    /\ faceShieldDetections (getDetectionStats (detections st)) = 0%nat
    /\ ((0 < countByType "person" (detections st))%nat ->
        arrayLength (countByType "person" (detections st)) ->
        forall c, In c unmapped ->
                  get (AlertDashboard.getComplianceRates (detections st)) c = Some "0.0")
    /\ (forall c, In c ["hat"; "glasses"; "boots"; "hearing"] ->
                  get (AlertDashboard.getComplianceRates (detections st)) c = None).
Proof.
  intros st Hst.
  assert (H0 : forall c, In c unmapped -> countByType c (detections st) = 0%nat).
  { intros c Hc. apply countByType_none. intros d Hd E.
    pose proof (stored_type st Hst d Hd) as Ht. rewrite E in Ht.
    unfold unmapped in Hc. unfold History.detectionTypes, History.inheritedTypes in Ht.
    cbn [In] in Hc, Ht.
    repeat (destruct Hc as [<- | Hc]; [intuition discriminate |]).
    contradiction. }
  split; [exact H0 |].
  split; [apply H0; now left |].
  split; [apply H0; right; now left |].
  split; [apply H0; right; right; now left |].
  split.
  - intros Hp Ha c Hc. unfold AlertDashboard.getComplianceRates.
    destruct (countByType "person" (detections st) =? 0)%nat eqn:E;
      [apply Nat.eqb_eq in E; lia |].
    pose proof (H0 c Hc) as Hz. unfold unmapped in Hc. cbn [In] in Hc.
    repeat (destruct Hc as [<- | Hc];
            [cbn [get String.eqb Ascii.eqb Bool.eqb]; rewrite Hz; f_equal;
             now apply rate_zero |]).
    contradiction.
  - intros c Hc. unfold AlertDashboard.getComplianceRates.
    destruct (countByType "person" (detections st) =? 0)%nat; [reflexivity |].
    cbn [In] in Hc.
    repeat (destruct Hc as [<- | Hc]; [reflexivity |]). contradiction.
Qed.

(** X16 at three persons with a mask, goggles and a hearing protector: the
    goggles are stored as [glasses], and the dashboard rates them 0.0. *)
Lemma dashboard_counts_unmapped_classes_witness :
  exists st,
    processDetections (Raw.Body threePersons) (Raw.Body fullPpe) 0 clock0 emptyStore
    = Returns st
    /\ countByType "glasses" (detections st) = 1%nat
    /\ get (AlertDashboard.getComplianceRates (detections st)) "goggles" = Some "0.0"
    /\ get (AlertDashboard.getComplianceRates (detections st)) "glasses" = None.
Proof.
  eexists. split; [vm_compute; reflexivity |]. split; [reflexivity |].
  match goal with
  | |- context [detections ?s] =>
      destruct (dashboard_counts_unmapped_classes s) as (_ & _ & _ & _ & H1 & H2)
  end.
  - apply (reachable_step emptyStore (Raw.Body threePersons) (Raw.Body fullPpe) 0%N clock0);
      [apply reachable_empty | vm_compute; reflexivity].
  - split.
    + apply H1; [cbn; lia | vm_compute; reflexivity | now left].
    + apply H2. right. now left.
Defined.



(** X18. The card "Taxa de Conformidade".  Without a person it shows [0%].
    With persons and no alert it shows [100.0%].  With persons and at least as
    many alerts as persons the share is clamped and the card shows [0.0%]:
    never a negative share, never NaN. *)
Theorem compliance_text_clamped :
  forall (alerts : list Alert.t) (detections : list Detection.t),
    (countByType "person" detections = 0%nat ->
     complianceText alerts detections = "0%")
    /\ ((0 < countByType "person" detections)%nat ->
        arrayLength (countByType "person" detections) ->
        alerts = [] ->
        complianceText alerts detections = "100.0%")
    /\ ((0 < countByType "person" detections <= List.length alerts)%nat ->
        arrayLength (List.length alerts) ->
        complianceText alerts detections = "0.0%").
Proof.
  intros alerts detections. unfold complianceText, getDetectionStats, getAlertStats.
  cbn [Dashboard.personDetections totalAlerts]. split; [| split].
  - intros ->. reflexivity.
  - intros Hp Ha ->. apply arrayLength_53 in Ha.
    destruct (0 <? countByType "person" detections)%nat eqn:E;
      [| apply Nat.ltb_ge in E; lia].
    cbn [List.length].
    rewrite of_length_minus_0, full_share by lia. reflexivity.
  - intros [Hp Hle] Ha. apply arrayLength_53 in Ha.
    destruct (0 <? countByType "person" detections)%nat eqn:E;
      [| apply Nat.ltb_ge in E; lia].
    destruct (of_length_pos (countByType "person" detections) ltac:(lia)) as (m & e & Hm & _).
    rewrite clamp_notAbove; [reflexivity |].
    rewrite FloatAxioms.mul_spec.
    change (Prim2SF 100) with (S754_finite false 7036874417766400 (-46)).
    apply SFmul_notAbove. rewrite FloatAxioms.div_spec, Hm. apply SFdiv_notAbove.
    apply length_difference. lia.
Qed.

(** X18 at the person of [onePerson] seen at two frames without PPE, which
    leaves one person and two alerts; at that person without an alert; and at
    nothing. *)
Lemma compliance_text_clamped_witness :
  exists st,
    replay [mkCall (Raw.Body onePerson) (Raw.Body noPpe) 0 clock0;
            mkCall (Raw.Body onePerson) (Raw.Body noPpe) 10 clock0] emptyStore
    = Returns st
    /\ countByType "person" (detections st) = 1%nat
    /\ List.length (alerts st) = 2%nat
    /\ complianceText (alerts st) (detections st) = "0.0%"
    /\ complianceText [] (detections st) = "100.0%"
    /\ complianceText [] [] = "0%".
Proof.
  eexists. split; [vm_compute; reflexivity |].
  split; [reflexivity |]. split; [reflexivity |]. split; [| split].
  - match goal with
    | |- complianceText ?a ?d = _ => destruct (compliance_text_clamped a d) as (_ & _ & H)
    end.
    apply H; [cbn; lia | vm_compute; reflexivity].
  - match goal with
    | |- complianceText ?a ?d = _ => destruct (compliance_text_clamped a d) as (_ & H & _)
    end.
    apply H; [cbn; lia | vm_compute; reflexivity | reflexivity].
  - destruct (compliance_text_clamped [] []) as [H _]. apply H. reflexivity.
Defined.

(** X19. The card "Distribuição de Alertas" for the alerts of a store the
    component can hold: no alert is [low], the [high] and [medium] alerts are
    all the alerts, and the bar of the [low] alerts is always at zero. *)
Theorem low_alerts_never_shown :
  forall st : Store,
    reachable st ->
    let stats := getAlertStats (alerts st) in
    Dashboard.lowAlerts stats = 0%nat
    /\ (Dashboard.highAlerts stats + Dashboard.mediumAlerts stats = totalAlerts stats)%nat
    /\ (arrayLength (totalAlerts stats) ->
        share (Dashboard.lowAlerts stats) (totalAlerts stats) = 0).
Proof.
  intros st Hst stats.
  destruct (severity_partition _ (reachable_severity st Hst)) as [Hl Hhm].
  unfold stats, getAlertStats.
  cbn [Dashboard.lowAlerts Dashboard.highAlerts Dashboard.mediumAlerts totalAlerts].
  split; [exact Hl |]. split; [exact Hhm |].
  intros Ha. rewrite Hl. unfold share.
  destruct (0 <? List.length (alerts st))%nat eqn:E; [| reflexivity].
  apply Nat.ltb_lt in E. apply zero_share. apply arrayLength_53 in Ha. lia.
Qed.

(** X19 at the store [onePerson] leaves. *)
Lemma low_alerts_never_shown_witness :
  reachable personStore
  /\ let stats := getAlertStats (alerts personStore) in
     Dashboard.lowAlerts stats = 0%nat
     /\ (Dashboard.highAlerts stats + Dashboard.mediumAlerts stats = totalAlerts stats)%nat
     /\ (arrayLength (totalAlerts stats) ->
         share (Dashboard.lowAlerts stats) (totalAlerts stats) = 0).
Proof.
  split; [exact personStore_reachable |].
  apply (low_alerts_never_shown personStore). exact personStore_reachable.
Defined.

(** X20. The compliance rates at their two ends, on both cards: with at least
    one person, a class of the card that was never detected has the rate
    ["0.0"], and a class detected exactly as often as persons were has the rate
    ["100.0"]. *)
Theorem rates_at_the_ends :
  forall (detections : list Detection.t) (c : string),
    (0 < countByType "person" detections)%nat ->
    arrayLength (countByType "person" detections) ->
    (countByType c detections = 0%nat ->
     (In c ["hat"; "mask"; "gloves"; "glasses"; "boots"; "hearing"] ->
      get (ComplianceRatesCard.getComplianceRates detections) c = Some "0.0")
     /\ (In c ["mask"; "gloves"; "goggles"; "coverall"; "face_Shield"] ->
         get (AlertDashboard.getComplianceRates detections) c = Some "0.0"))
    /\ (countByType c detections = countByType "person" detections ->
        (In c ["hat"; "mask"; "gloves"; "glasses"; "boots"; "hearing"] ->
         get (ComplianceRatesCard.getComplianceRates detections) c = Some "100.0")
        /\ (In c ["mask"; "gloves"; "goggles"; "coverall"; "face_Shield"] ->
            get (AlertDashboard.getComplianceRates detections) c = Some "100.0")).
Proof.
  intros detections c Hp Ha.
  assert (E : (countByType "person" detections =? 0)%nat = false) by (apply Nat.eqb_neq; lia).
  unfold ComplianceRatesCard.getComplianceRates, AlertDashboard.getComplianceRates.
  rewrite E. split; intros Hc; split; intros Hin; cbn [In] in Hin;
    repeat (destruct Hin as [<- | Hin];
            [cbn [get String.eqb Ascii.eqb Bool.eqb]; rewrite Hc; f_equal;
             (now apply rate_zero) || (now apply rate_full) |]);
    contradiction.
Qed.

(** X20 at three persons with one mask, and at one person with one mask. *)
Lemma rates_at_the_ends_witness :
  get (ComplianceRatesCard.getComplianceRates
         [personAt 0; personAt 10; personAt 20; maskAt 0]) "hat" = Some "0.0"
  /\ get (ComplianceRatesCard.getComplianceRates [personAt 0; maskAt 0]) "mask"
     = Some "100.0".
Proof.
  split.
  - destruct (rates_at_the_ends [personAt 0; personAt 10; personAt 20; maskAt 0] "hat")
      as [H _]; [cbn; lia | vm_compute; reflexivity |].
    destruct H as [H _]; [reflexivity |]. apply H. now left.
  - destruct (rates_at_the_ends [personAt 0; maskAt 0] "mask")
      as [_ H]; [cbn; lia | vm_compute; reflexivity |].
    destruct H as [H _]; [reflexivity |]. apply H. right. now left.
Defined.

Import VideoPlayer.

(** X21. What the player draws after an analysis.  Once a video is loaded and
    analysed to its end, every stored Detection carries one of the analysed
    frames 0, 10, ..., 90; the Detections drawn at a frame of the player are
    within two frames of it, so they all come from the same analysed frame, and
    at a frame whose last digit is from 3 to 7 nothing is drawn. *)
Theorem one_frame_in_view :
  forall (answers : N -> Fetched) (s : Page.State) (file : File.t) (currentFrame : N),
    Page.videoFile s = Some file -> Page.store s = emptyStore ->
    Forall (answeredAt answers) analysedFrames ->
    let shown :=
      getCurrentDetections (detections (Page.store (analyzeVideo answers s))) currentFrame in
    (forall d, In d (detections (Page.store (analyzeVideo answers s))) ->
               In (Detection.frame d) analysedFrames)
    /\ (forall d1 d2, In d1 shown -> In d2 shown -> Detection.frame d1 = Detection.frame d2)
    /\ ((3 <= currentFrame mod 10 <= 7)%N -> shown = []).
Proof.
  intros answers s file c Hv Hs Hall shown.
  assert (Hfr : forall d, In d (detections (Page.store (analyzeVideo answers s))) ->
                          In (Detection.frame d) analysedFrames).
  { intros d Hd.
    assert (Hr : replay (callsAt answers analysedFrames) (Page.store s)
                 = Returns (Page.store (analyzeVideo answers s))).
    { unfold analyzeVideo. rewrite Hv, analyzeFrames_list, frames_of_analysis.
      destruct (analyzeList_answered answers analysedFrames []
                  (setAnalysisProgress 0 (setIsAnalyzing true s)) Hall)
        as (t & (Hr & _) & Hl).
      rewrite app_nil_r in Hl. rewrite Hl. cbn [analyzeList]. exact Hr. }
    destruct (replay_frames _ _ _ Hr d Hd) as [H | H].
    - rewrite Hs in H. contradiction.
    - now apply (callsAt_frames answers analysedFrames). }
  assert (Hshown : forall d, In d shown ->
            In (Detection.frame d) analysedFrames
            /\ (Z.abs (Z.of_N (Detection.frame d) - Z.of_N c) <= 2)%Z).
  { intros d Hd. unfold shown, getCurrentDetections in Hd. apply filter_In in Hd.
    destruct Hd as [Hd Hn]. split; [now apply Hfr |]. unfold near in Hn.
    now apply Z.leb_le in Hn. }
  assert (Hten : forall f, In f analysedFrames -> (f mod 10 = 0 /\ f <= 90)%N).
  { intros f Hf. unfold analysedFrames in Hf. cbn [In] in Hf.
    repeat (destruct Hf as [<- | Hf]; [split; [reflexivity | lia] |]). contradiction. }
  clearbody shown. split; [exact Hfr |]. split.
  - intros d1 d2 H1 H2.
    destruct (Hshown d1 H1) as [F1 N1]. destruct (Hshown d2 H2) as [F2 N2].
    destruct (Hten _ F1) as [M1 _]. destruct (Hten _ F2) as [M2 _].
    apply N.Div0.mod_divides in M1, M2.
    destruct M1 as [k1 E1]. destruct M2 as [k2 E2]. lia.
  - intros Hc. destruct shown as [| d r]; [reflexivity |]. exfalso.
    destruct (Hshown d) as [F N0]; [now left |].
    destruct (Hten _ F) as [M _]. apply N.Div0.mod_divides in M. destruct M as [k Ek].
    pose proof (N.Div0.div_mod c 10) as Hdm.
    pose proof (N.mod_upper_bound c 10 ltac:(lia)). lia.
Qed.

(** X21 at [clip] just loaded, every frame showing a person with a mask
    only. *)
Lemma one_frame_in_view_witness :
  let stored := detections (Page.store (analyzeVideo steady loaded)) in
  List.length stored = 11%nat
  /\ List.length (getCurrentDetections stored 11) = 1%nat
  /\ (forall d, In d stored -> In (Detection.frame d) analysedFrames)
  /\ (forall d1 d2, In d1 (getCurrentDetections stored 11) ->
                    In d2 (getCurrentDetections stored 11) ->
                    Detection.frame d1 = Detection.frame d2)
  /\ ((3 <= 15 mod 10 <= 7)%N -> getCurrentDetections stored 15 = []).
Proof.
  cbv zeta. split; [vm_compute; reflexivity |]. split; [vm_compute; reflexivity |].
  assert (Hall : Forall (answeredAt steady) analysedFrames)
    by (repeat constructor; eexists; eexists; eexists; reflexivity).
  destruct (one_frame_in_view steady loaded clip 11%N eq_refl eq_refl Hall) as (H1 & H2 & _).
  destruct (one_frame_in_view steady loaded clip 15%N eq_refl eq_refl Hall) as (_ & _ & H3).
  split; [exact H1 |]. split; [exact H2 | exact H3].
Defined.

(** X22. The colour of every Detection of a store the component can hold.  A
    Detection whose type is one of the seven values of [Detection['type']] is
    drawn in the colour [colors] holds for it, which is not the grey of the
    fallback; a Detection whose type is an inherited member (its label named
    [constructor] or [__proto__]) is drawn in that grey. *)
Theorem fallback_colour_for_inherited_types :
  forall st : Store,
    reachable st ->
    forall d, In d (detections st) ->
      (In (Detection.type d) detectionTypes
       /\ exists t c,
            Detection.type d = Str t /\ lookup colors t = Some c
            /\ colorOf (Detection.type d) = Str c /\ c <> "#6b7280")
      \/ (In (Detection.type d) inheritedTypes
          /\ colorOf (Detection.type d) = Str "#6b7280").
Proof.
  intros st Hst d Hd. destruct (stored_type st Hst d Hd) as [Ht | Ht].
  - left. split; [exact Ht |].
    unfold History.detectionTypes in Ht. cbn [In] in Ht.
    repeat (destruct Ht as [<- | Ht];
            [eexists; eexists; split; [reflexivity |]; split; [reflexivity |];
             split; [reflexivity | discriminate] |]).
    contradiction.
  - right. split; [exact Ht |].
    unfold History.inheritedTypes in Ht. cbn [In] in Ht.
    repeat (destruct Ht as [<- | Ht]; [reflexivity |]). contradiction.
Qed.

(** X22 at the mask of the store [oneMask] leaves, and at the Detection an
    entry labelled [Constructor] leaves. *)
Lemma fallback_colour_for_inherited_types_witness :
  reachable maskStore
  /\ colorOf (Detection.type (maskAt 0)) = Str "#f59e0b"
  /\ reachable (mkStore [memberAt 0 "constructor"; memberAt 1 "__proto__"] [])
  /\ colorOf (Detection.type (memberAt 0 "constructor")) = Str "#6b7280"
  /\ ((In (Detection.type (memberAt 0 "constructor")) detectionTypes
       /\ exists t c,
            Detection.type (memberAt 0 "constructor") = Str t /\ lookup colors t = Some c
            /\ colorOf (Detection.type (memberAt 0 "constructor")) = Str c
            /\ c <> "#6b7280")
      \/ (In (Detection.type (memberAt 0 "constructor")) inheritedTypes
          /\ colorOf (Detection.type (memberAt 0 "constructor")) = Str "#6b7280")).
Proof.
  assert (Hr : reachable (mkStore [memberAt 0 "constructor"; memberAt 1 "__proto__"] [])).
  { apply (reachable_step emptyStore (Raw.Body noPersons) (Raw.Body inheritedPpe) 0%N clock0);
      [apply reachable_empty | vm_compute; reflexivity]. }
  split; [exact maskStore_reachable |]. split; [reflexivity |].
  split; [exact Hr |]. split; [reflexivity |].
  apply (fallback_colour_for_inherited_types _ Hr (memberAt 0 "constructor")).
  now left.
Defined.

(** X23. The skip buttons of the player never ask for a time before the start
    or past the duration, whatever the two numbers are: the time [skipBackward]
    sets is never below zero, the time [skipForward] sets never above
    [duration]; and from less than ten seconds in, [skipBackward] sets zero. *)
Theorem skips_stay_in_range :
  forall p : Player,
    mounted p = true ->
    (currentTime (skipBackward p) <? 0) = false
    /\ (duration p <? currentTime (skipForward p)) = false
    /\ ((currentTime p - 10 <? 0) = true -> currentTime (skipBackward p) = 0)
    /\ duration (skipBackward p) = duration p /\ duration (skipForward p) = duration p.
Proof.
  intros p Hm. unfold skipBackward, skipForward. rewrite Hm.
  cbn [currentTime duration]. split; [| split; [| split; [| split; reflexivity]]].
  - destruct (is_nan (Math_max (currentTime p - 10) 0)) eqn:Hn.
    + rewrite FloatAxioms.ltb_spec. rewrite Binary64Facts.is_nan_spec in Hn.
      destruct (Prim2SF (Math_max (currentTime p - 10) 0)); try discriminate Hn.
      reflexivity.
    + destruct (Math_max_ge_r _ _ Hn) as (_ & _ & Hk).
      rewrite Binary64Facts.ltb_key by (assumption || reflexivity).
      apply Z.ltb_ge. exact Hk.
  - destruct (is_nan (Math_min (currentTime p + 10) (duration p))) eqn:Hn.
    + now apply Binary64Facts.ltb_nan_r.
    + destruct (Math_min_le_r _ _ Hn) as (_ & Hd & Hk).
      rewrite Binary64Facts.ltb_key by assumption.
      apply Z.ltb_ge. exact Hk.
  - intros Hlt. destruct (ltb_true _ _ Hlt) as (Hn & _ & Hk).
    unfold Math_max. rewrite Hn. change (is_nan 0) with false. cbn [orb].
    assert (Hz : is_neg_zero (currentTime p - 10) = false).
    { unfold is_neg_zero. destruct (is_zero (currentTime p - 10)) eqn:Hz; [| reflexivity].
      destruct (Binary64Facts.is_zero_spec _ Hz) as [s Hs].
      unfold Binary64.fkey in Hk. rewrite Hs in Hk. cbn in Hk. lia. }
    rewrite Hz, andb_false_r, Hlt. reflexivity.
Qed.

(** X23 at five seconds into a clip of a minute, and at fifty-five. *)
Lemma skips_stay_in_range_witness :
  currentTime (skipBackward (mkPlayer true 5 60)) = 0
  /\ (currentTime (skipBackward (mkPlayer true 5 60)) <? 0) = false
  /\ currentTime (skipForward (mkPlayer true 55 60)) = 60
  /\ (60 <? currentTime (skipForward (mkPlayer true 55 60))) = false.
Proof.
  destruct (skips_stay_in_range (mkPlayer true 5 60) eq_refl) as (H1 & _ & H3 & _).
  destruct (skips_stay_in_range (mkPlayer true 55 60) eq_refl) as (_ & H2 & _).
  split; [apply H3; reflexivity |]. split; [exact H1 |].
  split; [reflexivity | exact H2].
Defined.

Import AlertShapeFacts.

(** X24. The shape of every alert of a store the component can hold.  It lists
    from one to three labels, all different and all among the labels of the
    required classes; its severity is [high] when it lists two or more and
    [medium] when it lists one; its id is [alert_<frame>_<k>] and the id of its
    person is [person_<frame>_<j>] for the same frame and some [k <= j]: the
    alert is numbered among the persons the frame kept, the person among the
    entries of the response. *)
Theorem stored_alert_shape :
  forall st : Store,
    reachable st ->
    forall a, In a (alerts st) ->
      (1 <= List.length (Alert.missingEPIs a) <= 3)%nat
      /\ NoDup (Alert.missingEPIs a)
      /\ incl (Alert.missingEPIs a) labels
      /\ Alert.severity a
         = (if (2 <=? List.length (Alert.missingEPIs a))%nat then high else medium)
      /\ exists k j,
           (k <= j)%nat
           /\ Alert.id a = recordId "alert_" (Alert.frame a) k
           /\ Alert.personId a = recordId "person_" (Alert.frame a) j.
Proof.
  apply (reachable_alerts
           (fun a =>
              (1 <= List.length (Alert.missingEPIs a) <= 3)%nat
              /\ NoDup (Alert.missingEPIs a)
              /\ incl (Alert.missingEPIs a) labels
              /\ Alert.severity a
                 = (if (2 <=? List.length (Alert.missingEPIs a))%nat then high else medium)
              /\ exists k j,
                   (k <= j)%nat
                   /\ Alert.id a = recordId "alert_" (Alert.frame a) k
                   /\ Alert.personId a = recordId "person_" (Alert.frame a) j)).
  intros pd ed frame clock out a Hout Ha.
  exact (frame_alert_shape pd ed frame clock out a Hout Ha).
Qed.

(** X24 at a frame whose first person is too faint to be kept: the alert of
    the second person is [alert_0_0], for [person_0_1]. *)
Lemma stored_alert_shape_witness :
  exists st a,
    processDetections
      (Raw.Body (Some [Raw.mkPersonPrediction (Some [faintEntry; bareEntry])]))
      (Raw.Body oneMask) 0 clock0 emptyStore = Returns st
    /\ alerts st = [a]
    /\ Alert.id a = "alert_0_0" /\ Alert.personId a = "person_0_1"
    /\ (1 <= List.length (Alert.missingEPIs a) <= 3)%nat
    /\ NoDup (Alert.missingEPIs a)
    /\ incl (Alert.missingEPIs a) labels
    /\ Alert.severity a
       = (if (2 <=? List.length (Alert.missingEPIs a))%nat then high else medium)
    /\ exists k j,
         (k <= j)%nat
         /\ Alert.id a = recordId "alert_" (Alert.frame a) k
         /\ Alert.personId a = recordId "person_" (Alert.frame a) j.
Proof.
  eexists. eexists. split; [vm_compute; reflexivity |]. split; [reflexivity |].
  split; [reflexivity |]. split; [reflexivity |].
  match goal with
  | |- context [Alert.missingEPIs ?x] =>
      apply (stored_alert_shape
               (mkStore [Detection.mk "person_0_1" "person" 0.9 0 0 0 0 0 0 None; maskAt 0] [x]))
  end.
  - apply (reachable_step emptyStore
             (Raw.Body (Some [Raw.mkPersonPrediction (Some [faintEntry; bareEntry])]))
             (Raw.Body oneMask) 0%N clock0);
      [apply reachable_empty | vm_compute; reflexivity].
  - now left.
Defined.
